(** * sparql-grammar-pydantic: a shallow embedding of the grammar layer

    The Python sources ([terminals.py], [grammar.py]) define one pydantic model
    per SPARQL production.  Objects are embedded as tagged values ([pv]): a
    class tag and the field values in declaration order, so that dynamic
    dispatch ([x.render()]), [isinstance] tests and the reflective walk over
    [model_fields] are written the way the source has them.  Generators are
    embedded as the list of the values they yield, or the exception they raise
    when consumed. *)

From Stdlib Require Import String Ascii List ZArith Bool Lia DecimalString.
From stdpp Require Import base option list strings gmap.
Import ListNotations.
Set Warnings "-register-all".
#[local] Arguments String.append : simpl nomatch.
Local Open Scope string_scope.
Local Open Scope list_scope.

(** ** Exceptions and results *)

Inductive exn : Type :=
| NotImplementedError (msg : string)
| TypeError (msg : string)
| AttributeError (msg : string)
| ValueError (msg : string)
| AssertionError (msg : string)
| RuntimeError (msg : string)
| ValidationError (msg : string)
| IndexError (msg : string)
| MalformedObject (msg : string).

Inductive result (A : Type) : Type :=
| Ok (a : A)
| Err (e : exn).
Arguments Ok {A} a.
Arguments Err {A} e.

Notation "x <- c ;; k" :=
  (match c with Ok x => k | Err e => Err e end)
  (at level 100, c at next level, right associativity).

Definition is_ok {A} (r : result A) : bool :=
  match r with Ok _ => true | Err _ => false end.

Definition is_err {A} (r : result A) : bool := negb (is_ok r).

(** ** Classes *)

Module Cls.
Inductive t : Type :=
(* terminals.py *)
| IRIREF | PNAME_NS | PNAME_LN | BlankNodeLabel | VAR1 | VAR2 | LANGTAG
| INTEGER | DECIMAL | DOUBLE
| INTEGER_POSITIVE | DECIMAL_POSITIVE | DOUBLE_POSITIVE
| INTEGER_NEGATIVE | DECIMAL_NEGATIVE | DOUBLE_NEGATIVE
| EXPONENT
| STRING_LITERAL1 | STRING_LITERAL2 | STRING_LITERAL_LONG1 | STRING_LITERAL_LONG2
| ECHAR | NIL | WS
| PN_CHARS_BASE | PN_CHARS_U | VARNAME | PN_CHARS | PN_PREFIX | PN_LOCAL
| PLX | PERCENT | HEX | PN_LOCAL_ESC
(* grammar.py *)
| QueryUnit | Query | Prologue | BaseDecl | PrefixDecl
| SelectQuery | SubSelect | SelectClause | ConstructQuery | DescribeQuery | AskQuery
| DatasetClause | DefaultGraphClause | NamedGraphClause | SourceSelector
| WhereClause | SolutionModifier | GroupClause | GroupCondition
| HavingClause | HavingCondition | OrderClause | OrderCondition
| LimitOffsetClauses | LimitClause | OffsetClause | ValuesClause
| Update | Update1 | Load | Clear | Drop | Create | Add | Move | Copy
| InsertData | DeleteData | DeleteWhere | Modify | DeleteClause | InsertClause
| UsingClause | GraphOrDefault | GraphRef | GraphRefAll
| QuadPattern | QuadData | Quads | QuadsNotTriples | TriplesTemplate
| GroupGraphPattern | GroupGraphPatternSub | TriplesBlock
| GraphPatternNotTriples | OptionalGraphPattern | GraphGraphPattern
| ServiceGraphPattern | Bind | InlineData | DataBlock
| InlineDataOneVar | InlineDataFull | DataBlockValue
| MinusGraphPattern | GroupOrUnionGraphPattern | Filter | Constraint
| FunctionCall | ArgList | ExpressionList
| ConstructTemplate | ConstructTriples | TriplesSameSubject
| PropertyList | PropertyListNotEmpty | Verb | ObjectList | Object
| TriplesSameSubjectPath | PropertyListPath | PropertyListPathNotEmpty
| VerbPath | VerbSimple | ObjectListPath | ObjectPath
| SG_Path | PathAlternative | PathSequence | PathElt | PathEltOrInverse
| PathMod | PathPrimary | PathNegatedPropertySet | PathOneInPropertySet
| Integer | TriplesNode | BlankNodePropertyList | TriplesNodePath
| BlankNodePropertyListPath | SG_Collection | CollectionPath
| GraphNode | GraphNodePath | VarOrTerm | VarOrIri | Var | GraphTerm
| Expression | ConditionalOrExpression | ConditionalAndExpression
| ValueLogical | RelationalExpression | NumericExpression
| AdditiveExpression | MultiplicativeExpression | UnaryExpression
| PrimaryExpression | BrackettedExpression | BuiltInCall
| RegexExpression | SubstringExpression | StrReplaceExpression
| ExistsFunc | NotExistsFunc | Aggregate | iriOrFunction
| RDFLiteral | NumericLiteral | NumericLiteralUnsigned
| NumericLiteralPositive | NumericLiteralNegative | BooleanLiteral
| String | iri | PrefixedName | BlankNode.
(** A numbering of the classes, used to decide equality of class tags. *)
Definition tag (c : t) : positive :=
  match c with
  | IRIREF => 1 | PNAME_NS => 2 | PNAME_LN => 3 | BlankNodeLabel => 4
  | VAR1 => 5 | VAR2 => 6 | LANGTAG => 7 | INTEGER => 8
  | DECIMAL => 9 | DOUBLE => 10 | INTEGER_POSITIVE => 11 | DECIMAL_POSITIVE => 12
  | DOUBLE_POSITIVE => 13 | INTEGER_NEGATIVE => 14 | DECIMAL_NEGATIVE => 15 | DOUBLE_NEGATIVE => 16
  | EXPONENT => 17 | STRING_LITERAL1 => 18 | STRING_LITERAL2 => 19 | STRING_LITERAL_LONG1 => 20
  | STRING_LITERAL_LONG2 => 21 | ECHAR => 22 | NIL => 23 | WS => 24
  | PN_CHARS_BASE => 25 | PN_CHARS_U => 26 | VARNAME => 27 | PN_CHARS => 28
  | PN_PREFIX => 29 | PN_LOCAL => 30 | PLX => 31 | PERCENT => 32
  | HEX => 33 | PN_LOCAL_ESC => 34 | QueryUnit => 35 | Query => 36
  | Prologue => 37 | BaseDecl => 38 | PrefixDecl => 39 | SelectQuery => 40
  | SubSelect => 41 | SelectClause => 42 | ConstructQuery => 43 | DescribeQuery => 44
  | AskQuery => 45 | DatasetClause => 46 | DefaultGraphClause => 47 | NamedGraphClause => 48
  | SourceSelector => 49 | WhereClause => 50 | SolutionModifier => 51 | GroupClause => 52
  | GroupCondition => 53 | HavingClause => 54 | HavingCondition => 55 | OrderClause => 56
  | OrderCondition => 57 | LimitOffsetClauses => 58 | LimitClause => 59 | OffsetClause => 60
  | ValuesClause => 61 | Update => 62 | Update1 => 63 | Load => 64
  | Clear => 65 | Drop => 66 | Create => 67 | Add => 68
  | Move => 69 | Copy => 70 | InsertData => 71 | DeleteData => 72
  | DeleteWhere => 73 | Modify => 74 | DeleteClause => 75 | InsertClause => 76
  | UsingClause => 77 | GraphOrDefault => 78 | GraphRef => 79 | GraphRefAll => 80
  | QuadPattern => 81 | QuadData => 82 | Quads => 83 | QuadsNotTriples => 84
  | TriplesTemplate => 85 | GroupGraphPattern => 86 | GroupGraphPatternSub => 87 | TriplesBlock => 88
  | GraphPatternNotTriples => 89 | OptionalGraphPattern => 90 | GraphGraphPattern => 91 | ServiceGraphPattern => 92
  | Bind => 93 | InlineData => 94 | DataBlock => 95 | InlineDataOneVar => 96
  | InlineDataFull => 97 | DataBlockValue => 98 | MinusGraphPattern => 99 | GroupOrUnionGraphPattern => 100
  | Filter => 101 | Constraint => 102 | FunctionCall => 103 | ArgList => 104
  | ExpressionList => 105 | ConstructTemplate => 106 | ConstructTriples => 107 | TriplesSameSubject => 108
  | PropertyList => 109 | PropertyListNotEmpty => 110 | Verb => 111 | ObjectList => 112
  | Object => 113 | TriplesSameSubjectPath => 114 | PropertyListPath => 115 | PropertyListPathNotEmpty => 116
  | VerbPath => 117 | VerbSimple => 118 | ObjectListPath => 119 | ObjectPath => 120
  | SG_Path => 121 | PathAlternative => 122 | PathSequence => 123 | PathElt => 124
  | PathEltOrInverse => 125 | PathMod => 126 | PathPrimary => 127 | PathNegatedPropertySet => 128
  | PathOneInPropertySet => 129 | Integer => 130 | TriplesNode => 131 | BlankNodePropertyList => 132
  | TriplesNodePath => 133 | BlankNodePropertyListPath => 134 | SG_Collection => 135 | CollectionPath => 136
  | GraphNode => 137 | GraphNodePath => 138 | VarOrTerm => 139 | VarOrIri => 140
  | Var => 141 | GraphTerm => 142 | Expression => 143 | ConditionalOrExpression => 144
  | ConditionalAndExpression => 145 | ValueLogical => 146 | RelationalExpression => 147 | NumericExpression => 148
  | AdditiveExpression => 149 | MultiplicativeExpression => 150 | UnaryExpression => 151 | PrimaryExpression => 152
  | BrackettedExpression => 153 | BuiltInCall => 154 | RegexExpression => 155 | SubstringExpression => 156
  | StrReplaceExpression => 157 | ExistsFunc => 158 | NotExistsFunc => 159 | Aggregate => 160
  | iriOrFunction => 161 | RDFLiteral => 162 | NumericLiteral => 163 | NumericLiteralUnsigned => 164
  | NumericLiteralPositive => 165 | NumericLiteralNegative => 166 | BooleanLiteral => 167 | String => 168
  | iri => 169 | PrefixedName => 170 | BlankNode => 171
  end%positive.

Definition eqb (a b : t) : bool := Pos.eqb (tag a) (tag b).

End Cls.

(** The [Enum] subclasses of grammar.py. *)
Inductive EnumCls : Type :=
| Wildcard | DistinctReduced | GraphOrDefaultOptions | GraphRefOptions
| UndefEnum | VerbRDFType | MultiplyDivideOperators | MultiplacativeOperator
| UnaryOperator | BuiltInCallOptions | AggregateOptions | BoolOptions.

(** ** Python values

    [PObj cls fields] is an instance of the pydantic model [cls]; [fields]
    holds the values of [model_fields] in declaration order.  [PEnum] is an
    enum member with its name and its [.value].  [PAnon] is an instance of the
    plain class [Anon] of terminals.py, which has no fields and compares by
    identity. *)
Inductive pv : Type :=
| PNone
| PBool (b : bool)
| PInt (z : Z)
| PStr (s : string)
| PEnum (e : EnumCls) (name value : string)
| PList (items : list pv)
| PTuple (items : list pv)
| PAnon (id : nat)
| PObj (cls : Cls.t) (fields : list pv).

(** ** Python primitives *)

Definition NL : string := String (ascii_of_nat 10) EmptyString.
Definition TAB : string := String (ascii_of_nat 9) EmptyString.
Definition DQ : string := String (ascii_of_nat 34) EmptyString.

(** [bool(x)]: [None], [False], [0], empty strings and empty sequences are
    false; enum members, pydantic models and plain objects are true. *)
Definition py_truthy (v : pv) : bool :=
  match v with
  | PNone => false
  | PBool b => b
  | PInt z => negb (z =? 0)%Z
  | PStr s => negb (String.eqb s "")
  | PList items | PTuple items => negb (Nat.eqb (length items) 0)
  | PEnum _ _ _ | PAnon _ | PObj _ _ => true
  end.

Definition EnumCls_name (e : EnumCls) : string :=
  match e with
  | Wildcard => "Wildcard"
  | DistinctReduced => "DistinctReduced"
  | GraphOrDefaultOptions => "GraphOrDefaultOptions"
  | GraphRefOptions => "GraphRefOptions"
  | UndefEnum => "UndefEnum"
  | VerbRDFType => "VerbRDFType"
  | MultiplyDivideOperators => "MultiplyDivideOperators"
  | MultiplacativeOperator => "MultiplacativeOperator"
  | UnaryOperator => "UnaryOperator"
  | BuiltInCallOptions => "BuiltInCallOptions"
  | AggregateOptions => "AggregateOptions"
  | BoolOptions => "BoolOptions"
  end.

Definition EnumCls_eqb (a b : EnumCls) : bool :=
  String.eqb (EnumCls_name a) (EnumCls_name b).

(** [isinstance(v, E)] for an [Enum] subclass [E]. *)
Definition isinstance_enum (v : pv) (e : EnumCls) : bool :=
  match v with PEnum e' _ _ => EnumCls_eqb e' e | _ => false end.

(** The text an f-string substitutes for [{v}]: a plain [Enum] member formats
    as [ClassName.MEMBER], not as its value. *)
Definition py_format (v : pv) : result string :=
  match v with
  | PStr s => Ok s
  | PInt z => Ok (NilZero.string_of_int (Z.to_int z))
  | PBool true => Ok "True"
  | PBool false => Ok "False"
  | PNone => Ok "None"
  | PEnum e name _ => Ok (EnumCls_name e +:+ "." +:+ name)
  | _ => Err (MalformedObject "formatted value outside the declared field types")
  end.

(** [sep.join(parts)]: every part must be a [str]. *)
Fixpoint strs (parts : list pv) : result (list string) :=
  match parts with
  | [] => Ok []
  | PStr s :: rest => ss <- strs rest ;; Ok (s :: ss)
  | _ :: _ => Err (TypeError "sequence item: expected str instance")
  end.

Definition py_join (sep : string) (parts : list pv) : result string :=
  ss <- strs parts ;; Ok (String.concat sep ss).

(** The characters of a [str], as iterating it yields them. *)
Fixpoint py_chars (s : string) : list pv :=
  match s with
  | EmptyString => []
  | String c r => PStr (String c EmptyString) :: py_chars r
  end.

(** ** Generators

    A generator is embedded by what consuming it gives: the values it yields in
    order, or the exception that escapes.  An exception raised inside a
    generator body after some values were yielded still makes the consumer
    ([str.join], [yield from]) fail as a whole. *)
Definition gen : Type := result (list pv).

Definition yield (x : pv) : gen := Ok [x].
Definition ystr (s : string) : gen := Ok [PStr s].
Definition gskip : gen := Ok [].

Definition gseq (g1 g2 : gen) : gen :=
  a <- g1 ;; b <- g2 ;; Ok (a ++ b).
Infix ">>" := gseq (at level 62, left associativity).

Definition gwhen (b : bool) (g : gen) : gen := if b then g else gskip.

(** [for x in items: body(x)] over a Python list. *)
Definition gfor (body : pv -> gen) : list pv -> gen :=
  fix go (items : list pv) : gen :=
    match items with
    | [] => gskip
    | x :: rest => body x >> go rest
    end.

(** [for i, x in enumerate(items): body(i, len(items), x)]. *)
Definition gfor_enum_from (body : Z -> pv -> gen) : list pv -> Z -> gen :=
  fix go (items : list pv) (i : Z) : gen :=
    match items with
    | [] => gskip
    | x :: rest => body i x >> go rest (i + 1)%Z
    end.

Definition malformed {A} : result A :=
  Err (MalformedObject "field outside its declared type").

Definition not_iterable {A} : result A :=
  Err (TypeError "object is not iterable").

(** [for x in xs: body(x)] where [xs] is a field value.  Lists and tuples
    iterate over their items; [None], numbers, enum members and plain objects
    are not iterable.  Strings and models are iterable in Python, but no field
    iterated through this helper admits them. *)
Definition for_in (xs : pv) (body : pv -> gen) : gen :=
  match xs with
  | PList items | PTuple items => gfor body items
  | PNone | PBool _ | PInt _ | PEnum _ _ _ | PAnon _ => not_iterable
  | PStr _ | PObj _ _ => malformed
  end.

(** [for i, x in enumerate(xs): body(i, x); if i < len(xs) - 1: yield sep]. *)
Definition for_sep (xs : pv) (body : pv -> gen) (sep : string) : gen :=
  match xs with
  | PList items | PTuple items =>
      gfor_enum_from
        (fun i x => body x >> gwhen (i <? Z.of_nat (length items) - 1)%Z (ystr sep))
        items 0%Z
  | PNone | PBool _ | PInt _ | PEnum _ _ _ | PAnon _ => not_iterable
  | PStr _ | PObj _ _ => malformed
  end.

(** [it = iter(xs); first = next(it); head(first); for x in it: tail(x)]
    inside a generator: [next] on an exhausted iterator raises
    [StopIteration], which a generator body turns into [RuntimeError]. *)
Definition first_then_rest (xs : pv) (head tail : pv -> gen) : gen :=
  match xs with
  | PList items | PTuple items =>
      match items with
      | [] => Err (RuntimeError "generator raised StopIteration")
      | first :: rest => head first >> gfor tail rest
      end
  | PNone | PBool _ | PInt _ | PEnum _ _ _ | PAnon _ => not_iterable
  | PStr _ | PObj _ _ => malformed
  end.

(** [e.value] of an enum member, yielded as a fragment. *)
Definition yield_enum_value (v : pv) : gen :=
  match v with
  | PEnum _ _ value => ystr value
  | _ => Err (AttributeError "object has no attribute 'value'")
  end.

(** [x[0]] and [x[1]], continued with [k]: lists and tuples are indexed, a
    pydantic model is not subscriptable. *)
Definition item0 (x : pv) (k : pv -> gen) : gen :=
  match x with
  | PList (a :: _) | PTuple (a :: _) => k a
  | PList [] | PTuple [] => Err (IndexError "index out of range")
  | PStr _ => malformed
  | _ => Err (TypeError "object is not subscriptable")
  end.

Definition item1 (x : pv) (k : pv -> gen) : gen :=
  match x with
  | PList (_ :: b :: _) | PTuple (_ :: b :: _) => k b
  | PList _ | PTuple _ => Err (IndexError "index out of range")
  | PStr _ => malformed
  | _ => Err (TypeError "object is not subscriptable")
  end.

(** ** Renderers

    Every [render] method is written against [render], the dynamic dispatch
    [x.render()] on a child; the knot is tied in [render] below.  A method takes
    the field values of [self] in declaration order. *)

Section Renderers.

Variable render : pv -> gen.

(** *** terminals.py *)

(** [Terminal.render]: [raise self.value] raises a [str], which Python refuses
    with a [TypeError].  The method is not a generator, so the call itself
    raises. *)
Definition Terminal_render (fields : list pv) : gen :=
  Err (TypeError "exceptions must derive from BaseException").

(** The overriding renderers yield a delimiter, [self.value], and for some a
    closing delimiter. *)
Definition delimited (before after : string) (fields : list pv) : gen :=
  match fields with
  | [value] => ystr before >> yield value >> gwhen (negb (String.eqb after "")) (ystr after)
  | _ => malformed
  end.

Definition IRIREF_render := delimited "<" ">".
Definition BlankNodeLabel_render := delimited "_:" "".
Definition VAR1_render := delimited "?" "".
Definition VAR2_render := delimited "$" "".
Definition LANGTAG_render := delimited "@" "".
Definition INTEGER_POSITIVE_render := delimited "+" "".
Definition DECIMAL_POSITIVE_render := delimited "+" "".
Definition DOUBLE_POSITIVE_render := delimited "+" "".
Definition INTEGER_NEGATIVE_render := delimited "-" "".
Definition DECIMAL_NEGATIVE_render := delimited "-" "".
Definition DOUBLE_NEGATIVE_render := delimited "-" "".
Definition STRING_LITERAL1_render := delimited "'" "'".
Definition STRING_LITERAL2_render := delimited DQ DQ.
Definition STRING_LITERAL_LONG1_render := delimited "'''" "'''".
Definition STRING_LITERAL_LONG2_render := delimited (DQ +:+ DQ +:+ DQ) (DQ +:+ DQ +:+ DQ).
Definition NIL_render := delimited "(" ")".
Definition PN_LOCAL_ESC_render := delimited "\" "".

(** [Anon] is a plain class without a [value] attribute: its generator yields
    the opening bracket and then fails on [self.value]. *)
Definition Anon_render : gen :=
  ystr "[" >> Err (AttributeError "'Anon' object has no attribute 'value'").

(** *** grammar.py *)

(** [SPARQLGrammarBase.render], inherited by every subclass without a
    [render] of its own. *)
Definition SPARQLGrammarBase_render (fields : list pv) : gen :=
  Err (NotImplementedError "Subclasses must implement this method.").

Definition QueryUnit_render (fields : list pv) : gen :=
  match fields with
  | [query] => render query
  | _ => malformed
  end.

Definition Query_render (fields : list pv) : gen :=
  match fields with
  | [prologue; query; values_clause] =>
      render prologue >> ystr NL >> render query >> render values_clause
  | _ => malformed
  end.

Definition Prologue_render (fields : list pv) : gen :=
  match fields with
  | [decls] => for_in decls render
  | _ => malformed
  end.

Definition BaseDecl_render (fields : list pv) : gen :=
  match fields with
  | [iriref] => ystr "BASE " >> render iriref
  | _ => malformed
  end.

Definition PrefixDecl_render (fields : list pv) : gen :=
  match fields with
  | [pname_ns; iriref] => ystr "PREFIX " >> render pname_ns >> render iriref
  | _ => malformed
  end.

Definition SelectQuery_render (fields : list pv) : gen :=
  match fields with
  | [select_clause; dataset_clauses; where_clause; solution_modifier] =>
      render select_clause
      >> gwhen (py_truthy dataset_clauses) (for_in dataset_clauses render)
      >> render where_clause
      >> render solution_modifier
  | _ => malformed
  end.

Definition SubSelect_render (fields : list pv) : gen :=
  match fields with
  | [select_clause; where_clause; solution_modifier; values_clause] =>
      render select_clause >> render where_clause
      >> render solution_modifier >> render values_clause
  | _ => malformed
  end.

(** [a, b = item]: the item must be a sequence of exactly two values. *)
Definition unpack2 (item : pv) (k : pv -> pv -> gen) : gen :=
  match item with
  | PList [a; b] | PTuple [a; b] => k a b
  | PList _ | PTuple _ => Err (ValueError "wrong number of values to unpack (expected 2)")
  | PObj _ [_] => Err (ValueError "not enough values to unpack (expected 2, got 1)")
  | PNone | PBool _ | PInt _ | PEnum _ _ _ | PAnon _ =>
      Err (TypeError "cannot unpack non-iterable object")
  | PStr _ | PObj _ _ => malformed
  end.

Definition is_Var (v : pv) : bool :=
  match v with PObj Cls.Var _ => true | _ => false end.

Definition is_tuple (v : pv) : bool :=
  match v with PTuple _ => true | _ => false end.

Definition is_list (v : pv) : bool :=
  match v with PList _ => true | _ => false end.

Definition is_str (v : pv) : bool :=
  match v with PStr _ => true | _ => false end.

Definition SelectClause_render (fields : list pv) : gen :=
  match fields with
  | [distinct_or_reduced; variables_or_wildcard] =>
      ystr "SELECT"
      >> gwhen (py_truthy distinct_or_reduced) (yield_enum_value distinct_or_reduced)
      >> (if isinstance_enum variables_or_wildcard Wildcard
          then yield_enum_value variables_or_wildcard
          else for_in variables_or_wildcard (fun item =>
                 if is_Var item then ystr " " >> render item
                 else if is_tuple item then
                   unpack2 item (fun expression as_var =>
                     ystr " (" >> render expression >> ystr " AS "
                     >> render as_var >> ystr ")")
                 else gskip))
  | _ => malformed
  end.

Definition ConstructQuery_render (fields : list pv) : gen :=
  match fields with
  | [construct_template; where_clause; solution_modifier] =>
      ystr "CONSTRUCT " >> render construct_template
      >> render where_clause >> render solution_modifier
  | _ => malformed
  end.

Definition DescribeQuery_render (fields : list pv) : gen :=
  match fields with
  | [varoriri_or_all; dataset_clauses; where_clause; solution_modifier] =>
      ystr "DESCRIBE "
      >> (if is_str varoriri_or_all then ystr "*" else render varoriri_or_all)
      >> gwhen (py_truthy dataset_clauses) (for_in dataset_clauses render)
      >> gwhen (py_truthy where_clause) (render where_clause)
      >> render solution_modifier
  | _ => malformed
  end.

Definition AskQuery_render (fields : list pv) : gen :=
  match fields with
  | [dataset_clauses; where_clause; solution_modifier] =>
      ystr "ASK "
      >> gwhen (py_truthy dataset_clauses) (for_in dataset_clauses render)
      >> render where_clause
      >> render solution_modifier
  | _ => malformed
  end.

Definition DatasetClause_render (fields : list pv) : gen :=
  match fields with
  | [default_or_named_graph_clause] =>
      ystr "FROM " >> render default_or_named_graph_clause
  | _ => malformed
  end.

Definition DefaultGraphClause_render (fields : list pv) : gen :=
  match fields with
  | [source_selector] => render source_selector
  | _ => malformed
  end.

Definition NamedGraphClause_render (fields : list pv) : gen :=
  match fields with
  | [source_selector] => ystr "NAMED " >> render source_selector
  | _ => malformed
  end.

Definition SourceSelector_render (fields : list pv) : gen :=
  match fields with
  | [iri] => render iri
  | _ => malformed
  end.

Definition WhereClause_render (fields : list pv) : gen :=
  match fields with
  | [group_graph_pattern] => ystr (NL +:+ "WHERE ") >> render group_graph_pattern
  | _ => malformed
  end.

Definition SolutionModifier_render (fields : list pv) : gen :=
  match fields with
  | [group_by; having; order_by; limit_offset] =>
      gwhen (py_truthy order_by) (render order_by)
      >> gwhen (py_truthy limit_offset)
           (gwhen (py_truthy order_by) (ystr NL) >> render limit_offset)
      >> gwhen (py_truthy group_by) (render group_by)
  | _ => malformed
  end.

Definition GroupClause_render (fields : list pv) : gen :=
  match fields with
  | [group_conditions] =>
      ystr (NL +:+ "GROUP BY ") >> for_sep group_conditions render " "
  | _ => malformed
  end.

Definition GroupCondition_render (fields : list pv) : gen :=
  match fields with
  | [condition] =>
      if is_tuple condition then
        ystr "(" >> item0 condition render >> ystr " AS "
        >> item1 condition render >> ystr ")"
      else render condition
  | _ => malformed
  end.

Definition HavingClause_render (fields : list pv) : gen :=
  match fields with
  | [having_conditions] =>
      ystr (NL +:+ "HAVING ") >> for_sep having_conditions render " "
  | _ => malformed
  end.

Definition HavingCondition_render (fields : list pv) : gen :=
  match fields with
  | [constraint] => render constraint
  | _ => malformed
  end.

(** [yield " ".join(part for condition in self.conditions
                         for part in condition.render())] *)
Definition OrderClause_render (fields : list pv) : gen :=
  match fields with
  | [conditions] =>
      ystr (NL +:+ "ORDER BY ")
      >> (parts <- for_in conditions render ;;
          s <- py_join " " parts ;;
          ystr s)
  | _ => malformed
  end.

Definition OrderCondition_render (fields : list pv) : gen :=
  match fields with
  | [var; direction] =>
      if py_truthy direction then
        (d <- py_format direction ;; ystr (d +:+ "("))
        >> render var >> ystr ")"
      else render var
  | _ => malformed
  end.

Definition LimitOffsetClauses_render (fields : list pv) : gen :=
  match fields with
  | [limit_clause; offset_clause] =>
      gwhen (py_truthy limit_clause) (render limit_clause)
      >> gwhen (py_truthy offset_clause)
           (gwhen (py_truthy limit_clause) (ystr NL) >> render offset_clause)
  | _ => malformed
  end.

Definition LimitClause_render (fields : list pv) : gen :=
  match fields with
  | [limit] => l <- py_format limit ;; ystr ("LIMIT " +:+ l)
  | _ => malformed
  end.

Definition OffsetClause_render (fields : list pv) : gen :=
  match fields with
  | [offset] => o <- py_format offset ;; ystr ("OFFSET " +:+ o)
  | _ => malformed
  end.

Definition ValuesClause_render (fields : list pv) : gen :=
  match fields with
  | [data_block] =>
      gwhen (py_truthy data_block)
        (ystr (NL +:+ TAB +:+ "VALUES ") >> render data_block)
  | _ => malformed
  end.

Definition Update_render (fields : list pv) : gen :=
  match fields with
  | [prologue; update1; update] =>
      gwhen (py_truthy prologue) (render prologue)
      >> gwhen (py_truthy update1) (render update1)
      >> gwhen (py_truthy update) (ystr "; " >> render update)
  | _ => malformed
  end.

Definition Update1_render (fields : list pv) : gen :=
  match fields with
  | [update1] => render update1
  | _ => malformed
  end.

Definition Load_render (fields : list pv) : gen :=
  match fields with
  | [silent; iri; graph_ref] =>
      ystr "LOAD "
      >> gwhen (py_truthy silent) (ystr "SILENT ")
      >> render iri
      >> gwhen (py_truthy graph_ref) (ystr " INTO " >> render graph_ref)
  | _ => malformed
  end.

(** [Clear], [Drop] and [Create]: keyword, optional [SILENT], one child. *)
Definition silent_then (keyword : string) (fields : list pv) : gen :=
  match fields with
  | [silent; child] =>
      ystr keyword >> gwhen (py_truthy silent) (ystr "SILENT ") >> render child
  | _ => malformed
  end.

Definition Clear_render := silent_then "CLEAR ".
Definition Drop_render := silent_then "DROP ".
Definition Create_render := silent_then "CREATE ".

(** [Add], [Move] and [Copy]: keyword, optional [SILENT], source, [TO],
    target. *)
Definition silent_from_to (keyword : string) (fields : list pv) : gen :=
  match fields with
  | [silent; from_graph; to_graph] =>
      ystr keyword >> gwhen (py_truthy silent) (ystr "SILENT ")
      >> render from_graph >> ystr " TO " >> render to_graph
  | _ => malformed
  end.

Definition Add_render := silent_from_to "ADD ".
Definition Move_render := silent_from_to "MOVE ".
Definition Copy_render := silent_from_to "COPY ".

(** A keyword followed by the only child. *)
Definition keyword_then (keyword : string) (fields : list pv) : gen :=
  match fields with
  | [child] => ystr keyword >> render child
  | _ => malformed
  end.

Definition InsertData_render := keyword_then "INSERT DATA ".
Definition DeleteData_render := keyword_then "DELETE DATA ".
Definition DeleteWhere_render := keyword_then "DELETE WHERE ".

Definition Modify_render (fields : list pv) : gen :=
  match fields with
  | [with_iri; delete_insert_or_insert; using_clauses; group_graph_pattern] =>
      gwhen (py_truthy with_iri) (ystr "WITH " >> render with_iri)
      >> (if is_tuple delete_insert_or_insert then
            unpack2 delete_insert_or_insert (fun delete_clause insert_clause =>
              render delete_clause >> render insert_clause)
          else render delete_insert_or_insert)
      >> gwhen (py_truthy using_clauses) (for_in using_clauses render)
      >> ystr "WHERE "
      >> render group_graph_pattern
  | _ => malformed
  end.

Definition DeleteClause_render := keyword_then "DELETE ".
Definition InsertClause_render := keyword_then "INSERT ".

Definition UsingClause_render (fields : list pv) : gen :=
  match fields with
  | [iri; named] =>
      ystr "USING " >> gwhen (py_truthy named) (ystr "NAMED ") >> render iri
  | _ => malformed
  end.

Definition GraphOrDefault_render (fields : list pv) : gen :=
  match fields with
  | [graph_or_default; iri] =>
      gwhen (py_truthy graph_or_default) (yield_enum_value graph_or_default)
      >> gwhen (py_truthy iri) (render iri)
  | _ => malformed
  end.

Definition GraphRef_render := keyword_then "GRAPH ".

Definition is_GraphRef (v : pv) : bool :=
  match v with PObj Cls.GraphRef _ => true | _ => false end.

Definition GraphRefAll_render (fields : list pv) : gen :=
  match fields with
  | [option] =>
      if is_GraphRef option then render option else yield_enum_value option
  | _ => malformed
  end.

(** [QuadPattern] and [QuadData] *)
Definition braced_quads (fields : list pv) : gen :=
  match fields with
  | [quads] => ystr "{ " >> render quads >> ystr " }"
  | _ => malformed
  end.

Definition QuadPattern_render := braced_quads.
Definition QuadData_render := braced_quads.

(** The interleaving loop shared by [Quads.render] and
    [GroupGraphPatternSub.render]:
<<
    for i in range(len(secondary)):
        yield from secondary[i].render()
        yield " ."
        if i + 1 < len(primary):
            yield from primary[i + 1].render()
>>
    The loop walks the generators of [secondary] and of [primary[1:]] in step:
    at step [i] the head of [primary_tail] is [primary[i + 1].render()] when
    that index exists.  Generators that the loop never reaches are never
    consumed. *)
Definition interleave : list gen -> list gen -> gen :=
  fix go (secondary primary_tail : list gen) : gen :=
    match secondary with
    | [] => gskip
    | s :: secondary' =>
        s >> ystr " ."
        >> match primary_tail with
           | p :: primary_tail' => p >> go secondary' primary_tail'
           | [] => go secondary' []
           end
    end.

(** The generators of [items[1:]]. *)
Definition renders_of_tail (items : list pv) : list gen :=
  match items with
  | [] => []
  | _ :: rest => map render rest
  end.

Definition no_len {A} : result A :=
  Err (TypeError "object has no len()").

Definition Quads_render (fields : list pv) : gen :=
  match fields with
  | [PList triples_templates; quads_not_triples] =>
      match triples_templates with
      | [] => gskip
      | first :: _ => render first
      end
      >> match quads_not_triples with
         | PList qnt =>
             interleave (map render qnt) (renders_of_tail triples_templates)
         | PNone => no_len
         | _ => malformed
         end
  | _ => malformed
  end.

Definition QuadsNotTriples_render (fields : list pv) : gen :=
  match fields with
  | [var_or_iri; triples_template] =>
      ystr "GRAPH " >> render var_or_iri >> ystr " {"
      >> gwhen (py_truthy triples_template) (render triples_template)
      >> ystr "}"
  | _ => malformed
  end.

(** [TriplesTemplate.render] starts with [self.triples_same_subject_path], an
    attribute the model does not have (the field is [triples_same_subject]). *)
Definition TriplesTemplate_render (fields : list pv) : gen :=
  match fields with
  | [triples_same_subject; triples_template] =>
      Err (AttributeError
             "'TriplesTemplate' object has no attribute 'triples_same_subject_path'")
  | _ => malformed
  end.

Definition GroupGraphPattern_render (fields : list pv) : gen :=
  match fields with
  | [content] => ystr ("{" +:+ NL) >> render content >> ystr (NL +:+ "}")
  | _ => malformed
  end.

Definition GroupGraphPatternSub_render (fields : list pv) : gen :=
  match fields with
  | [PList triples_blocks; graph_patterns_not_triples] =>
      match triples_blocks with
      | [] => gskip
      | first :: _ => render first
      end
      >> gwhen (py_truthy graph_patterns_not_triples)
           match graph_patterns_not_triples with
           | PList gpnt =>
               interleave (map render gpnt) (renders_of_tail triples_blocks)
           | _ => malformed
           end
  | _ => malformed
  end.

Definition TriplesBlock_render (fields : list pv) : gen :=
  match fields with
  | [triples; triples_block] =>
      if is_list triples then
        for_in triples (fun triple => render triple >> ystr NL)
      else
        render triples
        >> gwhen (py_truthy triples_block)
             (ystr (" ." +:+ NL) >> render triples_block >> ystr NL)
  | _ => malformed
  end.

(** [GraphPatternNotTriples] has no [render] in its class body: the [def
    render] that follows it in grammar.py stands at module level.  The class
    inherits [SPARQLGrammarBase.render]. *)
Definition GraphPatternNotTriples_render := SPARQLGrammarBase_render.

Definition OptionalGraphPattern_render (fields : list pv) : gen :=
  match fields with
  | [group_graph_pattern] => ystr (NL +:+ "OPTIONAL ") >> render group_graph_pattern
  | _ => malformed
  end.

Definition GraphGraphPattern_render (fields : list pv) : gen :=
  match fields with
  | [var_or_iri; group_graph_pattern] =>
      ystr (NL +:+ "GRAPH ") >> render var_or_iri >> render group_graph_pattern
  | _ => malformed
  end.

Definition ServiceGraphPattern_render (fields : list pv) : gen :=
  match fields with
  | [silent; var_or_iri; group_graph_pattern] =>
      ystr "SERVICE " >> gwhen (py_truthy silent) (ystr "SILENT ")
      >> render var_or_iri >> render group_graph_pattern
  | _ => malformed
  end.

Definition Bind_render (fields : list pv) : gen :=
  match fields with
  | [expression; var] =>
      ystr "BIND(" >> render expression >> ystr " AS " >> render var >> ystr ")"
  | _ => malformed
  end.

Definition InlineData_render (fields : list pv) : gen :=
  match fields with
  | [data_block] => ystr (NL +:+ TAB +:+ "VALUES ") >> render data_block
  | _ => malformed
  end.

Definition DataBlock_render (fields : list pv) : gen :=
  match fields with
  | [block] => render block
  | _ => malformed
  end.

Definition InlineDataOneVar_render (fields : list pv) : gen :=
  match fields with
  | [variable; datablockvalues] =>
      render variable >> ystr "{ "
      >> for_in datablockvalues (fun value => render value >> ystr " ")
      >> ystr " }"
  | _ => malformed
  end.

(** [for x in m: x.render() ...] where [m] may be a [NIL] terminal: iterating a
    pydantic model yields [(name, value)] tuples, and a tuple has no
    [render]. *)
Definition for_in_or_model (xs : pv) (body : pv -> gen) : gen :=
  match xs with
  | PObj _ (_ :: _) => Err (AttributeError "'tuple' object has no attribute 'render'")
  | PObj _ [] => gskip
  | _ => for_in xs body
  end.

Definition InlineDataFull_render (fields : list pv) : gen :=
  match fields with
  | [vars; datablocks] =>
      (if py_truthy vars then
         ystr "("
         >> for_in_or_model vars (fun var => render var >> ystr " ")
         >> ystr ") {"
       else ystr "{")
      >> (match datablocks with
          | PNone => ystr "()"
          | _ =>
              for_in datablocks (fun data_block =>
                if py_truthy data_block then
                  ystr "("
                  >> for_in_or_model data_block (fun value => render value >> ystr " ")
                  >> ystr ")" >> ystr NL
                else ystr "()")
          end)
      >> ystr "}"
  | _ => malformed
  end.

(** [DataBlockValue.render] yields the [UndefEnum] member itself, not its
    value. *)
Definition DataBlockValue_render (fields : list pv) : gen :=
  match fields with
  | [value] =>
      if isinstance_enum value UndefEnum then yield value else render value
  | _ => malformed
  end.

Definition MinusGraphPattern_render := keyword_then "MINUS ".

Definition GroupOrUnionGraphPattern_render (fields : list pv) : gen :=
  match fields with
  | [group_graph_patterns] =>
      first_then_rest group_graph_patterns
        (fun first_ggp => ystr NL >> render first_ggp)
        (fun ggp => ystr (NL +:+ "UNION" +:+ NL) >> render ggp)
  | _ => malformed
  end.

Definition Filter_render := keyword_then "FILTER ".

Definition Constraint_render (fields : list pv) : gen :=
  match fields with
  | [content] => render content
  | _ => malformed
  end.

Definition FunctionCall_render (fields : list pv) : gen :=
  match fields with
  | [iri; arg_list] => render iri >> render arg_list
  | _ => malformed
  end.

Definition is_NIL (v : pv) : bool :=
  match v with PObj Cls.NIL _ => true | _ => false end.

Definition ArgList_render (fields : list pv) : gen :=
  match fields with
  | [expressions; distinct] =>
      if is_NIL expressions then render expressions
      else
        gwhen (py_truthy distinct) (ystr "DISTINCT ")
        >> ystr "("
        >> for_sep expressions render ", "
        >> ystr ")"
  | _ => malformed
  end.

Definition ExpressionList_render (fields : list pv) : gen :=
  match fields with
  | [expressions] =>
      if negb (py_truthy expressions) then ystr "()"
      else ystr "(" >> for_sep expressions render ", " >> ystr ")"
  | _ => malformed
  end.

Definition ConstructTemplate_render (fields : list pv) : gen :=
  match fields with
  | [construct_triples] =>
      gwhen (py_truthy construct_triples)
        (ystr ("{" +:+ NL) >> render construct_triples >> ystr (NL +:+ "}"))
  | _ => malformed
  end.

Definition ConstructTriples_render (fields : list pv) : gen :=
  match fields with
  | [triples; construct_triples] =>
      render triples
      >> gwhen (py_truthy construct_triples)
           (ystr (" ." +:+ NL) >> render construct_triples)
  | _ => malformed
  end.

(** [TriplesSameSubject.render] and [TriplesSameSubjectPath.render]:
    [content[0]], a space, [content[1]]. *)
Definition pair_render (fields : list pv) : gen :=
  match fields with
  | [content] => item0 content render >> ystr " " >> item1 content render
  | _ => malformed
  end.

Definition TriplesSameSubject_render := pair_render.

(** [PropertyList.render] and [PropertyListPath.render] *)
Definition optional_render (fields : list pv) : gen :=
  match fields with
  | [child] => gwhen (py_truthy child) (render child)
  | _ => malformed
  end.

Definition PropertyList_render := optional_render.

Definition PropertyListNotEmpty_render (fields : list pv) : gen :=
  match fields with
  | [verb_objectlist] =>
      first_then_rest verb_objectlist
        (fun first_vo =>
           item0 first_vo render >> ystr " " >> item1 first_vo render)
        (fun item =>
           ystr ";" >> item0 item render >> ystr " " >> item1 item render)
  | _ => malformed
  end.

Definition is_VarOrIri (v : pv) : bool :=
  match v with PObj Cls.VarOrIri _ => true | _ => false end.

Definition Verb_render (fields : list pv) : gen :=
  match fields with
  | [varoriri_or_a] =>
      if is_VarOrIri varoriri_or_a then render varoriri_or_a
      else yield_enum_value varoriri_or_a
  | _ => malformed
  end.

(** [first, then sep + item for the rest]: [ObjectList], [ObjectListPath],
    [PathAlternative] and [PathSequence]. *)
Definition separated (sep : string) (fields : list pv) : gen :=
  match fields with
  | [items] =>
      first_then_rest items render (fun item => ystr sep >> render item)
  | _ => malformed
  end.

Definition ObjectList_render := separated ",".

(** A node that renders as its only child. *)
Definition child_render (fields : list pv) : gen :=
  match fields with
  | [child] => render child
  | _ => malformed
  end.

Definition Object_render := child_render.
Definition TriplesSameSubjectPath_render := pair_render.
Definition PropertyListPath_render := optional_render.

Definition PropertyListPathNotEmpty_render (fields : list pv) : gen :=
  match fields with
  | [first_pair; other_pairs] =>
      item0 first_pair render >> ystr " " >> item1 first_pair render
      >> gwhen (py_truthy other_pairs)
           (for_in other_pairs (fun pair =>
              ystr ";" >> item0 pair render >> ystr " " >> item1 pair render))
  | _ => malformed
  end.

Definition VerbPath_render := child_render.
Definition VerbSimple_render := child_render.
Definition ObjectListPath_render := separated ",".
Definition ObjectPath_render := child_render.
Definition SG_Path_render := child_render.
Definition PathAlternative_render := separated "|".
Definition PathSequence_render := separated "/".

Definition PathElt_render (fields : list pv) : gen :=
  match fields with
  | [path_primary; path_mod] =>
      render path_primary >> gwhen (py_truthy path_mod) (render path_mod)
  | _ => malformed
  end.

Definition PathEltOrInverse_render (fields : list pv) : gen :=
  match fields with
  | [path_elt; inverse] =>
      gwhen (py_truthy inverse) (ystr "^") >> render path_elt
  | _ => malformed
  end.

Definition PathMod_render (fields : list pv) : gen :=
  match fields with
  | [pathmod] => yield pathmod
  | _ => malformed
  end.

Definition is_iri (v : pv) : bool :=
  match v with PObj Cls.iri _ => true | _ => false end.

Definition is_PathNegatedPropertySet (v : pv) : bool :=
  match v with PObj Cls.PathNegatedPropertySet _ => true | _ => false end.

Definition is_SG_Path (v : pv) : bool :=
  match v with PObj Cls.SG_Path _ => true | _ => false end.

(** For [VerbRDFType] the method yields the enum member itself
    ([yield self.value]). *)
Definition PathPrimary_render (fields : list pv) : gen :=
  match fields with
  | [value] =>
      if isinstance_enum value VerbRDFType then yield value
      else if is_iri value then render value
      else if is_PathNegatedPropertySet value then ystr "!" >> render value
      else if is_SG_Path value then ystr "(" >> render value >> ystr ")"
      else gskip
  | _ => malformed
  end.

Definition PathNegatedPropertySet_render (fields : list pv) : gen :=
  match fields with
  | [first_path; other_paths] =>
      render first_path
      >> gwhen (py_truthy other_paths)
           (first_then_rest other_paths
              (fun first_other_path => ystr "(" >> render first_other_path)
              (fun path => ystr "|" >> render path)
            >> ystr ")")
  | _ => malformed
  end.

Definition PathOneInPropertySet_render (fields : list pv) : gen :=
  match fields with
  | [path; negated] =>
      gwhen (py_truthy negated) (ystr "^")
      >> (if is_iri path then render path
          else if isinstance_enum path VerbRDFType then yield_enum_value path
          else gskip)
  | _ => malformed
  end.

Definition Integer_render := child_render.
Definition TriplesNode_render := child_render.

Definition BlankNodePropertyList_render (fields : list pv) : gen :=
  match fields with
  | [plne] => ystr "[" >> render plne >> ystr "]"
  | _ => malformed
  end.

Definition TriplesNodePath_render := child_render.
Definition BlankNodePropertyListPath_render := BlankNodePropertyList_render.

(** [SG_Collection.render] and [CollectionPath.render] *)
Definition collection_render (fields : list pv) : gen :=
  match fields with
  | [nodes] => ystr "(" >> for_in nodes render >> ystr ")"
  | _ => malformed
  end.

Definition SG_Collection_render := collection_render.
Definition CollectionPath_render := collection_render.
Definition GraphNode_render := child_render.
Definition GraphNodePath_render := child_render.
Definition VarOrTerm_render := child_render.
Definition VarOrIri_render := child_render.
Definition Var_render := child_render.
Definition GraphTerm_render := child_render.
Definition Expression_render := child_render.

Definition ConditionalOrExpression_render (fields : list pv) : gen :=
  match fields with
  | [conditional_and_expressions] =>
      for_sep conditional_and_expressions render " || "
  | _ => malformed
  end.

Definition ConditionalAndExpression_render (fields : list pv) : gen :=
  match fields with
  | [value_logicals] => for_sep value_logicals render " && "
  | _ => malformed
  end.

Definition ValueLogical_render := child_render.

Definition RelationalExpression_render (fields : list pv) : gen :=
  match fields with
  | [left_; operator; right_] =>
      render left_
      >> gwhen (py_truthy operator)
           ((o <- py_format operator ;; ystr (" " +:+ o +:+ " "))
            >> gwhen (py_truthy right_) (render right_))
  | _ => malformed
  end.

Definition NumericExpression_render := child_render.

Definition is_NumericLiteralPositive_or_Negative (v : pv) : bool :=
  match v with
  | PObj Cls.NumericLiteralPositive _ | PObj Cls.NumericLiteralNegative _ => true
  | _ => false
  end.

Definition AdditiveExpression_render (fields : list pv) : gen :=
  match fields with
  | [base_expression; additional_expressions] =>
      render base_expression
      >> for_in additional_expressions (fun pair =>
           unpack2 pair (fun operator expression =>
             if is_NumericLiteralPositive_or_Negative operator then render operator
             else
               (o <- py_format operator ;; ystr (" " +:+ o +:+ " "))
               >> item0 expression render
               >> item1 expression (fun more =>
                    gwhen (py_truthy more)
                      (for_in more (fun pair' =>
                         unpack2 pair' (fun unary_operator unary_expression =>
                           (u <- py_format unary_operator ;; ystr (" " +:+ u +:+ " "))
                           >> render unary_expression))))))
  | _ => malformed
  end.

Definition MultiplicativeExpression_render (fields : list pv) : gen :=
  match fields with
  | [base_expression; additional_expressions] =>
      render base_expression
      >> for_in additional_expressions (fun pair =>
           unpack2 pair (fun operator expression =>
             (match operator with
              | PEnum _ _ value => ystr (" " +:+ value +:+ " ")
              | _ => Err (AttributeError "object has no attribute 'value'")
              end)
             >> render expression))
  | _ => malformed
  end.

Definition UnaryExpression_render (fields : list pv) : gen :=
  match fields with
  | [operator; primary_expression] =>
      gwhen (py_truthy operator) (yield_enum_value operator >> ystr " ")
      >> render primary_expression
  | _ => malformed
  end.

Definition PrimaryExpression_render := child_render.

Definition BrackettedExpression_render (fields : list pv) : gen :=
  match fields with
  | [expression] => ystr "(" >> render expression >> ystr ")"
  | _ => malformed
  end.

Definition is_tuple_or_Expression (v : pv) : bool :=
  match v with
  | PTuple _ | PObj Cls.Expression _ => true
  | _ => false
  end.

(** [BuiltInCall.render] loops over [self.arguments] with [enumerate].  A tuple
    of expressions iterates over its items; a single model ([Expression],
    [ExpressionList], [Var], [NIL]) iterates as [(name, value)] tuples, for
    which the body yields the opening parenthesis and then fails on
    [arg.render()]. *)
Definition BuiltInCall_render (fields : list pv) : gen :=
  match fields with
  | [function; arguments] =>
      (if isinstance_enum function BuiltInCallOptions
       then yield_enum_value function
       else render function)
      >> gwhen (py_truthy arguments)
           match arguments with
           | PObj _ (_ :: _) =>
               ystr "(" >> Err (AttributeError "'tuple' object has no attribute 'render'")
           | PObj _ [] => gskip
           | PList items | PTuple items =>
               gfor_enum_from (fun i arg =>
                 gwhen (is_tuple_or_Expression arg) (ystr "(")
                 >> render arg
                 >> gwhen (i <? Z.of_nat (length items) - 1)%Z (ystr ", ")
                 >> gwhen (is_tuple_or_Expression arg) (ystr ")"))
                 items 0%Z
           | PStr _ => malformed
           | _ => not_iterable
           end
  | _ => malformed
  end.

(** [RegexExpression] and [SubstringExpression]: two expressions and an
    optional third. *)
Definition call2_opt (keyword : string) (fields : list pv) : gen :=
  match fields with
  | [a; b; c] =>
      ystr keyword >> render a >> ystr ", " >> render b
      >> gwhen (py_truthy c) (ystr ", " >> render c)
      >> ystr ")"
  | _ => malformed
  end.

Definition RegexExpression_render := call2_opt "REGEX(".
Definition SubstringExpression_render := call2_opt "SUBSTR(".

Definition StrReplaceExpression_render (fields : list pv) : gen :=
  match fields with
  | [arg; pattern; replacement; flags] =>
      ystr "REPLACE(" >> render arg >> ystr ", " >> render pattern
      >> ystr ", " >> render replacement
      >> gwhen (py_truthy flags) (ystr ", " >> render flags)
      >> ystr ")"
  | _ => malformed
  end.

Definition ExistsFunc_render := keyword_then "EXISTS".
Definition NotExistsFunc_render := keyword_then "NOT EXISTS".

Definition Aggregate_render (fields : list pv) : gen :=
  match fields with
  | [function_name; distinct; expression; separator] =>
      (f <- py_format function_name ;; ystr (f +:+ "("))
      >> gwhen (py_truthy distinct) (ystr "DISTINCT ")
      >> (if isinstance_enum expression Wildcard
          then yield_enum_value expression
          else render expression)
      >> gwhen (py_truthy separator)
           (s <- py_format separator ;; ystr (" ; SEPARATOR='" +:+ s +:+ "'"))
      >> ystr ")"
  | _ => malformed
  end.

Definition iriOrFunction_render (fields : list pv) : gen :=
  match fields with
  | [iri; arg_list] => render iri >> gwhen (py_truthy arg_list) (render arg_list)
  | _ => malformed
  end.

Definition RDFLiteral_render (fields : list pv) : gen :=
  match fields with
  | [value; langtag; datatype] =>
      render value
      >> (if py_truthy langtag then render langtag
          else gwhen (py_truthy datatype) (ystr "^^" >> render datatype))
  | _ => malformed
  end.

Definition NumericLiteral_render := child_render.
Definition NumericLiteralUnsigned_render := child_render.
Definition NumericLiteralPositive_render := child_render.
Definition NumericLiteralNegative_render := child_render.

(** [yield from self.value.value]: iterating the member's value, a [str],
    yields its characters one by one. *)
Definition BooleanLiteral_render (fields : list pv) : gen :=
  match fields with
  | [PEnum _ _ value] => Ok (py_chars value)
  | [_] => Err (AttributeError "object has no attribute 'value'")
  | _ => malformed
  end.

Definition String_render := child_render.
Definition iri_render := child_render.
Definition PrefixedName_render := child_render.

Definition BlankNode_render (fields : list pv) : gen :=
  match fields with
  | [value] => render value >> ystr " "
  | _ => malformed
  end.

End Renderers.

(** [v.render()], consumed: the method of [v]'s class, the inherited base
    method where the class defines none, and [AttributeError] for values that
    have no such method. *)
Fixpoint render (v : pv) : gen :=
  match v with
  | PObj cls fields =>
      match cls with
      (* terminals.py: classes that override [Terminal.render] *)
      | Cls.IRIREF => IRIREF_render fields
      | Cls.BlankNodeLabel => BlankNodeLabel_render fields
      | Cls.VAR1 => VAR1_render fields
      | Cls.VAR2 => VAR2_render fields
      | Cls.LANGTAG => LANGTAG_render fields
      | Cls.INTEGER_POSITIVE => INTEGER_POSITIVE_render fields
      | Cls.DECIMAL_POSITIVE => DECIMAL_POSITIVE_render fields
      | Cls.DOUBLE_POSITIVE => DOUBLE_POSITIVE_render fields
      | Cls.INTEGER_NEGATIVE => INTEGER_NEGATIVE_render fields
      | Cls.DECIMAL_NEGATIVE => DECIMAL_NEGATIVE_render fields
      | Cls.DOUBLE_NEGATIVE => DOUBLE_NEGATIVE_render fields
      | Cls.STRING_LITERAL1 => STRING_LITERAL1_render fields
      | Cls.STRING_LITERAL2 => STRING_LITERAL2_render fields
      | Cls.STRING_LITERAL_LONG1 => STRING_LITERAL_LONG1_render fields
      | Cls.STRING_LITERAL_LONG2 => STRING_LITERAL_LONG2_render fields
      | Cls.NIL => NIL_render fields
      | Cls.PN_LOCAL_ESC => PN_LOCAL_ESC_render fields
      (* terminals.py: classes that inherit [Terminal.render] *)
      | Cls.PNAME_NS | Cls.PNAME_LN | Cls.INTEGER | Cls.DECIMAL | Cls.DOUBLE
      | Cls.EXPONENT | Cls.ECHAR | Cls.WS | Cls.PN_CHARS_BASE | Cls.PN_CHARS_U
      | Cls.VARNAME | Cls.PN_CHARS | Cls.PN_PREFIX | Cls.PN_LOCAL | Cls.PLX
      | Cls.PERCENT | Cls.HEX => Terminal_render fields
      (* grammar.py *)
      | Cls.QueryUnit => QueryUnit_render render fields
      | Cls.Query => Query_render render fields
      | Cls.Prologue => Prologue_render render fields
      | Cls.BaseDecl => BaseDecl_render render fields
      | Cls.PrefixDecl => PrefixDecl_render render fields
      | Cls.SelectQuery => SelectQuery_render render fields
      | Cls.SubSelect => SubSelect_render render fields
      | Cls.SelectClause => SelectClause_render render fields
      | Cls.ConstructQuery => ConstructQuery_render render fields
      | Cls.DescribeQuery => DescribeQuery_render render fields
      | Cls.AskQuery => AskQuery_render render fields
      | Cls.DatasetClause => DatasetClause_render render fields
      | Cls.DefaultGraphClause => DefaultGraphClause_render render fields
      | Cls.NamedGraphClause => NamedGraphClause_render render fields
      | Cls.SourceSelector => SourceSelector_render render fields
      | Cls.WhereClause => WhereClause_render render fields
      | Cls.SolutionModifier => SolutionModifier_render render fields
      | Cls.GroupClause => GroupClause_render render fields
      | Cls.GroupCondition => GroupCondition_render render fields
      | Cls.HavingClause => HavingClause_render render fields
      | Cls.HavingCondition => HavingCondition_render render fields
      | Cls.OrderClause => OrderClause_render render fields
      | Cls.OrderCondition => OrderCondition_render render fields
      | Cls.LimitOffsetClauses => LimitOffsetClauses_render render fields
      | Cls.LimitClause => LimitClause_render fields
      | Cls.OffsetClause => OffsetClause_render fields
      | Cls.ValuesClause => ValuesClause_render render fields
      | Cls.Update => Update_render render fields
      | Cls.Update1 => Update1_render render fields
      | Cls.Load => Load_render render fields
      | Cls.Clear => Clear_render render fields
      | Cls.Drop => Drop_render render fields
      | Cls.Create => Create_render render fields
      | Cls.Add => Add_render render fields
      | Cls.Move => Move_render render fields
      | Cls.Copy => Copy_render render fields
      | Cls.InsertData => InsertData_render render fields
      | Cls.DeleteData => DeleteData_render render fields
      | Cls.DeleteWhere => DeleteWhere_render render fields
      | Cls.Modify => Modify_render render fields
      | Cls.DeleteClause => DeleteClause_render render fields
      | Cls.InsertClause => InsertClause_render render fields
      | Cls.UsingClause => UsingClause_render render fields
      | Cls.GraphOrDefault => GraphOrDefault_render render fields
      | Cls.GraphRef => GraphRef_render render fields
      | Cls.GraphRefAll => GraphRefAll_render render fields
      | Cls.QuadPattern => QuadPattern_render render fields
      | Cls.QuadData => QuadData_render render fields
      | Cls.Quads => Quads_render render fields
      | Cls.QuadsNotTriples => QuadsNotTriples_render render fields
      | Cls.TriplesTemplate => TriplesTemplate_render fields
      | Cls.GroupGraphPattern => GroupGraphPattern_render render fields
      | Cls.GroupGraphPatternSub => GroupGraphPatternSub_render render fields
      | Cls.TriplesBlock => TriplesBlock_render render fields
      | Cls.GraphPatternNotTriples => GraphPatternNotTriples_render fields
      | Cls.OptionalGraphPattern => OptionalGraphPattern_render render fields
      | Cls.GraphGraphPattern => GraphGraphPattern_render render fields
      | Cls.ServiceGraphPattern => ServiceGraphPattern_render render fields
      | Cls.Bind => Bind_render render fields
      | Cls.InlineData => InlineData_render render fields
      | Cls.DataBlock => DataBlock_render render fields
      | Cls.InlineDataOneVar => InlineDataOneVar_render render fields
      | Cls.InlineDataFull => InlineDataFull_render render fields
      | Cls.DataBlockValue => DataBlockValue_render render fields
      | Cls.MinusGraphPattern => MinusGraphPattern_render render fields
      | Cls.GroupOrUnionGraphPattern => GroupOrUnionGraphPattern_render render fields
      | Cls.Filter => Filter_render render fields
      | Cls.Constraint => Constraint_render render fields
      | Cls.FunctionCall => FunctionCall_render render fields
      | Cls.ArgList => ArgList_render render fields
      | Cls.ExpressionList => ExpressionList_render render fields
      | Cls.ConstructTemplate => ConstructTemplate_render render fields
      | Cls.ConstructTriples => ConstructTriples_render render fields
      | Cls.TriplesSameSubject => TriplesSameSubject_render render fields
      | Cls.PropertyList => PropertyList_render render fields
      | Cls.PropertyListNotEmpty => PropertyListNotEmpty_render render fields
      | Cls.Verb => Verb_render render fields
      | Cls.ObjectList => ObjectList_render render fields
      | Cls.Object => Object_render render fields
      | Cls.TriplesSameSubjectPath => TriplesSameSubjectPath_render render fields
      | Cls.PropertyListPath => PropertyListPath_render render fields
      | Cls.PropertyListPathNotEmpty => PropertyListPathNotEmpty_render render fields
      | Cls.VerbPath => VerbPath_render render fields
      | Cls.VerbSimple => VerbSimple_render render fields
      | Cls.ObjectListPath => ObjectListPath_render render fields
      | Cls.ObjectPath => ObjectPath_render render fields
      | Cls.SG_Path => SG_Path_render render fields
      | Cls.PathAlternative => PathAlternative_render render fields
      | Cls.PathSequence => PathSequence_render render fields
      | Cls.PathElt => PathElt_render render fields
      | Cls.PathEltOrInverse => PathEltOrInverse_render render fields
      | Cls.PathMod => PathMod_render fields
      | Cls.PathPrimary => PathPrimary_render render fields
      | Cls.PathNegatedPropertySet => PathNegatedPropertySet_render render fields
      | Cls.PathOneInPropertySet => PathOneInPropertySet_render render fields
      | Cls.Integer => Integer_render render fields
      | Cls.TriplesNode => TriplesNode_render render fields
      | Cls.BlankNodePropertyList => BlankNodePropertyList_render render fields
      | Cls.TriplesNodePath => TriplesNodePath_render render fields
      | Cls.BlankNodePropertyListPath => BlankNodePropertyListPath_render render fields
      | Cls.SG_Collection => SG_Collection_render render fields
      | Cls.CollectionPath => CollectionPath_render render fields
      | Cls.GraphNode => GraphNode_render render fields
      | Cls.GraphNodePath => GraphNodePath_render render fields
      | Cls.VarOrTerm => VarOrTerm_render render fields
      | Cls.VarOrIri => VarOrIri_render render fields
      | Cls.Var => Var_render render fields
      | Cls.GraphTerm => GraphTerm_render render fields
      | Cls.Expression => Expression_render render fields
      | Cls.ConditionalOrExpression => ConditionalOrExpression_render render fields
      | Cls.ConditionalAndExpression => ConditionalAndExpression_render render fields
      | Cls.ValueLogical => ValueLogical_render render fields
      | Cls.RelationalExpression => RelationalExpression_render render fields
      | Cls.NumericExpression => NumericExpression_render render fields
      | Cls.AdditiveExpression => AdditiveExpression_render render fields
      | Cls.MultiplicativeExpression => MultiplicativeExpression_render render fields
      | Cls.UnaryExpression => UnaryExpression_render render fields
      | Cls.PrimaryExpression => PrimaryExpression_render render fields
      | Cls.BrackettedExpression => BrackettedExpression_render render fields
      | Cls.BuiltInCall => BuiltInCall_render render fields
      | Cls.RegexExpression => RegexExpression_render render fields
      | Cls.SubstringExpression => SubstringExpression_render render fields
      | Cls.StrReplaceExpression => StrReplaceExpression_render render fields
      | Cls.ExistsFunc => ExistsFunc_render render fields
      | Cls.NotExistsFunc => NotExistsFunc_render render fields
      | Cls.Aggregate => Aggregate_render render fields
      | Cls.iriOrFunction => iriOrFunction_render render fields
      | Cls.RDFLiteral => RDFLiteral_render render fields
      | Cls.NumericLiteral => NumericLiteral_render render fields
      | Cls.NumericLiteralUnsigned => NumericLiteralUnsigned_render render fields
      | Cls.NumericLiteralPositive => NumericLiteralPositive_render render fields
      | Cls.NumericLiteralNegative => NumericLiteralNegative_render render fields
      | Cls.BooleanLiteral => BooleanLiteral_render fields
      | Cls.String => String_render render fields
      | Cls.iri => iri_render render fields
      | Cls.PrefixedName => PrefixedName_render render fields
      | Cls.BlankNode => BlankNode_render render fields
      end
  | PAnon _ => Anon_render
  | PNone | PBool _ | PInt _ | PStr _ | PEnum _ _ _ | PList _ | PTuple _ =>
      Err (AttributeError "object has no attribute 'render'")
  end.

(** [''.join(g)] for a generator [g], and [''.join(v.render())]: the
    rendered text of a node.  It is the body of
    [SPARQLGrammarBase.__str__], which [to_string] returns. *)
Definition gen_text (g : gen) : result string :=
  parts <- g ;; py_join "" parts.

Definition rendered (v : pv) : result string := gen_text (render v).

(** ** Declared fields

    The annotations of the models, as pydantic reads them when it validates
    the arguments of a constructor call. *)

Inductive ty : Type :=
| TStr
| TInt
| TBool
| TAnon
| TEnum (e : EnumCls)
| TCls (c : Cls.t)
| TList (t : ty)
| TTuple (ts : list ty)
| TUnion (ts : list ty)
| TOpt (t : ty)
| TTypeError.   (* an annotation whose evaluation raises [TypeError] *)

Record field : Type := Field {
  fname : string;
  ftype : ty;
  fdefault : option pv   (* [None]: the field is required *)
}.

Definition req (name : string) (t : ty) : field := Field name t None.
Definition dft (name : string) (t : ty) (d : pv) : field := Field name t (Some d).
Definition optional (name : string) (t : ty) : field := Field name (TOpt t) (Some PNone).

Definition TExpr : ty := TCls Cls.Expression.

Definition model_fields (c : Cls.t) : list field :=
  match c with
  (* terminals.py: [Terminal] declares [value: str] *)
  | Cls.IRIREF | Cls.PNAME_NS | Cls.PNAME_LN | Cls.BlankNodeLabel | Cls.VAR1
  | Cls.VAR2 | Cls.LANGTAG | Cls.INTEGER | Cls.DECIMAL | Cls.DOUBLE
  | Cls.INTEGER_POSITIVE | Cls.DECIMAL_POSITIVE | Cls.DOUBLE_POSITIVE
  | Cls.INTEGER_NEGATIVE | Cls.DECIMAL_NEGATIVE | Cls.DOUBLE_NEGATIVE
  | Cls.EXPONENT | Cls.STRING_LITERAL1 | Cls.STRING_LITERAL2
  | Cls.STRING_LITERAL_LONG1 | Cls.STRING_LITERAL_LONG2 | Cls.ECHAR | Cls.NIL
  | Cls.WS | Cls.PN_CHARS_BASE | Cls.PN_CHARS_U | Cls.VARNAME | Cls.PN_CHARS
  | Cls.PN_PREFIX | Cls.PN_LOCAL | Cls.PLX | Cls.PERCENT | Cls.HEX
  | Cls.PN_LOCAL_ESC => [req "value" TStr]
  (* grammar.py *)
  | Cls.QueryUnit => [req "query" (TCls Cls.Query)]
  | Cls.Query =>
      [req "prologue" (TCls Cls.Prologue);
       req "query" (TUnion [TCls Cls.SelectQuery; TCls Cls.ConstructQuery;
                            TCls Cls.DescribeQuery; TCls Cls.AskQuery]);
       req "values_clause" (TCls Cls.ValuesClause)]
  | Cls.Prologue =>
      [optional "decls" (TList (TUnion [TCls Cls.BaseDecl; TCls Cls.PrefixDecl]))]
  | Cls.BaseDecl => [req "iriref" (TCls Cls.IRIREF)]
  | Cls.PrefixDecl =>
      [req "pname_ns" (TCls Cls.PNAME_NS); req "iriref" (TCls Cls.IRIREF)]
  | Cls.SelectQuery =>
      [req "select_clause" (TCls Cls.SelectClause);
       optional "dataset_clauses" (TList (TCls Cls.DatasetClause));
       req "where_clause" (TCls Cls.WhereClause);
       req "solution_modifier" (TCls Cls.SolutionModifier)]
  | Cls.SubSelect =>
      [req "select_clause" (TCls Cls.SelectClause);
       req "where_clause" (TCls Cls.WhereClause);
       req "solution_modifier" (TCls Cls.SolutionModifier);
       req "values_clause" (TCls Cls.ValuesClause)]
  | Cls.SelectClause =>
      [optional "distinct_or_reduced" (TEnum DistinctReduced);
       req "variables_or_wildcard"
         (TUnion [TList (TUnion [TCls Cls.Var;
                                 TTuple [TUnion [TExpr; TCls Cls.Var]]]);
                  TEnum Wildcard])]
  | Cls.ConstructQuery =>
      [req "construct_template" (TCls Cls.ConstructTemplate);
       req "where_clause" (TCls Cls.WhereClause);
       req "solution_modifier" (TCls Cls.SolutionModifier)]
  | Cls.DescribeQuery =>
      [req "varoriri_or_all" (TUnion [TCls Cls.VarOrIri; TEnum Wildcard]);
       optional "dataset_clauses" (TList (TCls Cls.DatasetClause));
       optional "where_clause" (TCls Cls.WhereClause);
       req "solution_modifier" (TCls Cls.SolutionModifier)]
  | Cls.AskQuery =>
      [optional "dataset_clauses" (TList (TCls Cls.DatasetClause));
       req "where_clause" (TCls Cls.WhereClause);
       req "solution_modifier" (TCls Cls.SolutionModifier)]
  | Cls.DatasetClause =>
      [req "default_or_named_graph_clause"
         (TUnion [TCls Cls.DefaultGraphClause; TCls Cls.NamedGraphClause])]
  | Cls.DefaultGraphClause => [req "source_selector" (TCls Cls.SourceSelector)]
  | Cls.NamedGraphClause => [req "source_selector" (TCls Cls.SourceSelector)]
  | Cls.SourceSelector => [req "iri" (TCls Cls.iri)]
  | Cls.WhereClause => [req "group_graph_pattern" (TCls Cls.GroupGraphPattern)]
  | Cls.SolutionModifier =>
      [optional "group_by" (TCls Cls.GroupClause);
       req "having" (TOpt (TCls Cls.HavingClause));
       optional "order_by" (TCls Cls.OrderClause);
       optional "limit_offset" (TCls Cls.LimitOffsetClauses)]
  | Cls.GroupClause => [req "group_conditions" (TList (TCls Cls.GroupCondition))]
  | Cls.GroupCondition =>
      [req "condition"
         (TUnion [TCls Cls.BuiltInCall; TCls Cls.FunctionCall;
                  TTuple [TExpr; TCls Cls.Var]; TCls Cls.Var])]
  | Cls.HavingClause => [req "having_conditions" (TList (TCls Cls.HavingCondition))]
  | Cls.HavingCondition => [req "constraint" (TCls Cls.Constraint)]
  | Cls.OrderClause => [req "conditions" (TList (TCls Cls.OrderCondition))]
  | Cls.OrderCondition => [req "var" (TCls Cls.Var); optional "direction" TStr]
  | Cls.LimitOffsetClauses =>
      [optional "limit_clause" (TCls Cls.LimitClause);
       optional "offset_clause" (TCls Cls.OffsetClause)]
  | Cls.LimitClause => [req "limit" TInt]
  | Cls.OffsetClause => [req "offset" TInt]
  | Cls.ValuesClause => [req "data_block" (TOpt (TCls Cls.DataBlock))]
  | Cls.Update =>
      [optional "prologue" (TCls Cls.Prologue);
       optional "update1" (TCls Cls.Update1);
       optional "update" (TCls Cls.Update)]
  | Cls.Update1 =>
      [req "update1"
         (TUnion [TCls Cls.Load; TCls Cls.Clear; TCls Cls.Drop; TCls Cls.Add;
                  TCls Cls.Move; TCls Cls.Copy; TCls Cls.Create;
                  TCls Cls.InsertData; TCls Cls.DeleteData;
                  TCls Cls.DeleteWhere; TCls Cls.Modify])]
  | Cls.Load =>
      [dft "silent" TBool (PBool false); req "iri" (TCls Cls.iri);
       optional "graph_ref" (TCls Cls.GraphRef)]
  | Cls.Clear | Cls.Drop =>
      [dft "silent" TBool (PBool false); req "graph_ref_all" (TCls Cls.GraphRefAll)]
  | Cls.Create =>
      [dft "silent" TBool (PBool false); req "graph_ref" (TCls Cls.GraphRef)]
  | Cls.Add | Cls.Move | Cls.Copy =>
      [dft "silent" TBool (PBool false);
       req "from_graph" (TCls Cls.GraphOrDefault);
       req "to_graph" (TCls Cls.GraphOrDefault)]
  | Cls.InsertData | Cls.DeleteData => [req "quad_data" (TCls Cls.QuadData)]
  | Cls.DeleteWhere => [req "quad_pattern" (TCls Cls.QuadPattern)]
  | Cls.Modify =>
      [optional "with_iri" (TCls Cls.iri);
       req "delete_insert_or_insert"
         (TUnion [TCls Cls.DeleteClause;
                  TTuple [TCls Cls.DeleteClause; TCls Cls.InsertClause];
                  TCls Cls.InsertClause]);
       optional "using_clauses" (TList (TCls Cls.UsingClause));
       req "group_graph_pattern" (TCls Cls.GroupGraphPattern)]
  | Cls.DeleteClause | Cls.InsertClause => [req "quad_pattern" (TCls Cls.QuadPattern)]
  | Cls.UsingClause => [req "iri" (TCls Cls.iri); dft "named" TBool (PBool false)]
  | Cls.GraphOrDefault =>
      (* [iri: Optional[iri] = None]: in the class namespace the name [iri] is
         the default of the field, so the annotation is [Optional[None]] *)
      [optional "graph_or_default" (TEnum GraphOrDefaultOptions);
       optional "iri" (TUnion [])]
  | Cls.GraphRef => [req "iri" (TCls Cls.iri)]
  | Cls.GraphRefAll =>
      [req "option" (TUnion [TCls Cls.GraphRef; TEnum GraphRefOptions])]
  | Cls.QuadPattern | Cls.QuadData => [req "quads" (TCls Cls.Quads)]
  | Cls.Quads =>
      [req "triples_templates" (TList (TCls Cls.TriplesTemplate));
       optional "quads_not_triples" (TList (TCls Cls.QuadsNotTriples))]
  | Cls.QuadsNotTriples =>
      [req "var_or_iri" (TCls Cls.VarOrIri);
       optional "triples_template" (TCls Cls.TriplesTemplate)]
  | Cls.TriplesTemplate =>
      [req "triples_same_subject" (TCls Cls.TriplesSameSubject);
       optional "triples_template" (TCls Cls.TriplesTemplate)]
  | Cls.GroupGraphPattern =>
      [req "content" (TUnion [TCls Cls.SubSelect; TCls Cls.GroupGraphPatternSub])]
  | Cls.GroupGraphPatternSub =>
      [req "triples_blocks" (TList (TCls Cls.TriplesBlock));
       optional "graph_patterns_not_triples" (TList (TCls Cls.GraphPatternNotTriples))]
  | Cls.TriplesBlock =>
      (* [triples: TriplesSameSubjectPath = None]: the default is not of the
         declared type, and pydantic does not validate defaults *)
      [dft "triples" (TCls Cls.TriplesSameSubjectPath) PNone;
       optional "triples_block" (TCls Cls.TriplesBlock)]
  | Cls.GraphPatternNotTriples =>
      [req "content"
         (TUnion [TCls Cls.GroupOrUnionGraphPattern; TCls Cls.OptionalGraphPattern;
                  TCls Cls.Filter; TCls Cls.Bind; TCls Cls.InlineData])]
  | Cls.OptionalGraphPattern | Cls.MinusGraphPattern
  | Cls.ExistsFunc | Cls.NotExistsFunc =>
      [req "group_graph_pattern" (TCls Cls.GroupGraphPattern)]
  | Cls.GraphGraphPattern =>
      [req "var_or_iri" (TCls Cls.VarOrIri);
       req "group_graph_pattern" (TCls Cls.GroupGraphPattern)]
  | Cls.ServiceGraphPattern =>
      [dft "silent" TBool (PBool false);
       req "var_or_iri" (TCls Cls.VarOrIri);
       req "group_graph_pattern" (TCls Cls.GroupGraphPattern)]
  | Cls.Bind => [req "expression" TExpr; req "var" (TCls Cls.Var)]
  | Cls.InlineData => [req "data_block" (TCls Cls.DataBlock)]
  | Cls.DataBlock =>
      [req "block" (TUnion [TCls Cls.InlineDataOneVar; TCls Cls.InlineDataFull])]
  | Cls.InlineDataOneVar =>
      [req "variable" (TCls Cls.Var);
       req "datablockvalues" (TList (TCls Cls.DataBlockValue))]
  | Cls.InlineDataFull =>
      [req "vars" (TUnion [TCls Cls.NIL; TList (TCls Cls.Var)]);
       req "datablocks"
         (TList (TUnion [TList (TCls Cls.DataBlockValue); TCls Cls.NIL]))]
  | Cls.DataBlockValue =>
      [req "value"
         (TUnion [TCls Cls.iri; TCls Cls.RDFLiteral; TCls Cls.NumericLiteral;
                  TCls Cls.BooleanLiteral; TEnum UndefEnum])]
  | Cls.GroupOrUnionGraphPattern =>
      [req "group_graph_patterns" (TList (TCls Cls.GroupGraphPattern))]
  | Cls.Filter => [req "constraint" (TCls Cls.Constraint)]
  | Cls.Constraint =>
      [req "content"
         (TUnion [TCls Cls.BrackettedExpression; TCls Cls.BuiltInCall;
                  TCls Cls.FunctionCall])]
  | Cls.FunctionCall => [req "iri" (TCls Cls.iri); req "arg_list" (TCls Cls.ArgList)]
  | Cls.ArgList =>
      [req "expressions" (TOpt (TUnion [TCls Cls.NIL; TList TExpr]));
       dft "distinct" TBool (PBool false)]
  | Cls.ExpressionList => [dft "expressions" (TOpt (TList TExpr)) (PList [])]
  | Cls.ConstructTemplate => [optional "construct_triples" (TCls Cls.ConstructTriples)]
  | Cls.ConstructTriples =>
      [req "triples" (TCls Cls.TriplesSameSubject);
       optional "construct_triples" (TCls Cls.ConstructTriples)]
  | Cls.TriplesSameSubject =>
      [req "content"
         (TUnion [TTuple [TCls Cls.VarOrTerm; TCls Cls.PropertyListNotEmpty];
                  TTuple [TCls Cls.TriplesNode; TCls Cls.PropertyList]])]
  | Cls.PropertyList => [optional "plne" (TCls Cls.PropertyListNotEmpty)]
  | Cls.PropertyListNotEmpty =>
      [req "verb_objectlist" (TList (TTuple [TCls Cls.Verb; TCls Cls.ObjectList]))]
  | Cls.Verb => [req "varoriri_or_a" (TUnion [TCls Cls.VarOrIri; TEnum VerbRDFType])]
  | Cls.ObjectList => [req "list_object" (TList (TCls Cls.Object))]
  | Cls.Object => [req "graphnode" (TCls Cls.GraphNode)]
  | Cls.TriplesSameSubjectPath =>
      [req "content"
         (TUnion [TTuple [TCls Cls.VarOrTerm; TCls Cls.PropertyListPathNotEmpty];
                  TTuple [TCls Cls.TriplesNodePath; TCls Cls.PropertyListPath]])]
  | Cls.PropertyListPath => [optional "plpne" (TCls Cls.PropertyListPathNotEmpty)]
  | Cls.PropertyListPathNotEmpty =>
      [req "first_pair"
         (TTuple [TUnion [TCls Cls.VerbPath; TCls Cls.VerbSimple];
                  TCls Cls.ObjectListPath]);
       optional "other_pairs"
         (TList (TTuple [TUnion [TCls Cls.VerbPath; TCls Cls.VerbSimple];
                         TCls Cls.ObjectList]))]
  | Cls.VerbPath => [req "path" (TCls Cls.SG_Path)]
  | Cls.VerbSimple => [req "var" (TCls Cls.Var)]
  | Cls.ObjectListPath => [req "object_paths" (TList (TCls Cls.ObjectPath))]
  | Cls.ObjectPath => [req "graph_node_path" (TCls Cls.GraphNodePath)]
  | Cls.SG_Path => [req "path_alternative" (TCls Cls.PathAlternative)]
  | Cls.PathAlternative => [req "sequence_paths" (TList (TCls Cls.PathSequence))]
  | Cls.PathSequence =>
      [req "list_path_elt_or_inverse" (TList (TCls Cls.PathEltOrInverse))]
  | Cls.PathElt =>
      [req "path_primary" (TCls Cls.PathPrimary); optional "path_mod" (TCls Cls.PathMod)]
  | Cls.PathEltOrInverse =>
      [req "path_elt" (TCls Cls.PathElt); dft "inverse" TBool (PBool false)]
  | Cls.PathMod => [req "pathmod" TStr]
  | Cls.PathPrimary =>
      [req "value"
         (TUnion [TCls Cls.iri; TEnum VerbRDFType;
                  TCls Cls.PathNegatedPropertySet; TCls Cls.SG_Path])]
  | Cls.PathNegatedPropertySet =>
      [req "first_path" (TCls Cls.PathOneInPropertySet);
       req "other_paths" (TOpt (TList (TCls Cls.PathOneInPropertySet)))]
  | Cls.PathOneInPropertySet =>
      [req "path" (TUnion [TCls Cls.iri; TEnum VerbRDFType]);
       dft "negated" TBool (PBool false)]
  | Cls.Integer => [req "integer" (TCls Cls.INTEGER)]
  | Cls.TriplesNode =>
      [req "coll_or_bnpl"
         (TUnion [TCls Cls.SG_Collection; TCls Cls.BlankNodePropertyList])]
  | Cls.BlankNodePropertyList => [req "plne" (TCls Cls.PropertyListNotEmpty)]
  | Cls.TriplesNodePath =>
      [req "coll_path_or_bnpl_path"
         (TUnion [TCls Cls.CollectionPath; TCls Cls.BlankNodePropertyListPath])]
  | Cls.BlankNodePropertyListPath => [req "plpne" (TCls Cls.PropertyListPathNotEmpty)]
  | Cls.SG_Collection => [req "graphnode_list" (TList (TCls Cls.GraphNode))]
  | Cls.CollectionPath => [req "graphnodepath_list" (TList (TCls Cls.GraphNodePath))]
  | Cls.GraphNode =>
      [req "varorterm_or_triplesnode" (TUnion [TCls Cls.VarOrTerm; TCls Cls.TriplesNode])]
  | Cls.GraphNodePath =>
      [req "varorterm_or_triplesnodepath"
         (TUnion [TCls Cls.VarOrTerm; TCls Cls.TriplesNodePath])]
  | Cls.VarOrTerm => [req "varorterm" (TUnion [TCls Cls.Var; TCls Cls.GraphTerm])]
  | Cls.VarOrIri => [req "varoriri" (TUnion [TCls Cls.Var; TCls Cls.iri])]
  | Cls.Var => [req "value" (TUnion [TCls Cls.VAR1; TCls Cls.VAR2])]
  | Cls.GraphTerm =>
      [req "content"
         (TUnion [TCls Cls.iri; TCls Cls.RDFLiteral; TCls Cls.NumericLiteral;
                  TCls Cls.BooleanLiteral; TCls Cls.BlankNode; TCls Cls.NIL])]
  | Cls.Expression =>
      [req "conditional_or_expression" (TCls Cls.ConditionalOrExpression)]
  | Cls.ConditionalOrExpression =>
      [req "conditional_and_expressions" (TList (TCls Cls.ConditionalAndExpression))]
  | Cls.ConditionalAndExpression =>
      [req "value_logicals" (TList (TCls Cls.ValueLogical))]
  | Cls.ValueLogical => [req "relational_expression" (TCls Cls.RelationalExpression)]
  | Cls.RelationalExpression =>
      [req "left" (TCls Cls.NumericExpression);
       optional "operator" TStr;
       optional "right" (TUnion [TCls Cls.NumericExpression; TCls Cls.ExpressionList])]
  | Cls.NumericExpression => [req "additive_expression" (TCls Cls.AdditiveExpression)]
  | Cls.AdditiveExpression =>
      (* the annotation subscripts [List] with two parameters: evaluating it
         raises [TypeError] (too many arguments for [typing.List]) *)
      [req "base_expression" (TCls Cls.MultiplicativeExpression);
       dft "additional_expressions" (TOpt TTypeError) (PList [])]
  | Cls.MultiplicativeExpression =>
      [req "base_expression" (TCls Cls.UnaryExpression);
       dft "additional_expressions"
         (TOpt (TList (TTuple [TEnum MultiplacativeOperator; TCls Cls.UnaryExpression])))
         (PList [])]
  | Cls.UnaryExpression =>
      [optional "operator" (TEnum UnaryOperator);
       req "primary_expression" (TCls Cls.PrimaryExpression)]
  | Cls.PrimaryExpression =>
      [req "content"
         (TUnion [TCls Cls.BrackettedExpression; TCls Cls.BuiltInCall;
                  TCls Cls.iriOrFunction; TCls Cls.RDFLiteral;
                  TCls Cls.NumericLiteral; TCls Cls.BooleanLiteral; TCls Cls.Var])]
  | Cls.BrackettedExpression => [req "expression" TExpr]
  | Cls.BuiltInCall =>
      [req "function"
         (TUnion [TEnum BuiltInCallOptions; TCls Cls.Aggregate;
                  TCls Cls.SubstringExpression; TCls Cls.StrReplaceExpression;
                  TCls Cls.RegexExpression; TCls Cls.ExistsFunc;
                  TCls Cls.NotExistsFunc; TCls Cls.NotExistsFunc]);
       optional "arguments"
         (TUnion [TExpr; TTuple [TExpr; TExpr]; TTuple [TExpr; TExpr; TExpr];
                  TCls Cls.ExpressionList; TCls Cls.Var; TCls Cls.NIL])]
  | Cls.RegexExpression =>
      [req "text_expression" TExpr; req "pattern_expression" TExpr;
       optional "flags_expression" TExpr]
  | Cls.SubstringExpression =>
      [req "source" TExpr; req "starting_loc" TExpr; optional "length" TExpr]
  | Cls.StrReplaceExpression =>
      [req "arg" TExpr; req "pattern" TExpr; req "replacement" TExpr;
       optional "flags" TExpr]
  | Cls.Aggregate =>
      [req "function_name" (TEnum AggregateOptions);
       optional "distinct" TBool;
       req "expression" (TUnion [TExpr; TEnum Wildcard]);
       optional "separator" TStr]
  | Cls.iriOrFunction => [req "iri" (TCls Cls.iri); optional "arg_list" (TCls Cls.ArgList)]
  | Cls.RDFLiteral =>
      [req "value" (TCls Cls.String);
       optional "langtag" (TCls Cls.LANGTAG);
       optional "datatype" (TCls Cls.iri)]
  | Cls.NumericLiteral =>
      [req "value"
         (TUnion [TCls Cls.NumericLiteralUnsigned; TCls Cls.NumericLiteralPositive;
                  TCls Cls.NumericLiteralNegative])]
  | Cls.NumericLiteralUnsigned =>
      [req "value" (TUnion [TCls Cls.INTEGER; TCls Cls.DECIMAL; TCls Cls.DOUBLE])]
  | Cls.NumericLiteralPositive =>
      [req "value"
         (TUnion [TCls Cls.INTEGER_POSITIVE; TCls Cls.DECIMAL_POSITIVE;
                  TCls Cls.DOUBLE_POSITIVE])]
  | Cls.NumericLiteralNegative =>
      [req "value"
         (TUnion [TCls Cls.INTEGER_NEGATIVE; TCls Cls.DECIMAL_NEGATIVE;
                  TCls Cls.DOUBLE_NEGATIVE])]
  | Cls.BooleanLiteral => [req "value" (TEnum BoolOptions)]
  | Cls.String =>
      [req "value"
         (TUnion [TCls Cls.STRING_LITERAL1; TCls Cls.STRING_LITERAL2;
                  TCls Cls.STRING_LITERAL_LONG1; TCls Cls.STRING_LITERAL_LONG2])]
  | Cls.iri => [req "value" (TUnion [TCls Cls.IRIREF; TCls Cls.PrefixedName])]
  | Cls.PrefixedName => [req "value" (TUnion [TCls Cls.PNAME_LN; TCls Cls.PNAME_NS])]
  | Cls.BlankNode => [req "value" (TUnion [TCls Cls.BlankNodeLabel; TAnon])]
  end.

(** The members of each [Enum], as [(name, value)]. *)
Definition enum_members (e : EnumCls) : list (string * string) :=
  match e with
  | Wildcard => [("WILDCARD", "*")]
  | DistinctReduced => [("DISTINCT", "DISTINCT"); ("REDUCED", "REDUCED")]
  | GraphOrDefaultOptions => [("DEFAULT", "DEFAULT"); ("GRAPH", "GRAPH")]
  | GraphRefOptions => [("DEFAULT", "DEFAULT"); ("NAMED", "NAMED"); ("ALL", "ALL")]
  | UndefEnum => [("UNDEF", "UNDEF")]
  | VerbRDFType => [("A", "a")]
  | MultiplyDivideOperators => [("MULTIPLY", "*"); ("DIVIDE", "/")]
  | MultiplacativeOperator => [("MULTIPLY", "*"); ("DIVIDE", "/")]
  | UnaryOperator => [("NOT", "!"); ("PLUS", "+"); ("MINUS", "-")]
  | BuiltInCallOptions =>
      [("STR", "STR"); ("LANG", "LANG"); ("LANGMATCHES", "LANGMATCHES");
       ("DATATYPE", "DATATYPE"); ("BOUND", "BOUND"); ("IRI", "IRI");
       ("URI", "URI"); ("BNODE", "BNODE"); ("RAND", "RAND"); ("ABS", "ABS");
       ("CEIL", "CEIL"); ("FLOOR", "FLOOR"); ("ROUND", "ROUND");
       ("CONCAT", "CONCAT"); ("STRLEN", "STRLEN"); ("UCASE", "UCASE");
       ("LCASE", "LCASE"); ("ENCODE_FOR_URI", "ENCODE_FOR_URI");
       ("CONTAINS", "CONTAINS"); ("STRSTARTS", "STRSTARTS");
       ("STRENDS", "STRENDS"); ("STRBEFORE", "STRBEFORE");
       ("STRAFTER", "STRAFTER"); ("YEAR", "YEAR"); ("MONTH", "MONTH");
       ("DAY", "DAY"); ("HOURS", "HOURS"); ("MINUTES", "MINUTES");
       ("SECONDS", "SECONDS"); ("TIMEZONE", "TIMEZONE"); ("TZ", "TZ");
       ("NOW", "NOW"); ("UUID", "UUID"); ("STRUUID", "STRUUID"); ("MD5", "MD5");
       ("SHA1", "SHA1"); ("SHA256", "SHA256"); ("SHA384", "SHA384");
       ("SHA512", "SHA512"); ("COALESCE", "COALESCE"); ("IF", "IF");
       ("STRLANG", "STRLANG"); ("STRDT", "STRDT"); ("SAMETERM", "sameTerm");
       ("ISIRI", "isIRI"); ("ISURI", "isURI"); ("ISBLANK", "isBLANK");
       ("ISLITERAL", "isLITERAL"); ("ISNUMERIC", "isNUMERIC")]
  | AggregateOptions =>
      [("COUNT", "COUNT"); ("SUM", "SUM"); ("MIN", "MIN"); ("MAX", "MAX");
       ("AVG", "AVG"); ("SAMPLE", "SAMPLE"); ("GROUP_CONCAT", "GROUP_CONCAT")]
  | BoolOptions => [("TRUE", "true"); ("FALSE", "false")]
  end.

Definition is_member (e : EnumCls) (name value : string) : bool :=
  existsb (fun m => String.eqb (fst m) name && String.eqb (snd m) value)
          (enum_members e).

(** Structural equality of values.  On instances of the models it is
    pydantic's [__eq__]: same class and equal fields. *)
Fixpoint pv_eqb (a b : pv) {struct a} : bool :=
  let list_eqb :=
    fix list_eqb (l l' : list pv) {struct l} : bool :=
      match l, l' with
      | [], [] => true
      | x :: r, y :: r' => pv_eqb x y && list_eqb r r'
      | _, _ => false
      end in
  match a, b with
  | PNone, PNone => true
  | PBool x, PBool y => Bool.eqb x y
  | PInt x, PInt y => (x =? y)%Z
  | PStr x, PStr y => String.eqb x y
  | PEnum e n v, PEnum e' n' v' =>
      EnumCls_eqb e e' && String.eqb n n' && String.eqb v v'
  | PList l, PList l' => list_eqb l l'
  | PTuple l, PTuple l' => list_eqb l l'
  | PAnon i, PAnon j => Nat.eqb i j
  | PObj c fs, PObj c' fs' => Cls.eqb c c' && list_eqb fs fs'
  | _, _ => false
  end.

(** [conforms t v]: [v] passes pydantic's check of an argument against the
    annotation [t].  A model instance passes by its class alone: instances
    are not validated again.  Coercions of raw Python data (dicts into
    models, strings into enum members) are not modelled: arguments are
    values of the Python types the annotations name. *)
Fixpoint conforms (t : ty) (v : pv) {struct t} : bool :=
  match t with
  | TStr => is_str v
  | TInt => match v with PInt _ => true | _ => false end
  | TBool => match v with PBool _ => true | _ => false end
  | TAnon => match v with PAnon _ => true | _ => false end
  | TEnum e =>
      match v with
      | PEnum e' name value => EnumCls_eqb e e' && is_member e name value
      | _ => false
      end
  | TCls c => match v with PObj c' _ => Cls.eqb c c' | _ => false end
  | TList t' =>
      match v with PList items => forallb (conforms t') items | _ => false end
  | TTuple ts =>
      match v with
      | PTuple items =>
          (fix all2 (ts : list ty) (items : list pv) {struct ts} : bool :=
             match ts, items with
             | [], [] => true
             | t' :: ts', x :: items' => conforms t' x && all2 ts' items'
             | _, _ => false
             end) ts items
      | _ => false
      end
  | TUnion ts => existsb (fun t' => conforms t' v) ts
  | TOpt t' => match v with PNone => true | _ => conforms t' v end
  | TTypeError => false
  end.

(** *** Lexical patterns of terminals_regex.py *)

Inductive Regex : Type :=
| IRIREF_REGEX | PN_CHARS_BASE_REGEX | INTEGER_REGEX | PN_CHARS_U_REGEX
| PN_CHARS_REGEX | PN_PREFIX_REGEX | PNAME_NS_REGEX | VARNAME_REGEX
| BLANK_NODE_LABEL_REGEX | LANGTAG_REGEX | DECIMAL_REGEX | EXPONENT_REGEX
| DOUBLE_REGEX | ECHAR_REGEX | STRING_LITERAL1_REGEX | STRING_LITERAL2_REGEX
| STRING_LITERAL_LONG1_REGEX | STRING_LITERAL_LONG2_REGEX | WS_REGEX
| NIL_ANON_REGEX | HEX_REGEX | PERCENT_REGEX | PN_LOCAL_ESC_REGEX | PLX_REGEX
| PN_LOCAL_REGEX | PNAME_LN_REGEX.

(** [cls.get_regex_pattern()] of each terminal class; [None] for the models of
    grammar.py, which have no such method. *)
Definition get_regex_pattern (c : Cls.t) : option Regex :=
  match c with
  | Cls.IRIREF => Some IRIREF_REGEX
  | Cls.PNAME_NS => Some PN_PREFIX_REGEX
  | Cls.PNAME_LN => Some PNAME_LN_REGEX
  | Cls.BlankNodeLabel => Some BLANK_NODE_LABEL_REGEX
  | Cls.VAR1 | Cls.VAR2 | Cls.VARNAME => Some VARNAME_REGEX
  | Cls.LANGTAG => Some LANGTAG_REGEX
  | Cls.INTEGER | Cls.INTEGER_POSITIVE | Cls.INTEGER_NEGATIVE => Some INTEGER_REGEX
  | Cls.DECIMAL | Cls.DECIMAL_POSITIVE | Cls.DECIMAL_NEGATIVE => Some DECIMAL_REGEX
  | Cls.DOUBLE | Cls.DOUBLE_POSITIVE | Cls.DOUBLE_NEGATIVE => Some DOUBLE_REGEX
  | Cls.EXPONENT => Some EXPONENT_REGEX
  | Cls.STRING_LITERAL1 => Some STRING_LITERAL1_REGEX
  | Cls.STRING_LITERAL2 => Some STRING_LITERAL2_REGEX
  | Cls.STRING_LITERAL_LONG1 => Some STRING_LITERAL_LONG1_REGEX
  | Cls.STRING_LITERAL_LONG2 => Some STRING_LITERAL_LONG2_REGEX
  | Cls.ECHAR => Some ECHAR_REGEX
  | Cls.NIL => Some NIL_ANON_REGEX
  | Cls.WS => Some WS_REGEX
  | Cls.PN_CHARS_BASE => Some PN_CHARS_BASE_REGEX
  | Cls.PN_CHARS_U => Some PN_CHARS_U_REGEX
  | Cls.PN_CHARS => Some PN_CHARS_REGEX
  | Cls.PN_PREFIX => Some PN_PREFIX_REGEX
  | Cls.PN_LOCAL => Some PN_LOCAL_REGEX
  | Cls.PLX => Some PLX_REGEX
  | Cls.PERCENT => Some PERCENT_REGEX
  | Cls.HEX => Some HEX_REGEX
  | Cls.PN_LOCAL_ESC => Some PN_LOCAL_ESC_REGEX
  | _ => None
  end.

(** *** Class hierarchy *)

(** The subclasses of [Terminal] are the classes with a lexical pattern. *)
Definition is_Terminal (c : Cls.t) : bool :=
  match get_regex_pattern c with Some _ => true | None => false end.

(** Every model of grammar.py derives from [SPARQLGrammarBase] except
    [SelectClause], [Quads] and [GroupGraphPatternSub], which derive from
    pydantic's [BaseModel] directly. *)
Definition is_SPARQLGrammarBase (c : Cls.t) : bool :=
  match c with
  | Cls.SelectClause | Cls.Quads | Cls.GroupGraphPatternSub => false
  | _ => negb (is_Terminal c)
  end.

(** [isinstance(v, SPARQLGrammarBase)] *)
Definition isinstance_SPARQLGrammarBase (v : pv) : bool :=
  match v with PObj c _ => is_SPARQLGrammarBase c | _ => false end.

(** ** Building the schema of a class

    The annotations are strings ([from __future__ import annotations]).
    pydantic evaluates them when it builds the schema of a class; for the
    classes of grammar.py whose annotations name a class defined further down
    the module this is put off to the first constructor call.  The schema of
    a class holds the schema of every class its annotations name, so the
    [TypeError] of the malformed annotation of [AdditiveExpression] leaves
    the constructor of every class from which [AdditiveExpression] is reached
    through the annotations. *)

Fixpoint annotation_raises (t : ty) : bool :=
  match t with
  | TTypeError => true
  | TList t' | TOpt t' => annotation_raises t'
  | TTuple ts | TUnion ts => existsb annotation_raises ts
  | TStr | TInt | TBool | TAnon | TEnum _ | TCls _ => false
  end.

(** The classes an annotation names. *)
Fixpoint classes_named (t : ty) : list Cls.t :=
  match t with
  | TCls c => [c]
  | TList t' | TOpt t' => classes_named t'
  | TTuple ts | TUnion ts => flat_map classes_named ts
  | TStr | TInt | TBool | TAnon | TEnum _ | TTypeError => []
  end.

Definition all_classes : list Cls.t :=
  [Cls.IRIREF; Cls.PNAME_NS; Cls.PNAME_LN; Cls.BlankNodeLabel; Cls.VAR1;
   Cls.VAR2; Cls.LANGTAG; Cls.INTEGER; Cls.DECIMAL; Cls.DOUBLE;
   Cls.INTEGER_POSITIVE; Cls.DECIMAL_POSITIVE; Cls.DOUBLE_POSITIVE;
   Cls.INTEGER_NEGATIVE; Cls.DECIMAL_NEGATIVE; Cls.DOUBLE_NEGATIVE;
   Cls.EXPONENT; Cls.STRING_LITERAL1; Cls.STRING_LITERAL2;
   Cls.STRING_LITERAL_LONG1; Cls.STRING_LITERAL_LONG2; Cls.ECHAR; Cls.NIL;
   Cls.WS; Cls.PN_CHARS_BASE; Cls.PN_CHARS_U; Cls.VARNAME; Cls.PN_CHARS;
   Cls.PN_PREFIX; Cls.PN_LOCAL; Cls.PLX; Cls.PERCENT; Cls.HEX;
   Cls.PN_LOCAL_ESC; Cls.QueryUnit; Cls.Query; Cls.Prologue; Cls.BaseDecl;
   Cls.PrefixDecl; Cls.SelectQuery; Cls.SubSelect; Cls.SelectClause;
   Cls.ConstructQuery; Cls.DescribeQuery; Cls.AskQuery; Cls.DatasetClause;
   Cls.DefaultGraphClause; Cls.NamedGraphClause; Cls.SourceSelector;
   Cls.WhereClause; Cls.SolutionModifier; Cls.GroupClause;
   Cls.GroupCondition; Cls.HavingClause; Cls.HavingCondition;
   Cls.OrderClause; Cls.OrderCondition; Cls.LimitOffsetClauses;
   Cls.LimitClause; Cls.OffsetClause; Cls.ValuesClause; Cls.Update;
   Cls.Update1; Cls.Load; Cls.Clear; Cls.Drop; Cls.Create; Cls.Add; Cls.Move;
   Cls.Copy; Cls.InsertData; Cls.DeleteData; Cls.DeleteWhere; Cls.Modify;
   Cls.DeleteClause; Cls.InsertClause; Cls.UsingClause; Cls.GraphOrDefault;
   Cls.GraphRef; Cls.GraphRefAll; Cls.QuadPattern; Cls.QuadData; Cls.Quads;
   Cls.QuadsNotTriples; Cls.TriplesTemplate; Cls.GroupGraphPattern;
   Cls.GroupGraphPatternSub; Cls.TriplesBlock; Cls.GraphPatternNotTriples;
   Cls.OptionalGraphPattern; Cls.GraphGraphPattern; Cls.ServiceGraphPattern;
   Cls.Bind; Cls.InlineData; Cls.DataBlock; Cls.InlineDataOneVar;
   Cls.InlineDataFull; Cls.DataBlockValue; Cls.MinusGraphPattern;
   Cls.GroupOrUnionGraphPattern; Cls.Filter; Cls.Constraint;
   Cls.FunctionCall; Cls.ArgList; Cls.ExpressionList; Cls.ConstructTemplate;
   Cls.ConstructTriples; Cls.TriplesSameSubject; Cls.PropertyList;
   Cls.PropertyListNotEmpty; Cls.Verb; Cls.ObjectList; Cls.Object;
   Cls.TriplesSameSubjectPath; Cls.PropertyListPath;
   Cls.PropertyListPathNotEmpty; Cls.VerbPath; Cls.VerbSimple;
   Cls.ObjectListPath; Cls.ObjectPath; Cls.SG_Path; Cls.PathAlternative;
   Cls.PathSequence; Cls.PathElt; Cls.PathEltOrInverse; Cls.PathMod;
   Cls.PathPrimary; Cls.PathNegatedPropertySet; Cls.PathOneInPropertySet;
   Cls.Integer; Cls.TriplesNode; Cls.BlankNodePropertyList;
   Cls.TriplesNodePath; Cls.BlankNodePropertyListPath; Cls.SG_Collection;
   Cls.CollectionPath; Cls.GraphNode; Cls.GraphNodePath; Cls.VarOrTerm;
   Cls.VarOrIri; Cls.Var; Cls.GraphTerm; Cls.Expression;
   Cls.ConditionalOrExpression; Cls.ConditionalAndExpression;
   Cls.ValueLogical; Cls.RelationalExpression; Cls.NumericExpression;
   Cls.AdditiveExpression; Cls.MultiplicativeExpression; Cls.UnaryExpression;
   Cls.PrimaryExpression; Cls.BrackettedExpression; Cls.BuiltInCall;
   Cls.RegexExpression; Cls.SubstringExpression; Cls.StrReplaceExpression;
   Cls.ExistsFunc; Cls.NotExistsFunc; Cls.Aggregate; Cls.iriOrFunction;
   Cls.RDFLiteral; Cls.NumericLiteral; Cls.NumericLiteralUnsigned;
   Cls.NumericLiteralPositive; Cls.NumericLiteralNegative;
   Cls.BooleanLiteral; Cls.String; Cls.iri; Cls.PrefixedName; Cls.BlankNode].

Definition class_in (c : Cls.t) (cs : list Cls.t) : bool := existsb (Cls.eqb c) cs.

(** One round of the closure: the classes with an annotation that raises, or
    that names a class already known to raise. *)
Definition schema_round (known : list Cls.t) : list Cls.t :=
  List.filter
    (fun c =>
       existsb
         (fun f =>
            annotation_raises (ftype f)
            || existsb (fun c' => class_in c' known) (classes_named (ftype f)))
         (model_fields c))
    all_classes.

Fixpoint schema_rounds (n : nat) (known : list Cls.t) : list Cls.t :=
  match n with
  | O => known
  | S n' => schema_rounds n' (schema_round known)
  end.

(** The classes whose schema cannot be built. *)
Definition raising_classes : list Cls.t :=
  Eval vm_compute in schema_rounds (length all_classes) [].

Definition schema_raises (c : Cls.t) : bool := class_in c raising_classes.

Definition schema_error : exn :=
  TypeError "Too many arguments for typing.List; actual 2, expected 1".


(** ** Construction

    [re.fullmatch] is the lexical layer the grammar consumes: the development
    is parametric in it. *)

Section Construction.

Variable fullmatch : Regex -> string -> bool.

(** [Terminal.check_value], the field validator of [value]. *)
Definition check_value (cls : Cls.t) (v : pv) : result pv :=
  match get_regex_pattern cls, v with
  | Some pattern, PStr s =>
      if fullmatch pattern s then Ok v
      else Err (ValueError "Invalid value: does not match pattern")
  | _, _ => malformed
  end.

(** [len(x)] *)
Definition py_len (x : pv) : result Z :=
  match x with
  | PList items | PTuple items => Ok (Z.of_nat (length items))
  | PStr s => Ok (Z.of_nat (String.length s))
  | _ => no_len
  end.

(** [PathAlternative.must_contain_at_least_one_item] and
    [PathSequence.must_contain_at_least_one_item] *)
Definition must_contain_at_least_one_item (msg : string) (v : pv) : result pv :=
  n <- py_len v ;;
  if (n =? 0)%Z then Err (ValueError msg) else Ok v.

(** [PathMod.validate_function_name] *)
Definition validate_function_name (v : pv) : result pv :=
  if existsb (pv_eqb v) [PStr "?"; PStr "*"; PStr "+"] then Ok v
  else Err (ValueError "PathMod must be one of '?', '*', '+'").

(** [cls.function_name] inside the validators of [Aggregate]: the class body
    only annotates [function_name], so the class has no attribute of that
    name and the lookup raises. *)
Definition Aggregate_cls_function_name : result pv :=
  Err (AttributeError "function_name").

(** [a != b] *)
Definition py_ne (a b : pv) : bool := negb (pv_eqb a b).

(** [Aggregate.validate_expression]: [and] evaluates its right operand only
    when the left one is true. *)
Definition validate_expression (v : pv) : result pv :=
  c <- (if isinstance_enum v Wildcard
        then (f <- Aggregate_cls_function_name ;; Ok (py_ne f (PStr "COUNT")))
        else Ok false) ;;
  if c then Err (ValueError "'*' can only be used for COUNT") else Ok v.

(** [Aggregate.validate_separator] *)
Definition validate_separator (v : pv) : result pv :=
  f <- Aggregate_cls_function_name ;;
  if py_ne f (PStr "GROUP_CONCAT")
  then Err (ValueError "'SEPARATOR' can only be used for GROUP_CONCAT")
  else Ok v.

(** The [@field_validator] of a field, when the class declares one. *)
Definition field_validator (cls : Cls.t) (name : string) : option (pv -> result pv) :=
  if is_Terminal cls then
    if String.eqb name "value" then Some (check_value cls) else None
  else
    match cls with
    | Cls.PathAlternative =>
        if String.eqb name "sequence_paths"
        then Some (must_contain_at_least_one_item
                     "sequence_paths must contain at least one item.")
        else None
    | Cls.PathSequence =>
        if String.eqb name "list_path_elt_or_inverse"
        then Some (must_contain_at_least_one_item
                     "list_path_elt_or_inverse must contain at least one item.")
        else None
    | Cls.PathMod =>
        if String.eqb name "pathmod" then Some validate_function_name else None
    | Cls.Aggregate =>
        if String.eqb name "expression" then Some validate_expression
        else if String.eqb name "separator" then Some validate_separator
        else None
    | _ => None
    end.

(** [Quads.validate_templates_and_quads] and
    [GroupGraphPatternSub.validate_blocks_and_patterns]: the same body over
    the primary and the secondary list. *)
Definition validate_pairing (msg_none msg_few : string) (fields : list pv)
  : result unit :=
  match fields with
  | [primary; secondary] =>
      p_len <- py_len primary ;;
      s_len <- py_len secondary ;;
      if (p_len <? 1)%Z then Err (ValueError msg_none)
      else if (p_len >? 1)%Z && (s_len <? p_len - 1)%Z then Err (ValueError msg_few)
      else Ok tt
  | _ => malformed
  end.

Definition validate_templates_and_quads : list pv -> result unit :=
  validate_pairing
    "There must be at least one TriplesTemplate"
    "When there is more than one TriplesTemplate there must be at least N-1 QuadsNotTriples".

Definition validate_blocks_and_patterns : list pv -> result unit :=
  validate_pairing
    "There must be at least one TriplesBlock"
    "When there is more than one TriplesBlock there must be at least N-1 GraphPatternNotTriples".

(** The after-mode [@model_validator] of a class, when it declares one. *)
Definition model_validator (cls : Cls.t) : option (list pv -> result unit) :=
  match cls with
  | Cls.Quads => Some validate_templates_and_quads
  | Cls.GroupGraphPatternSub => Some validate_blocks_and_patterns
  | _ => None
  end.

(** pydantic turns a [ValueError] or an [AssertionError] raised by a validator
    into an entry of the [ValidationError] it raises once all fields were
    tried; any other exception leaves the constructor as it is. *)
Definition is_validation_failure (e : exn) : bool :=
  match e with
  | ValueError _ | AssertionError _ => true
  | _ => false
  end.

Fixpoint lookup_kwarg (name : string) (kwargs : list (string * pv)) : option pv :=
  match kwargs with
  | [] => None
  | (k, v) :: rest => if String.eqb k name then Some v else lookup_kwarg name rest
  end.

(** One field of a constructor call: [Ok (Some v)] is the validated value,
    [Ok None] an entry of the pending [ValidationError]. *)
Definition validate_field (cls : Cls.t) (f : field) (kwargs : list (string * pv))
  : result (option pv) :=
  match lookup_kwarg (fname f) kwargs with
  | None =>
      match fdefault f with
      | Some d => Ok (Some d)          (* defaults are not validated *)
      | None => Ok None                (* missing required field *)
      end
  | Some v =>
      if conforms (ftype f) v then
        match field_validator cls (fname f) with
        | None => Ok (Some v)
        | Some validator =>
            match validator v with
            | Ok v' => Ok (Some v')
            | Err e => if is_validation_failure e then Ok None else Err e
            end
        end
      else Ok None
  end.

Fixpoint validate_fields (cls : Cls.t) (fs : list field) (kwargs : list (string * pv))
  : result (option (list pv)) :=
  match fs with
  | [] => Ok (Some [])
  | f :: fs' =>
      r <- validate_field cls f kwargs ;;
      rs <- validate_fields cls fs' kwargs ;;
      match r, rs with
      | Some v, Some vs => Ok (Some (v :: vs))
      | _, _ => Ok None
      end
  end.

(** A constructor call with keyword arguments: the schema of the class is
    built, the fields are validated in declaration order, then the model
    validator runs on the assembled instance.  Unknown keywords are
    ignored. *)
Definition new (cls : Cls.t) (kwargs : list (string * pv)) : result pv :=
  if schema_raises cls then Err schema_error else
  r <- validate_fields cls (model_fields cls) kwargs ;;
  match r with
  | None => Err (ValidationError "validation error for the model")
  | Some fields =>
      match model_validator cls with
      | None => Ok (PObj cls fields)
      | Some validator =>
          match validator fields with
          | Ok _ => Ok (PObj cls fields)
          | Err e =>
              if is_validation_failure e
              then Err (ValidationError "validation error for the model")
              else Err e
          end
      end
  end.

End Construction.

(** ** Hashing and the triple collector *)

(** How a class answers [hash(self)].  pydantic's [BaseModel] defines [__eq__]
    and no [__hash__], so a model is unhashable unless its class body defines
    [__hash__]. *)
Inductive HashMethod : Type :=
| HashOfFields       (* [hash(self.f)], or [hash((self.f, self.g))] over all fields *)
| HashOfFirstField   (* [hash(self.f)] where [f] is the first of several fields *)
| HashOfTuple        (* [hash(tuple(self.f))] *)
| Unhashable.

Definition hash_method (c : Cls.t) : HashMethod :=
  if is_Terminal c then HashOfFields   (* [Terminal.__hash__]: [hash(self.value)] *)
  else
    match c with
    | Cls.ConstructTemplate | Cls.TriplesSameSubject | Cls.PropertyList
    | Cls.TriplesSameSubjectPath | Cls.PropertyListPathNotEmpty
    | Cls.VerbPath | Cls.VerbSimple | Cls.ObjectPath | Cls.SG_Path
    | Cls.PathElt | Cls.PathEltOrInverse | Cls.PathMod | Cls.PathPrimary
    | Cls.PathNegatedPropertySet | Cls.PathOneInPropertySet
    | Cls.TriplesNodePath | Cls.BlankNodePropertyListPath
    | Cls.GraphNodePath | Cls.VarOrTerm | Cls.Var | Cls.GraphTerm
    | Cls.NumericLiteral | Cls.NumericLiteralUnsigned
    | Cls.NumericLiteralPositive | Cls.NumericLiteralNegative
    | Cls.iri | Cls.PrefixedName | Cls.BlankNode => HashOfFields
    | Cls.RDFLiteral => HashOfFirstField
    | Cls.ObjectList | Cls.ObjectListPath | Cls.PathAlternative
    | Cls.PathSequence | Cls.CollectionPath => HashOfTuple
    | _ => Unhashable
    end.

(** [hash(v)]: only whether it succeeds matters to a [set]. *)
Fixpoint py_hash (v : pv) : result unit :=
  let hash_all :=
    fix hash_all (items : list pv) : result unit :=
      match items with
      | [] => Ok tt
      | x :: rest => _ <- py_hash x ;; hash_all rest
      end in
  match v with
  | PNone | PBool _ | PInt _ | PStr _ | PEnum _ _ _ | PAnon _ => Ok tt
  | PList _ => Err (TypeError "unhashable type: 'list'")
  | PTuple items => hash_all items
  | PObj cls fields =>
      match hash_method cls with
      | HashOfFields => hash_all fields
      | HashOfFirstField =>
          match fields with
          | f :: _ => py_hash f
          | [] => malformed
          end
      | HashOfTuple =>
          match fields with
          | [PList items] | [PTuple items] => hash_all items
          | [PStr _] | [PObj _ _] => malformed
          | [_] => not_iterable
          | _ => malformed
          end
      | Unhashable => Err (TypeError "unhashable type")
      end
  end.

Fixpoint hash_each (items : list pv) : result unit :=
  match items with
  | [] => Ok tt
  | x :: rest => _ <- py_hash x ;; hash_each rest
  end.

(** The distinct elements of a list, each kept at its first occurrence. *)
Fixpoint distinct_from (seen items : list pv) : list pv :=
  match items with
  | [] => []
  | x :: rest =>
      if existsb (pv_eqb x) seen then distinct_from seen rest
      else x :: distinct_from (x :: seen) rest
  end.

(** [list(set(items))].  Building the set hashes every element.  Python leaves
    the order of the resulting list unspecified; the embedding lists each
    element at its first occurrence, and no statement below depends on the
    order. *)
Definition py_list_set (items : list pv) : result (list pv) :=
  _ <- hash_each items ;; Ok (distinct_from [] items).

Definition is_TriplesSameSubjectPath (v : pv) : bool :=
  match v with PObj Cls.TriplesSameSubjectPath _ => true | _ => false end.

(** A monadic [for] that extends a list. *)
Definition collect_each (f : pv -> result (list pv)) : list pv -> result (list pv) :=
  fix go (items : list pv) : result (list pv) :=
    match items with
    | [] => Ok []
    | x :: rest => a <- f x ;; b <- go rest ;; Ok (a ++ b)
    end.

(** [self.collect_triples()]: [SPARQLGrammarBase.collect_triples], the walk
    over [self.model_fields] followed by the deduplication.  Values of other
    classes have no such method. *)
Fixpoint collect_triples (self : pv) : result (list pv) :=
  match self with
  | PObj cls fields =>
      if is_SPARQLGrammarBase cls then
        triples <-
          collect_each (fun attribute_value =>
            if is_TriplesSameSubjectPath attribute_value then Ok [attribute_value]
            else
              match attribute_value with
              | PList items =>
                  collect_each (fun item =>
                    if is_TriplesSameSubjectPath item then Ok [item]
                    else if isinstance_SPARQLGrammarBase item then collect_triples item
                    else Ok []) items
              | _ =>
                  if isinstance_SPARQLGrammarBase attribute_value
                  then collect_triples attribute_value
                  else Ok []
              end) fields ;;
        py_list_set triples
      else Err (AttributeError "object has no attribute 'collect_triples'")
  | _ => Err (AttributeError "object has no attribute 'collect_triples'")
  end.

(** ** Builder helpers *)

(** [iter(x)], consumed.  Iterating a pydantic model yields its
    [(name, value)] pairs. *)
Definition py_iter (x : pv) : result (list pv) :=
  match x with
  | PList items | PTuple items => Ok items
  | PStr s => Ok (py_chars s)
  | PObj cls fields =>
      Ok (map (fun nv => PTuple [PStr (fname (fst nv)); snd nv])
              (combine (model_fields cls) fields))
  | PNone | PBool _ | PInt _ | PEnum _ _ _ | PAnon _ => not_iterable
  end.

(** [x in xs] for a list literal [xs]. *)
Definition py_in (x : pv) (xs : list pv) : bool := existsb (pv_eqb x) xs.

(** [assert b, msg] *)
Definition py_assert (b : bool) (msg : string) : result unit :=
  if b then Ok tt else Err (AssertionError msg).

Fixpoint sequence (items : list (result pv)) : result (list pv) :=
  match items with
  | [] => Ok []
  | r :: rest => x <- r ;; xs <- sequence rest ;; Ok (x :: xs)
  end.

(** A list display [[a, b, ...]] and a tuple display [(a, b, ...)] whose items
    are evaluated left to right. *)
Definition list_of (items : list (result pv)) : result pv :=
  xs <- sequence items ;; Ok (PList xs).

Definition tuple_of (items : list (result pv)) : result pv :=
  xs <- sequence items ;; Ok (PTuple xs).

Fixpoint eval_kwargs (kwargs : list (string * result pv))
  : result (list (string * pv)) :=
  match kwargs with
  | [] => Ok []
  | (k, r) :: rest => v <- r ;; vs <- eval_kwargs rest ;; Ok ((k, v) :: vs)
  end.

Section Helpers.

Variable fullmatch : Regex -> string -> bool.

(** A constructor call whose keyword arguments are themselves expressions:
    the arguments are evaluated left to right, then the class is called. *)
Definition construct (cls : Cls.t) (kwargs : list (string * result pv)) : result pv :=
  kw <- eval_kwargs kwargs ;; new fullmatch cls kw.

(** [Expression.from_primary_expression] *)
Definition from_primary_expression (primary_expression : pv) : result pv :=
  construct Cls.Expression
    [("conditional_or_expression",
       construct Cls.ConditionalOrExpression
         [("conditional_and_expressions",
            list_of
              [construct Cls.ConditionalAndExpression
                 [("value_logicals",
                    list_of
                      [construct Cls.ValueLogical
                         [("relational_expression",
                            construct Cls.RelationalExpression
                              [("left",
                                 construct Cls.NumericExpression
                                   [("additive_expression",
                                      construct Cls.AdditiveExpression
                                        [("base_expression",
                                           construct Cls.MultiplicativeExpression
                                             [("base_expression",
                                                construct Cls.UnaryExpression
                                                  [("primary_expression",
                                                     Ok primary_expression)])])])])])]])]])])].

Definition is_PrimaryExpression (v : pv) : bool :=
  match v with PObj Cls.PrimaryExpression _ => true | _ => false end.

(** The wrapping of a primary expression that [filter_relational] builds for
    the left operand and for a single right operand. *)
Definition numeric_of_primary (primary : pv) : result pv :=
  construct Cls.NumericExpression
    [("additive_expression",
       construct Cls.AdditiveExpression
         [("base_expression",
            construct Cls.MultiplicativeExpression
              [("base_expression",
                 construct Cls.UnaryExpression
                   [("primary_expression",
                      Ok primary)])])])].

Fixpoint map_result (f : pv -> result pv) (items : list pv) : result (list pv) :=
  match items with
  | [] => Ok []
  | x :: rest => y <- f x ;; ys <- map_result f rest ;; Ok (y :: ys)
  end.

(** [Filter.filter_relational] *)
Definition filter_relational (focus comparators operator : pv) : result pv :=
  numeric_left <- numeric_of_primary focus ;;
  expression_rhs <-
    (if is_PrimaryExpression comparators then
       _ <- py_assert (negb (py_in operator [PStr "IN"; PStr "NOT IN"]))
              "an ExpressionList must be supplied for 'IN' or 'NOT IN'" ;;
       numeric_of_primary comparators
     else
       _ <- py_assert (py_in operator [PStr "IN"; PStr "NOT IN"]) "" ;;
       comps <- py_iter comparators ;;
       comparator_exprs <- map_result from_primary_expression comps ;;
       construct Cls.ExpressionList [("expressions", Ok (PList comparator_exprs))]) ;;
  relational_expr <-
    construct Cls.RelationalExpression
      [("left", Ok numeric_left); ("operator", Ok operator);
       ("right", Ok expression_rhs)] ;;
  value_logical <-
    construct Cls.ValueLogical [("relational_expression", Ok relational_expr)] ;;
  conditional_and_expr <-
    construct Cls.ConditionalAndExpression
      [("value_logicals", Ok (PList [value_logical]))] ;;
  conditional_or_expr <-
    construct Cls.ConditionalOrExpression
      [("conditional_and_expressions", Ok (PList [conditional_and_expr]))] ;;
  expression <-
    construct Cls.Expression [("conditional_or_expression", Ok conditional_or_expr)] ;;
  bracketted_expr <-
    construct Cls.BrackettedExpression [("expression", Ok expression)] ;;
  construct Cls.Filter
    [("constraint", construct Cls.Constraint [("content", Ok bracketted_expr)])].

Definition is_iri_or_BlankNode (v : pv) : bool :=
  match v with PObj Cls.iri _ | PObj Cls.BlankNode _ => true | _ => false end.

(** The subject and the object of [from_spo] *)
Definition var_or_term_of (x : pv) (msg : string) : result pv :=
  if is_Var x then construct Cls.VarOrTerm [("varorterm", Ok x)]
  else if is_iri_or_BlankNode x then
    construct Cls.VarOrTerm
      [("varorterm", construct Cls.GraphTerm [("content", Ok x)])]
  else Err (ValueError msg).

(** [TriplesSameSubjectPath.from_spo] *)
Definition from_spo (subject predicate object : pv) : result pv :=
  s_vot <- var_or_term_of subject "s must be a Var, iri or BlankNode" ;;
  verb <-
    (if is_Var predicate then construct Cls.VerbSimple [("var", Ok predicate)]
     else if is_iri predicate then
       construct Cls.VerbPath
         [("path",
            construct Cls.SG_Path
              [("path_alternative",
                 construct Cls.PathAlternative
                   [("sequence_paths",
                      list_of
                        [construct Cls.PathSequence
                           [("list_path_elt_or_inverse",
                              list_of
                                [construct Cls.PathEltOrInverse
                                   [("path_elt",
                                      construct Cls.PathElt
                                        [("path_primary",
                                           construct Cls.PathPrimary
                                             [("value",
                                                Ok predicate)])])]])]])])])]
     else Err (ValueError "p must be a Var or iri")) ;;
  o_vot <- var_or_term_of object "o must be a Var, iri or BlankNode" ;;
  construct Cls.TriplesSameSubjectPath
    [("content",
       tuple_of
         [Ok s_vot;
          construct Cls.PropertyListPathNotEmpty
            [("first_pair",
               tuple_of
                 [Ok verb;
                  construct Cls.ObjectListPath
                    [("object_paths",
                       list_of
                         [construct Cls.ObjectPath
                            [("graph_node_path",
                               construct Cls.GraphNodePath
                                 [("varorterm_or_triplesnodepath",
                                    Ok o_vot)])]])]])]])].

End Helpers.

(** ** Validly constructed trees *)

Section Validity.

Variable fullmatch : Regex -> string -> bool.

(** A field value a constructor call can leave in an instance: the default of
    an omitted field, or an argument that passed the annotation and the field
    validator. *)
Definition field_ok (cls : Cls.t) (f : field) (v : pv) : bool :=
  match fdefault f with Some d => pv_eqb d v | None => false end
  || (conforms (ftype f) v
      && match field_validator fullmatch cls (fname f) with
         | None => true
         | Some validator =>
             match validator v with Ok v' => pv_eqb v' v | Err _ => false end
         end).

Fixpoint fields_ok (cls : Cls.t) (fs : list field) (vs : list pv) : bool :=
  match fs, vs with
  | [], [] => true
  | f :: fs', v :: vs' => field_ok cls f v && fields_ok cls fs' vs'
  | _, _ => false
  end.

(** [valid v]: [v] and every node below it is an instance that its class's
    constructor can return. *)
Fixpoint valid (v : pv) : bool :=
  match v with
  | PObj cls fields =>
      negb (schema_raises cls)
      && fields_ok cls (model_fields cls) fields
      && forallb valid fields
      && match model_validator cls with
         | None => true
         | Some validator => is_ok (validator fields)
         end
  | PList items | PTuple items => forallb valid items
  | PNone | PBool _ | PInt _ | PStr _ | PEnum _ _ _ | PAnon _ => true
  end.

End Validity.

(** ** The store: [ConstructTriples.merge_ct]

    [merge_ct] assigns to a field of an existing object, so the
    [ConstructTriples] instances it works on are embedded as objects of a
    store, referred to by location.  The [triples] field holds an immutable
    tree; [construct_triples] is a reference to the next object, or [None]. *)

Module Store.

Abbreviation loc := positive.

Record ConstructTriples : Type := CT {
  triples : pv;
  construct_triples : option loc
}.

Abbreviation heap := (gmap loc ConstructTriples).

(** [ct.construct_triples = v] on the object at [l] *)
Definition set_construct_triples (l : loc) (v : option loc) (h : heap) : heap :=
  alter (fun ct => CT (triples ct) v) l h.

(** The inner loop of [merge_ct]:
<<
    while current_ct.construct_triples is not None:
        current_ct = current_ct.construct_triples
>>
    [None] when the fuel runs out (the loop does not terminate on a cyclic
    chain) or a reference dangles. *)
Fixpoint walk_to_last (fuel : nat) (h : heap) (current_ct : loc) : option loc :=
  match fuel with
  | O => None
  | S fuel' =>
      match h !! current_ct with
      | None => None
      | Some ct =>
          match construct_triples ct with
          | None => Some current_ct
          | Some next => walk_to_last fuel' h next
          end
      end
  end.

(** The outer loop of [merge_ct]:
<<
    for next_ct in ct_iter:
        (inner loop)
        current_ct.construct_triples = next_ct
        current_ct = next_ct
>> *)
Fixpoint merge_loop (fuel : nat) (h : heap) (current_ct : loc) (ct_iter : list loc)
  : option heap :=
  match ct_iter with
  | [] => Some h
  | next_ct :: ct_iter' =>
      match walk_to_last fuel h current_ct with
      | None => None
      | Some last => merge_loop fuel (set_construct_triples last (Some next_ct) h)
                                next_ct ct_iter'
      end
  end.

(** [ConstructTriples.merge_ct(ct_list)]: the final store and the returned
    reference ([None] for an empty list). *)
Definition merge_ct (fuel : nat) (h : heap) (ct_list : list loc)
  : option (heap * option loc) :=
  match ct_list with
  | [] => Some (h, None)
  | first_ct :: ct_iter =>
      match merge_loop fuel h first_ct ct_iter with
      | None => None
      | Some h' => Some (h', Some first_ct)
      end
  end.

(** [ConstructTriples.to_tss_list]:
<<
    while ct:
        tss_list.append(ct.triples)
        ct = ct.construct_triples
>> *)
Fixpoint to_tss_list (fuel : nat) (h : heap) (ct : option loc) : option (list pv) :=
  match ct with
  | None => Some []
  | Some l =>
      match fuel with
      | O => None
      | S fuel' =>
          match h !! l with
          | None => None
          | Some o =>
              match to_tss_list fuel' h (construct_triples o) with
              | None => None
              | Some rest => Some (triples o :: rest)
              end
          end
      end
  end.

(** The tree a reference denotes: the value of the model instance, read off
    the store. *)
Fixpoint tree_of (fuel : nat) (h : heap) (l : loc) : option pv :=
  match fuel with
  | O => None
  | S fuel' =>
      match h !! l with
      | None => None
      | Some o =>
          match construct_triples o with
          | None => Some (PObj Cls.ConstructTriples [triples o; PNone])
          | Some next =>
              match tree_of fuel' h next with
              | None => None
              | Some sub => Some (PObj Cls.ConstructTriples [triples o; sub])
              end
          end
      end
  end.

(** The [triples] field of the object at a reference. *)
Definition triples_at (h : heap) (l : loc) : pv :=
  from_option triples PNone (h !! l).

End Store.

(** ** Further builder helpers *)

Section MoreHelpers.

Variable fullmatch : Regex -> string -> bool.

(** [Var.from_string]: the [try] re-raises what it catches. *)
Definition Var_from_string (string : pv) : result pv :=
  construct fullmatch Cls.Var
    [("value", construct fullmatch Cls.VAR1 [("value", Ok string)])].

(** [RDFLiteral.from_string] *)
Definition RDFLiteral_from_string (string : pv) : result pv :=
  construct fullmatch Cls.RDFLiteral
    [("value",
       construct fullmatch Cls.String
         [("value", construct fullmatch Cls.STRING_LITERAL2 [("value", Ok string)])])].

(** [iri.from_string]: a [ValidationError] of the first attempt leads to the
    second, a [ValidationError] of the second to the [ValueError]; any other
    exception propagates.  The message is the f-string over the argument and
    the two caught errors, of which the embedding keeps the messages. *)
Definition iri_from_string (string : pv) : result pv :=
  match construct fullmatch Cls.iri
          [("value", construct fullmatch Cls.IRIREF [("value", Ok string)])] with
  | Err (ValidationError ve1) =>
      match construct fullmatch Cls.iri
              [("value",
                 construct fullmatch Cls.PrefixedName [("value", Ok string)])] with
      | Err (ValidationError ve2) =>
          text <- py_format string ;;
          Err (ValueError ("Invalid IRI: " +:+ text +:+ ". Failed validations: ("
                           +:+ ve1 +:+ ", " +:+ ve2 +:+ ")"))
      | r => r
      end
  | r => r
  end.

(** [Expression.create_in_expression] *)
Definition create_in_expression
    (left_primary_expression operator right_primary_expressions : pv) : result pv :=
  construct fullmatch Cls.Expression
    [("conditional_or_expression",
       construct fullmatch Cls.ConditionalOrExpression
         [("conditional_and_expressions",
            list_of
              [construct fullmatch Cls.ConditionalAndExpression
                 [("value_logicals",
                    list_of
                      [construct fullmatch Cls.ValueLogical
                         [("relational_expression",
                            construct fullmatch Cls.RelationalExpression
                              [("left",
                                 numeric_of_primary fullmatch left_primary_expression);
                               ("operator", Ok operator);
                               ("right",
                                 construct fullmatch Cls.ExpressionList
                                   [("expressions",
                                      (exprs <- py_iter right_primary_expressions ;;
                                       wrapped <-
                                         map_result
                                           (from_primary_expression fullmatch) exprs ;;
                                       Ok (PList wrapped)))])])]])]])])].

(** [BuiltInCall.create_with_n_expr]: the constructor is called with the
    keywords [function_name] and [arguments]. *)
Definition create_with_n_expr (function_name expressions : pv) : result pv :=
  exprs <- py_iter expressions ;;
  wrapped_expressions <- map_result (from_primary_expression fullmatch) exprs ;;
  construct fullmatch Cls.BuiltInCall
    [("function_name", Ok function_name);
     ("arguments", Ok (PList wrapped_expressions))].

(** [BuiltInCall.create_with_one_expr] *)
Definition create_with_one_expr (function_name expression : pv) : result pv :=
  create_with_n_expr function_name (PList [expression]).

(** [TriplesSameSubject.from_spo] *)
Definition TriplesSameSubject_from_spo (subject predicate object : pv) : result pv :=
  s_vot <- var_or_term_of fullmatch subject "s must be a Var, iri or BlankNode" ;;
  verb <-
    (if is_Var predicate || is_iri predicate then
       construct fullmatch Cls.Verb
         [("varoriri",
            construct fullmatch Cls.VarOrIri [("varoriri", Ok predicate)])]
     else Err (ValueError "p must be a Var or iri")) ;;
  o_vot <- var_or_term_of fullmatch object "o must be a Var, iri or BlankNode" ;;
  construct fullmatch Cls.TriplesSameSubject
    [("content",
       tuple_of
         [Ok s_vot;
          construct fullmatch Cls.PropertyListNotEmpty
            [("verb_objectlist",
               list_of
                 [tuple_of
                    [Ok verb;
                     construct fullmatch Cls.ObjectList
                       [("list_object",
                          list_of
                            [construct fullmatch Cls.Object
                               [("graphnode",
                                  construct fullmatch Cls.GraphNode
                                    [("varorterm_or_triplesnode",
                                       Ok o_vot)])]])]]])]])].

(** The loop of [TriplesBlock.from_tssp_list]:
<<
    for tssp in tssp_iter:
        tb = cls(triples=tssp, triples_block=tb)
>> *)
Fixpoint from_tssp_loop (tssp_iter : list pv) (tb : pv) : result pv :=
  match tssp_iter with
  | [] => Ok tb
  | tssp :: rest =>
      tb' <- construct fullmatch Cls.TriplesBlock
               [("triples", Ok tssp); ("triples_block", Ok tb)] ;;
      from_tssp_loop rest tb'
  end.

(** [TriplesBlock.from_tssp_list]: without the [if] branch the method falls
    off its end and returns [None].  A true value of the embedded types never
    iterates to nothing. *)
Definition from_tssp_list (tssp_list : pv) : result pv :=
  if py_truthy tssp_list then
    tssp_iter <- py_iter tssp_list ;;
    match tssp_iter with
    | first_tssp :: rest =>
        tb <- construct fullmatch Cls.TriplesBlock [("triples", Ok first_tssp)] ;;
        from_tssp_loop rest tb
    | [] => malformed
    end
  else Ok PNone.

End MoreHelpers.

(** ** Building [ConstructTriples] chains in the store *)

Module StoreBuild.

Import Store.

(** What a call gives: a value, an exception of the embedded kinds, or
    [StopIteration] escaping from [next]. *)
Inductive outcome (A : Type) : Type :=
| Returns (a : A)
| Raises (e : exn)
| RaisesStopIteration.
Arguments Returns {A} a.
Arguments Raises {A} e.
Arguments RaisesStopIteration {A}.

(** A new object gets a location the store does not use yet. *)
Definition alloc (o : ConstructTriples) (h : heap) : heap * loc :=
  let l := fresh (dom h) in (<[l := o]> h, l).

(** [cls(triples=tss, construct_triples=ct)] and [cls(triples=tss)]: [tss]
    must be an instance of [TriplesSameSubject]; a reference always refers to
    a [ConstructTriples]. *)
Definition new_ConstructTriples (tss : pv) (ct : option loc) (h : heap)
  : result (heap * loc) :=
  if conforms (TCls Cls.TriplesSameSubject) tss then Ok (alloc (CT tss ct) h)
  else Err (ValidationError "validation error for the model").

(** The loop of [ConstructTriples.from_tss_list]:
<<
    for tss in tss_iter:
        ct = cls(triples=tss, construct_triples=ct)
>> *)
Fixpoint from_tss_loop (tss_iter : list pv) (ct : loc) (h : heap)
  : result (heap * loc) :=
  match tss_iter with
  | [] => Ok (h, ct)
  | tss :: rest =>
      r <- new_ConstructTriples tss (Some ct) h ;;
      from_tss_loop rest (snd r) (fst r)
  end.

(** [ConstructTriples.from_tss_list]: [next] on the iterator of an empty list
    raises [StopIteration], which the method does not catch. *)
Definition from_tss_list (tss_list : list pv) (h : heap) : outcome (heap * loc) :=
  match tss_list with
  | [] => RaisesStopIteration
  | first_tss :: tss_iter =>
      match (r <- new_ConstructTriples first_tss None h ;;
             from_tss_loop tss_iter (snd r) (fst r)) with
      | Ok r => Returns r
      | Err e => Raises e
      end
  end.

End StoreBuild.

(** * Properties *)

(** ** Text of generators *)

Lemma append_empty_r (s : string) : s +:+ "" = s.
Proof. induction s as [|c s IH]; simpl; [reflexivity | now rewrite IH]. Qed.

Lemma append_assoc (a b c : string) : (a +:+ b) +:+ c = a +:+ (b +:+ c).
Proof. induction a as [|x a IH]; simpl; [reflexivity | now rewrite IH]. Qed.

Lemma strs_app (a b : list pv) (sa sb : list string) :
  strs a = Ok sa -> strs b = Ok sb -> strs (a ++ b) = Ok (sa ++ sb).
Proof.
  revert sa. induction a as [|x a IH]; intros sa Ha Hb; simpl in *.
  - injection Ha as <-. exact Hb.
  - destruct x; try discriminate.
    destruct (strs a) as [ss|] eqn:E; [|discriminate].
    injection Ha as <-. now rewrite (IH ss eq_refl Hb).
Qed.

Lemma concat_empty_app (a b : list string) :
  String.concat "" (a ++ b) = String.concat "" a +:+ String.concat "" b.
Proof.
  induction a as [|x a IH]; simpl; [reflexivity|].
  destruct a as [|y a].
  - simpl. destruct b; simpl; [now rewrite append_empty_r | reflexivity].
  - change ((y :: a) ++ b) with (y :: (a ++ b)) in *.
    cbn [app] in IH. rewrite IH. now rewrite append_assoc.
Qed.

Lemma gen_text_inv (g : gen) (s : string) :
  gen_text g = Ok s ->
  exists parts ss, g = Ok parts /\ strs parts = Ok ss /\ s = String.concat "" ss.
Proof.
  unfold gen_text, py_join. destruct g as [parts|]; [|discriminate].
  destruct (strs parts) as [ss|] eqn:E; [|discriminate].
  intros [= <-]. now exists parts, ss.
Qed.

Lemma gen_text_intro (g : gen) (parts : list pv) (ss : list string) :
  g = Ok parts -> strs parts = Ok ss -> gen_text g = Ok (String.concat "" ss).
Proof. intros -> H. unfold gen_text, py_join. now rewrite H. Qed.

Lemma gen_text_ystr (s : string) : gen_text (ystr s) = Ok s.
Proof. reflexivity. Qed.

Lemma gen_text_gskip : gen_text gskip = Ok "".
Proof. reflexivity. Qed.

Lemma gen_text_seq (g1 g2 : gen) (s1 s2 : string) :
  gen_text g1 = Ok s1 -> gen_text g2 = Ok s2 ->
  gen_text (g1 >> g2) = Ok (s1 +:+ s2).
Proof.
  intros H1 H2.
  destruct (gen_text_inv _ _ H1) as (p1 & ss1 & -> & Hs1 & ->).
  destruct (gen_text_inv _ _ H2) as (p2 & ss2 & -> & Hs2 & ->).
  unfold gseq. rewrite <- concat_empty_app.
  now apply gen_text_intro with (parts := p1 ++ p2); [|apply strs_app].
Qed.

Lemma gen_text_seq_eq (g1 g2 : gen) (s1 s2 s : string) :
  gen_text g1 = Ok s1 -> gen_text g2 = Ok s2 -> s = s1 +:+ s2 ->
  gen_text (g1 >> g2) = Ok s.
Proof. intros H1 H2 ->. now apply gen_text_seq. Qed.

(** The text of a sequence of generators whose texts are known; what is left
    is the equation between the expected text and the pieces in order. *)
Ltac gen_text_pieces :=
  lazymatch goal with
  | |- gen_text (_ >> _) = Ok _ =>
      eapply gen_text_seq_eq; [gen_text_pieces | gen_text_pieces | try reflexivity]
  | |- gen_text (ystr _) = Ok _ => apply gen_text_ystr
  | |- gen_text gskip = Ok _ => apply gen_text_gskip
  | |- _ => eassumption
  end.

Ltac string_normalize :=
  repeat first [ progress cbn [String.append]
               | rewrite append_assoc
               | rewrite append_empty_r ].

(** Conditions of [gwhen] on concrete data are evaluated first. *)
Ltac gwhen_decide :=
  repeat match goal with
    | |- context [gwhen ?b _] =>
        lazymatch b with true => fail | false => fail | _ => idtac end;
        let v := eval vm_compute in b in change b with v
    end;
  cbn [gwhen].

Ltac gen_text_solve :=
  gwhen_decide; gen_text_pieces; try (string_normalize; reflexivity).

Lemma gen_text_seq_err_l (g1 g2 : gen) (e : exn) :
  g1 = Err e -> gen_text (g1 >> g2) = Err e.
Proof. now intros ->. Qed.

(** [sep.join] of a non-empty list: the first text, then every other text
    with [sep] before it. *)
Lemma concat_sep_cons (sep t : string) (ts : list string) :
  String.concat sep (t :: ts)
  = t +:+ String.concat "" (map (fun x => sep +:+ x) ts).
Proof.
  revert t. induction ts as [|u ts IH]; intros t.
  - simpl. now rewrite append_empty_r.
  - change (String.concat sep (t :: u :: ts))
      with (t +:+ sep +:+ String.concat sep (u :: ts)).
    rewrite IH. f_equal.
    change (map (fun x => sep +:+ x) (u :: ts))
      with ([sep +:+ u] ++ map (fun x => sep +:+ x) ts).
    rewrite concat_empty_app. simpl. now rewrite append_assoc.
Qed.

(** A loop whose body renders one text per item renders the texts in a
    row. *)
Lemma gen_text_gfor (body : pv -> gen) (items : list pv) (texts : list string) :
  Forall2 (fun x t => gen_text (body x) = Ok t) items texts ->
  gen_text (gfor body items) = Ok (String.concat "" texts).
Proof.
  induction 1 as [|x t items texts Hx _ IH]; [reflexivity|].
  cbn [gfor]. change (t :: texts) with ([t] ++ texts).
  rewrite concat_empty_app. simpl (String.concat "" [t]).
  now apply gen_text_seq.
Qed.

(** [first_then_rest] over a non-empty list is [sep.join], when the body for
    the later items renders [sep] and then what the first body would. *)
Lemma gen_text_first_then_rest (head tail : pv -> gen) (sep : string)
      (items : list pv) (texts : list string) :
  items <> [] ->
  Forall2 (fun x t => gen_text (head x) = Ok t
                      /\ gen_text (tail x) = Ok (sep +:+ t)) items texts ->
  gen_text (first_then_rest (PList items) head tail)
  = Ok (String.concat sep texts).
Proof.
  intros Hne H. destruct H as [|x t items texts [Hx _] Hrest]; [congruence|].
  cbn [first_then_rest]. rewrite concat_sep_cons.
  apply gen_text_seq; [exact Hx|].
  apply gen_text_gfor.
  clear -Hrest. induction Hrest as [|y u items texts [_ Hy] _ IH]; constructor; auto.
Qed.

Lemma rendered_unfold (v : pv) : rendered v = gen_text (render v).
Proof. reflexivity. Qed.

(** ** Separators (C4, C8) *)

(** C4.  For every non-empty list of objects, [ObjectList.render] yields the
    renderings of the objects joined by a single comma, and for every
    non-empty list of (verb, object list) pairs, [PropertyListNotEmpty.render]
    yields each pair as the verb, a space and the object list, the pairs
    joined by a single semicolon.  [String.concat sep] puts [sep] between
    successive elements only: nothing leads or trails. *)
Theorem ObjectList_and_PropertyListNotEmpty_render_joined
    (objects : list pv) (object_texts : list string)
    (pairs : list (pv * pv)) (pair_texts : list (string * string)) :
  objects <> [] ->
  pairs <> [] ->
  Forall2 (fun o t => rendered o = Ok t) objects object_texts ->
  Forall2 (fun vo t => rendered (fst vo) = Ok (fst t)
                       /\ rendered (snd vo) = Ok (snd t)) pairs pair_texts ->
  rendered (PObj Cls.ObjectList [PList objects])
  = Ok (String.concat "," object_texts)
  /\ rendered (PObj Cls.PropertyListNotEmpty
                 [PList (map (fun vo => PTuple [fst vo; snd vo]) pairs)])
     = Ok (String.concat ";"
             (map (fun t => fst t +:+ " " +:+ snd t) pair_texts)).
Proof.
  intros Hobjects Hpairs Ho Hp. split.
  - unfold rendered. cbn [render].
    unfold ObjectList_render, separated.
    apply gen_text_first_then_rest; [exact Hobjects|].
    clear Hobjects.
    induction Ho as [|o t os ts Hot _ IH]; constructor; [split|exact IH].
    + exact Hot.
    + now apply gen_text_seq.
  - unfold rendered. cbn [render].
    unfold PropertyListNotEmpty_render.
    apply gen_text_first_then_rest.
    + destruct pairs; [congruence | discriminate].
    + clear Hpairs.
      induction Hp as [|vo t ps ts [Hv Hol] _ IH]; cbn [map];
        constructor; [split|exact IH]; cbn [item0 item1];
        gen_text_solve.
Qed.

(** *** Sample trees *)

Definition sample_var (name : string) : pv :=
  PObj Cls.Var [PObj Cls.VAR1 [PStr name]].

Definition sample_iri (ref : string) : pv :=
  PObj Cls.iri [PObj Cls.IRIREF [PStr ref]].

Definition sample_object (name : string) : pv :=
  PObj Cls.Object
    [PObj Cls.GraphNode [PObj Cls.VarOrTerm [sample_var name]]].

Definition sample_verb (name : string) : pv :=
  PObj Cls.Verb [PObj Cls.VarOrIri [sample_var name]].

Definition sample_verb_a : pv := PObj Cls.Verb [PEnum VerbRDFType "A" "a"].

Lemma ObjectList_and_PropertyListNotEmpty_render_joined_witness :
  rendered (PObj Cls.ObjectList
              [PList [sample_object "a"; sample_object "b"; sample_object "c"]])
  = Ok "?a,?b,?c"
  /\ rendered (PObj Cls.PropertyListNotEmpty
       [PList [PTuple [sample_verb "p";
                       PObj Cls.ObjectList [PList [sample_object "a"; sample_object "b"]]];
               PTuple [sample_verb_a;
                       PObj Cls.ObjectList [PList [sample_object "c"]]]]])
     = Ok "?p ?a,?b;a ?c".
Proof.
  apply (ObjectList_and_PropertyListNotEmpty_render_joined
           [sample_object "a"; sample_object "b"; sample_object "c"]
           ["?a"; "?b"; "?c"]
           [(sample_verb "p",
             PObj Cls.ObjectList [PList [sample_object "a"; sample_object "b"]]);
            (sample_verb_a, PObj Cls.ObjectList [PList [sample_object "c"]])]
           [("?p", "?a,?b"); ("a", "?c")]).
  - discriminate.
  - discriminate.
  - repeat constructor.
  - repeat constructor.
Defined.

(** The items of a list with [sep] between successive items. *)
Fixpoint intersperse {A} (sep : A) (items : list A) : list A :=
  match items with
  | [] => []
  | [x] => [x]
  | x :: rest => x :: sep :: intersperse sep rest
  end.

Lemma intersperse_length {A} (sep : A) (items : list A) :
  items <> [] -> length (intersperse sep items) = 2 * length items - 1.
Proof.
  induction items as [|x [|y rest] IH]; intros Hne; [congruence | reflexivity |].
  change (intersperse sep (x :: y :: rest))
    with (x :: sep :: intersperse sep (y :: rest)).
  cbn [length] in *. rewrite IH by discriminate. lia.
Qed.

Definition UNION : string := NL +:+ "UNION" +:+ NL.

(** C8.  For every [GroupOrUnionGraphPattern] holding [n >= 1] group graph
    patterns, the rendered text is a newline and then the texts of the
    patterns joined by the [UNION] token: the token stands between successive
    patterns only.  With the children left as markers, the fragments of the
    node itself are the newline and the patterns with one [UNION] between
    each two: [n] patterns and [n - 1] tokens. *)
Theorem GroupOrUnionGraphPattern_render_union_between
    (ggps : list pv) (texts : list string) :
  ggps <> [] ->
  Forall2 (fun g t => rendered g = Ok t) ggps texts ->
  rendered (PObj Cls.GroupOrUnionGraphPattern [PList ggps])
  = Ok (NL +:+ String.concat UNION texts)
  /\ GroupOrUnionGraphPattern_render yield [PList ggps]
     = Ok (PStr NL :: intersperse (PStr UNION) ggps)
  /\ length (intersperse (PStr UNION) ggps) = 2 * length ggps - 1.
Proof.
  intros Hne H. split; [|split].
  - unfold rendered. cbn [render].
    unfold GroupOrUnionGraphPattern_render.
    destruct H as [|g t ggps texts Hg Hrest]; [congruence|].
    cbn [first_then_rest]. rewrite concat_sep_cons.
    eapply gen_text_seq_eq; [gen_text_solve | | now rewrite append_assoc].
    apply gen_text_gfor. clear -Hrest.
    induction Hrest as [|y u items texts Hy _ IH]; constructor; auto.
    now apply gen_text_seq.
  - unfold GroupOrUnionGraphPattern_render.
    destruct ggps as [|g rest]; [congruence|].
    cbn [first_then_rest]. clear.
    revert g. induction rest as [|y rest IH]; intros g; [reflexivity|].
    specialize (IH y). cbn [gfor] in *.
    unfold gseq, ystr, yield in *.
    destruct (gfor _ rest) as [parts|e] eqn:E.
    + cbn in IH |- *. injection IH as IH. cbn. now rewrite IH.
    + discriminate.
  - now apply intersperse_length.
Qed.

Definition sample_tssp (s p o : string) : pv :=
  PObj Cls.TriplesSameSubjectPath
    [PTuple
       [PObj Cls.VarOrTerm [sample_var s];
        PObj Cls.PropertyListPathNotEmpty
          [PTuple
             [PObj Cls.VerbSimple [sample_var p];
              PObj Cls.ObjectListPath
                [PList [PObj Cls.ObjectPath
                          [PObj Cls.GraphNodePath
                             [PObj Cls.VarOrTerm [sample_var o]]]]]];
           PNone]]].

(** [{ ?s ?p ?o }] *)
Definition sample_ggp (s p o : string) : pv :=
  PObj Cls.GroupGraphPattern
    [PObj Cls.GroupGraphPatternSub
       [PList [PObj Cls.TriplesBlock [sample_tssp s p o; PNone]]; PList []]].

Lemma GroupOrUnionGraphPattern_render_union_between_witness :
  rendered (PObj Cls.GroupOrUnionGraphPattern
              [PList [sample_ggp "s" "p" "o"; sample_ggp "a" "b" "c"]])
  = Ok (NL +:+ "{" +:+ NL +:+ "?s ?p ?o" +:+ NL +:+ "}"
        +:+ NL +:+ "UNION" +:+ NL
        +:+ "{" +:+ NL +:+ "?a ?b ?c" +:+ NL +:+ "}")
  /\ GroupOrUnionGraphPattern_render yield
       [PList [sample_ggp "s" "p" "o"; sample_ggp "a" "b" "c"]]
     = Ok [PStr NL; sample_ggp "s" "p" "o"; PStr UNION; sample_ggp "a" "b" "c"]
  /\ length (intersperse (PStr UNION)
               [sample_ggp "s" "p" "o"; sample_ggp "a" "b" "c"]) = 3.
Proof.
  apply (GroupOrUnionGraphPattern_render_union_between
           [sample_ggp "s" "p" "o"; sample_ggp "a" "b" "c"]
           ["{" +:+ NL +:+ "?s ?p ?o" +:+ NL +:+ "}";
            "{" +:+ NL +:+ "?a ?b ?c" +:+ NL +:+ "}"]).
  - discriminate.
  - repeat constructor.
Defined.

(** ** Builder helpers (C6, C7) *)

Lemma is_PrimaryExpression_inv (v : pv) :
  is_PrimaryExpression v = true -> exists fields, v = PObj Cls.PrimaryExpression fields.
Proof.
  destruct v as [| | | | | | | |c fields]; try discriminate.
  destruct c; try discriminate. intros _. now exists fields.
Qed.

(** C6.  [Filter.filter_relational] returns for no argument.  Its first
    statement calls [UnaryExpression], a class whose schema holds the
    malformed annotation of [AdditiveExpression], so the call raises
    [TypeError] whatever the focus, the comparators and the operator are:
    with operator ["IN"] and a list of two comparators no [Filter] is
    returned, and with a single comparator the assertion that names the
    required operand shape is never reached. *)
Theorem filter_relational_raises_TypeError
    (fullmatch : Regex -> string -> bool) (focus comparators operator : pv) :
  filter_relational fullmatch focus comparators operator
  = Err (TypeError "Too many arguments for typing.List; actual 2, expected 1").
Proof. reflexivity. Qed.

Definition sample_primary (name : string) : pv :=
  PObj Cls.PrimaryExpression [sample_var name].

(** A primary expression under the chain of single-operand expression
    classes, from [UnaryExpression] up to [Expression]. *)(** The tree [Expression.from_primary_expression] builds, with the defaults
    of the omitted fields. *)
Definition expression_of_primary (primary : pv) : pv :=
  PObj Cls.Expression
    [PObj Cls.ConditionalOrExpression
       [PList
          [PObj Cls.ConditionalAndExpression
             [PList
                [PObj Cls.ValueLogical
                   [PObj Cls.RelationalExpression
                      [PObj Cls.NumericExpression
                         [PObj Cls.AdditiveExpression
                            [PObj Cls.MultiplicativeExpression
                               [PObj Cls.UnaryExpression [PNone; primary];
                                PList []];
                             PList []]];
                       PNone; PNone]]]]]]].

Definition is_BlankNode (v : pv) : bool :=
  match v with PObj Cls.BlankNode _ => true | _ => false end.

(** The operand types [from_spo] supports. *)
Definition supported_term (x : pv) : bool := is_Var x || is_iri x || is_BlankNode x.
Definition supported_predicate (x : pv) : bool := is_Var x || is_iri x.

(** The tree of [from_spo] as the spec describes it, assembled by hand field
    by field: a [VarOrTerm] subject (through a [GraphTerm] unless it is a
    variable), a [VerbSimple] or [VerbPath] predicate, and a
    [PropertyListPathNotEmpty] with a single [ObjectListPath] holding the
    object.  Fields that are left out keep their defaults. *)
Definition hand_var_or_term (x : pv) : pv :=
  if is_Var x then PObj Cls.VarOrTerm [x]
  else PObj Cls.VarOrTerm [PObj Cls.GraphTerm [x]].

Definition hand_verb (predicate : pv) : pv :=
  if is_Var predicate then PObj Cls.VerbSimple [predicate]
  else
    PObj Cls.VerbPath
      [PObj Cls.SG_Path
         [PObj Cls.PathAlternative
            [PList
               [PObj Cls.PathSequence
                  [PList
                     [PObj Cls.PathEltOrInverse
                        [PObj Cls.PathElt [PObj Cls.PathPrimary [predicate]; PNone];
                         PBool false]]]]]]].

Definition assembled_by_hand (subject predicate object : pv) : pv :=
  PObj Cls.TriplesSameSubjectPath
    [PTuple
       [hand_var_or_term subject;
        PObj Cls.PropertyListPathNotEmpty
          [PTuple
             [hand_verb predicate;
              PObj Cls.ObjectListPath
                [PList [PObj Cls.ObjectPath
                          [PObj Cls.GraphNodePath [hand_var_or_term object]]]]];
           PNone]]].

Lemma supported_term_inv (x : pv) :
  supported_term x = true ->
  exists fields, x = PObj Cls.Var fields \/ x = PObj Cls.iri fields
                 \/ x = PObj Cls.BlankNode fields.
Proof.
  destruct x as [| | | | | | | |c fields]; try discriminate.
  destruct c; try discriminate; intros _; exists fields; auto.
Qed.

Lemma supported_predicate_inv (x : pv) :
  supported_predicate x = true ->
  exists fields, x = PObj Cls.Var fields \/ x = PObj Cls.iri fields.
Proof.
  destruct x as [| | | | | | | |c fields]; try discriminate.
  destruct c; try discriminate; intros _; exists fields; auto.
Qed.

(** C7.  For every subject, predicate and object of the supported operand
    types, [TriplesSameSubjectPath.from_spo] returns the tree assembled by
    hand from the same nested constructors, so the two render to the same
    text (or fail alike, where an operand has no rendering). *)
Theorem from_spo_is_assembled_by_hand
    (fullmatch : Regex -> string -> bool) (subject predicate object : pv) :
  supported_term subject = true ->
  supported_predicate predicate = true ->
  supported_term object = true ->
  exists t,
    from_spo fullmatch subject predicate object = Ok t
    /\ t = assembled_by_hand subject predicate object
    /\ rendered t = rendered (assembled_by_hand subject predicate object).
Proof.
  intros Hs Hp Ho.
  destruct (supported_term_inv _ Hs) as [fs [-> | [-> | ->]]];
    destruct (supported_predicate_inv _ Hp) as [fp [-> | ->]];
    destruct (supported_term_inv _ Ho) as [fo [-> | [-> | ->]]];
    eexists; (split; [vm_compute; reflexivity | split; reflexivity]).
Qed.

Lemma from_spo_is_assembled_by_hand_witness :
  exists t,
    from_spo (fun _ _ => true)
      (sample_var "s") (sample_iri "http://ex/p") (sample_var "o") = Ok t
    /\ t = assembled_by_hand (sample_var "s") (sample_iri "http://ex/p") (sample_var "o")
    /\ rendered t
       = rendered (assembled_by_hand
                     (sample_var "s") (sample_iri "http://ex/p") (sample_var "o")).
Proof.
  apply (from_spo_is_assembled_by_hand (fun _ _ => true)
           (sample_var "s") (sample_iri "http://ex/p") (sample_var "o"));
    reflexivity.
Defined.

Lemma supported_predicate_cases (x : pv) :
  supported_predicate x = true ->
  is_Var x = true
  \/ (is_Var x = false /\ isinstance_enum x VerbRDFType = false /\ is_iri x = true).
Proof.
  intros H. destruct (supported_predicate_inv _ H) as [fields [-> | ->]]; auto.
Qed.

(** X29.  The text of a triple built by [TriplesSameSubjectPath.from_spo]
    from supported operands: the renderings of the three operands, separated
    by single spaces. *)
Lemma from_spo_rendered
    (fullmatch : Regex -> string -> bool) (subject predicate object : pv)
    (ts tp to : string) :
  supported_term subject = true ->
  supported_predicate predicate = true ->
  supported_term object = true ->
  rendered subject = Ok ts ->
  rendered predicate = Ok tp ->
  rendered object = Ok to ->
  exists t,
    from_spo fullmatch subject predicate object = Ok t
    /\ rendered t = Ok (ts +:+ " " +:+ tp +:+ " " +:+ to).
Proof.
  intros Hs Hp Ho Rs Rp Ro.
  exists (assembled_by_hand subject predicate object). split.
  { destruct (supported_term_inv _ Hs) as [fs [-> | [-> | ->]]];
      destruct (supported_predicate_inv _ Hp) as [fp [-> | ->]];
      destruct (supported_term_inv _ Ho) as [fo [-> | [-> | ->]]];
      vm_compute; reflexivity. }
  unfold assembled_by_hand, hand_var_or_term, hand_verb.
  unfold rendered in *.
  destruct (supported_predicate_cases _ Hp) as [Vp | (Vp & Ep & Ip)];
    rewrite Vp;
    destruct (is_Var subject), (is_Var object);
    cbn -[gseq gen_text String.append];
    rewrite ?Ep, ?Ip;
    gen_text_solve.
Qed.

(** ** Construction-time validation (C2, C10) *)

(** C10.  No [Aggregate] is constructible, with or without a separator or
    the wildcard.  The annotation of its [expression] field names
    [Expression], whose schema reaches the malformed annotation of
    [AdditiveExpression]: every constructor call raises [TypeError] while the
    schema is built, before any field validator runs, and the exception is
    not a validation error. *)
Theorem Aggregate_never_constructs
    (fullmatch : Regex -> string -> bool) (kwargs : list (string * pv)) :
  new fullmatch Cls.Aggregate kwargs
  = Err (TypeError "Too many arguments for typing.List; actual 2, expected 1").
Proof. reflexivity. Qed.

(** What the pairing validator accepts when both fields hold lists: at least
    one primary element, and at least [N - 1] secondary elements when there
    are [N > 1] primary ones. *)
Lemma validate_pairing_lists (msg_none msg_few : string) (primary secondary : list pv) :
  validate_pairing msg_none msg_few [PList primary; PList secondary]
  = if (length primary <? 1)%nat then Err (ValueError msg_none)
    else if (1 <? length primary)%nat && (length secondary <? length primary - 1)%nat
         then Err (ValueError msg_few)
         else Ok tt.
Proof.
  unfold validate_pairing, py_len.
  destruct (Nat.ltb_spec (length primary) 1) as [H1|H1];
    destruct (Z.ltb_spec (Z.of_nat (length primary)) 1) as [H2|H2]; try lia;
    [reflexivity|].
  destruct (Nat.ltb_spec 1 (length primary)) as [H3|H3];
    destruct (Z.gtb_spec (Z.of_nat (length primary)) 1) as [H4|H4]; try lia;
    [|reflexivity].
  destruct (Nat.ltb_spec (length secondary) (length primary - 1)) as [H5|H5];
    destruct (Z.ltb_spec (Z.of_nat (length secondary))
                         (Z.of_nat (length primary) - 1)) as [H6|H6];
    try lia; reflexivity.
Qed.

(** X27.  With a list of [QuadsNotTriples] as secondary field, [Quads]
    constructs exactly as the pairing rule says: no template fails, more than
    one template with fewer than [N - 1] secondary elements fails, and every
    other combination, one template with an empty secondary list among them,
    gives the instance holding the two lists. *)
Lemma Quads_pairing_with_lists (fullmatch : Regex -> string -> bool)
      (templates quads : list pv) :
  forallb (conforms (TCls Cls.TriplesTemplate)) templates = true ->
  forallb (conforms (TCls Cls.QuadsNotTriples)) quads = true ->
  new fullmatch Cls.Quads
    [("triples_templates", PList templates); ("quads_not_triples", PList quads)]
  = if (length templates <? 1)%nat
       || (1 <? length templates)%nat && (length quads <? length templates - 1)%nat
    then Err (ValidationError "validation error for the model")
    else Ok (PObj Cls.Quads [PList templates; PList quads]).
Proof.
  intros Ht Hq.
  cbv -[conforms validate_pairing length Nat.ltb Nat.sub orb andb].
  change (conforms (TList (TCls Cls.TriplesTemplate)) (PList templates))
    with (forallb (conforms (TCls Cls.TriplesTemplate)) templates).
  change (conforms (TOpt (TList (TCls Cls.QuadsNotTriples))) (PList quads))
    with (forallb (conforms (TCls Cls.QuadsNotTriples)) quads).
  rewrite Ht, Hq, validate_pairing_lists.
  destruct (length templates <? 1)%nat; [reflexivity|].
  now destruct ((1 <? length templates)%nat && _).
Qed.

(** [TriplesSameSubject] for the triple [?s ?p ?o]. *)
Definition sample_tss (s p o : string) : pv :=
  PObj Cls.TriplesSameSubject
    [PTuple
       [PObj Cls.VarOrTerm [sample_var s];
        PObj Cls.PropertyListNotEmpty
          [PList [PTuple [sample_verb p;
                          PObj Cls.ObjectList [PList [sample_object o]]]]]]].

(** C2 (the code at the failing inputs).  With the secondary list left out,
    so that the field keeps its default [None], or passed as [None], [Quads]
    raises the [TypeError] of [len(None)] for every list of templates, the
    list of one template among them: the validator takes the length of the
    secondary field before any test.  [GroupGraphPatternSub] raises
    [TypeError] for every argument while its schema is built, so that its
    validator never runs. *)
Theorem pairing_with_absent_secondary_raises_TypeError
    (fullmatch : Regex -> string -> bool) (templates : list pv) :
  forallb (conforms (TCls Cls.TriplesTemplate)) templates = true ->
  new fullmatch Cls.Quads [("triples_templates", PList templates)]
  = Err (TypeError "object has no len()")
  /\ new fullmatch Cls.Quads
       [("triples_templates", PList templates); ("quads_not_triples", PNone)]
     = Err (TypeError "object has no len()")
  /\ (forall kwargs,
         new fullmatch Cls.GroupGraphPatternSub kwargs
         = Err (TypeError "Too many arguments for typing.List; actual 2, expected 1")).
Proof.
  intros Ht.
  split; [|split; [|reflexivity]];
    cbv -[conforms length Z.of_nat];
    change (conforms (TList (TCls Cls.TriplesTemplate)) (PList templates))
      with (forallb (conforms (TCls Cls.TriplesTemplate)) templates);
    now rewrite Ht.
Qed.

Lemma pairing_with_absent_secondary_raises_TypeError_witness :
  new (fun _ _ => true) Cls.Quads
    [("triples_templates",
      PList [PObj Cls.TriplesTemplate [sample_tss "s" "p" "o"; PNone]])]
  = Err (TypeError "object has no len()")
  /\ new (fun _ _ => true) Cls.Quads
       [("triples_templates",
         PList [PObj Cls.TriplesTemplate [sample_tss "s" "p" "o"; PNone]]);
        ("quads_not_triples", PNone)]
     = Err (TypeError "object has no len()")
  /\ (forall kwargs,
         new (fun _ _ => true) Cls.GroupGraphPatternSub kwargs
         = Err (TypeError "Too many arguments for typing.List; actual 2, expected 1")).
Proof.
  apply (pairing_with_absent_secondary_raises_TypeError (fun _ _ => true)
           [PObj Cls.TriplesTemplate [sample_tss "s" "p" "o"; PNone]]).
  reflexivity.
Defined.

(** ** Rendering and collecting on valid trees (C1, C3, C5) *)

(** A triple pattern whose property list was built with an explicit empty
    list of further pairs ([other_pairs=[]]). *)
Definition sample_tssp_other_pairs (s p o : string) : pv :=
  PObj Cls.TriplesSameSubjectPath
    [PTuple
       [PObj Cls.VarOrTerm [sample_var s];
        PObj Cls.PropertyListPathNotEmpty
          [PTuple
             [PObj Cls.VerbSimple [sample_var p];
              PObj Cls.ObjectListPath
                [PList [PObj Cls.ObjectPath
                          [PObj Cls.GraphNodePath
                             [PObj Cls.VarOrTerm [sample_var o]]]]]];
           PList []]]].

(** The constructor calls that build a triples block over such a pattern:
    [TriplesBlock(triples=TriplesSameSubjectPath(content=(VarOrTerm(..),
    PropertyListPathNotEmpty(first_pair=(VerbSimple(..), ObjectListPath(..)),
    other_pairs=[]))))], the variables made by [Var.from_string]. *)
Definition block_with_empty_other_pairs
    (fullmatch : Regex -> string -> bool) (s p o : string) : result pv :=
  construct fullmatch Cls.TriplesBlock
    [("triples",
       construct fullmatch Cls.TriplesSameSubjectPath
         [("content",
            tuple_of
              [construct fullmatch Cls.VarOrTerm
                 [("varorterm", Var_from_string fullmatch (PStr s))];
               construct fullmatch Cls.PropertyListPathNotEmpty
                 [("first_pair",
                    tuple_of
                      [construct fullmatch Cls.VerbSimple
                         [("var", Var_from_string fullmatch (PStr p))];
                       construct fullmatch Cls.ObjectListPath
                         [("object_paths",
                            list_of
                              [construct fullmatch Cls.ObjectPath
                                 [("graph_node_path",
                                    construct fullmatch Cls.GraphNodePath
                                      [("varorterm_or_triplesnodepath",
                                         construct fullmatch Cls.VarOrTerm
                                           [("varorterm",
                                              Var_from_string fullmatch
                                                (PStr o))])])]])]]);
                  ("other_pairs", Ok (PList []))]])])].

(** C1 (the code at failing inputs).  Every [INTEGER] terminal the
    constructor returns, and the [Integer] over it, is a valid tree whose
    rendering raises [TypeError]: the class inherits [Terminal.render], as
    [PNAME_NS] and [PNAME_LN] do.  The triples block over a triple pattern
    built with [other_pairs=[]] is returned by the constructors, and
    [collect_triples] raises [TypeError] on it.  Rendering any
    [GraphPatternNotTriples] raises [NotImplementedError]; no constructor
    call returns one, the schema of the class cannot be built. *)
Theorem render_and_collect_triples_fail_on_valid_trees
    (fullmatch : Regex -> string -> bool) (n s p o : string) :
  fullmatch INTEGER_REGEX n = true ->
  fullmatch VARNAME_REGEX s = true ->
  fullmatch VARNAME_REGEX p = true ->
  fullmatch VARNAME_REGEX o = true ->
  (new fullmatch Cls.INTEGER [("value", PStr n)] = Ok (PObj Cls.INTEGER [PStr n])
   /\ new fullmatch Cls.Integer [("integer", PObj Cls.INTEGER [PStr n])]
      = Ok (PObj Cls.Integer [PObj Cls.INTEGER [PStr n]])
   /\ valid fullmatch (PObj Cls.Integer [PObj Cls.INTEGER [PStr n]]) = true
   /\ rendered (PObj Cls.INTEGER [PStr n])
      = Err (TypeError "exceptions must derive from BaseException")
   /\ rendered (PObj Cls.Integer [PObj Cls.INTEGER [PStr n]])
      = Err (TypeError "exceptions must derive from BaseException"))
  /\ (block_with_empty_other_pairs fullmatch s p o
      = Ok (PObj Cls.TriplesBlock [sample_tssp_other_pairs s p o; PNone])
      /\ valid fullmatch
           (PObj Cls.TriplesBlock [sample_tssp_other_pairs s p o; PNone]) = true
      /\ collect_triples
           (PObj Cls.TriplesBlock [sample_tssp_other_pairs s p o; PNone])
         = Err (TypeError "unhashable type: 'list'"))
  /\ (forall fields,
         render (PObj Cls.PNAME_NS fields)
         = Err (TypeError "exceptions must derive from BaseException")
         /\ render (PObj Cls.PNAME_LN fields)
            = Err (TypeError "exceptions must derive from BaseException")
         /\ render (PObj Cls.INTEGER fields)
            = Err (TypeError "exceptions must derive from BaseException"))
  /\ (forall fields,
         render (PObj Cls.GraphPatternNotTriples fields)
         = Err (NotImplementedError "Subclasses must implement this method."))
  /\ (forall kwargs,
         new fullmatch Cls.GraphPatternNotTriples kwargs
         = Err (TypeError "Too many arguments for typing.List; actual 2, expected 1")).
Proof.
  intros Hn Hs Hp Ho.
  assert (Heq : forall x : string, String.eqb x x = true) by apply String.eqb_refl.
  repeat split; try reflexivity;
    cbv; rewrite ?Hn, ?Hs, ?Hp, ?Ho; try reflexivity;
    repeat match goal with
           | |- context [?f ?x ?x] =>
               match type of x with string => idtac end;
               change (f x x) with (String.eqb x x); rewrite (Heq x)
           end; try reflexivity.
Qed.

Lemma render_and_collect_triples_fail_on_valid_trees_witness :
  valid (fun _ _ => true) (PObj Cls.Integer [PObj Cls.INTEGER [PStr "42"]]) = true
  /\ rendered (PObj Cls.Integer [PObj Cls.INTEGER [PStr "42"]])
     = Err (TypeError "exceptions must derive from BaseException")
  /\ valid (fun _ _ => true)
       (PObj Cls.TriplesBlock [sample_tssp_other_pairs "s" "p" "o"; PNone]) = true
  /\ collect_triples
       (PObj Cls.TriplesBlock [sample_tssp_other_pairs "s" "p" "o"; PNone])
     = Err (TypeError "unhashable type: 'list'").
Proof.
  destruct (render_and_collect_triples_fail_on_valid_trees
              (fun _ _ => true) "42" "s" "p" "o"
              eq_refl eq_refl eq_refl eq_refl)
    as ((_ & _ & Hv & _ & Hr) & (_ & Hv' & Hc) & _).
  exact (conj Hv (conj Hr (conj Hv' Hc))).
Defined.

(** [{ ?s ?p ?o OPTIONAL { ?s ?p ?o } }]: the same triple pattern directly
    in the group and inside an OPTIONAL block. *)
Definition sample_direct_and_optional : pv :=
  PObj Cls.GroupGraphPattern
    [PObj Cls.GroupGraphPatternSub
       [PList [PObj Cls.TriplesBlock [sample_tssp "s" "p" "o"; PNone]];
        PList [PObj Cls.GraphPatternNotTriples
                 [PObj Cls.OptionalGraphPattern [sample_ggp "s" "p" "o"]]]]].

(** The number of occurrences of [x] in [items]. *)
Definition occurrences (x : pv) (items : list pv) : nat :=
  length (filter (fun y => pv_eqb x y = true) items).

(** C3 (the code at the failing input).  [collect_triples] does not walk
    into a [GroupGraphPatternSub], which is no [SPARQLGrammarBase]: on every
    group graph pattern over one it returns the empty list, and the
    [GroupGraphPatternSub] itself has no [collect_triples].  A triple pattern
    that stands both directly in the group and inside an OPTIONAL block
    occurs zero times in the result.  Such a group is no result of a
    constructor call: the constructors of the four classes it is made of
    raise [TypeError] for every argument. *)
Theorem collect_triples_stops_at_GroupGraphPatternSub :
  (forall fields,
      collect_triples
        (PObj Cls.GroupGraphPattern [PObj Cls.GroupGraphPatternSub fields])
      = Ok [])
  /\ (forall fields,
         collect_triples (PObj Cls.GroupGraphPatternSub fields)
         = Err (AttributeError "object has no attribute 'collect_triples'"))
  /\ collect_triples sample_direct_and_optional = Ok []
  /\ (forall triples,
         collect_triples sample_direct_and_optional = Ok triples ->
         occurrences (sample_tssp "s" "p" "o") triples = 0)
  /\ (forall fullmatch cls kwargs,
         In cls [Cls.GroupGraphPattern; Cls.GroupGraphPatternSub;
                 Cls.GraphPatternNotTriples; Cls.OptionalGraphPattern] ->
         new fullmatch cls kwargs
         = Err (TypeError "Too many arguments for typing.List; actual 2, expected 1")).
Proof.
  repeat split; try reflexivity.
  - intros triples [= <-]. reflexivity.
  - intros fm cls kwargs Hin. cbn in Hin.
    destruct Hin as [<- | [<- | [<- | [<- | []]]]]; reflexivity.
Qed.

(** Where a triples block holds the triple, the collector does return it
    once. *)
Lemma collect_triples_of_TriplesBlock_chain :
  collect_triples
    (PObj Cls.TriplesBlock
       [sample_tssp "s" "p" "o";
        PObj Cls.TriplesBlock [sample_tssp "s" "p" "o"; PNone]])
  = Ok [sample_tssp "s" "p" "o"].
Proof. reflexivity. Qed.

(** The deduplication is sound: in the list [collect_triples] returns, no
    element is structurally equal to an earlier one. *)
Lemma distinct_from_spec (items : list pv) :
  forall seen,
    Forall (fun y => existsb (pv_eqb y) seen = false) (distinct_from seen items)
    /\ ForallOrdPairs (fun x y => pv_eqb y x = false) (distinct_from seen items).
Proof.
  induction items as [|x rest IH]; intros seen; cbn [distinct_from].
  - split; constructor.
  - destruct (existsb (pv_eqb x) seen) eqn:Hseen; [apply IH|].
    destruct (IH (x :: seen)) as [Hnew Hpairs]. split.
    + constructor; [exact Hseen|].
      eapply Forall_impl; [exact Hnew|]. cbn. intros y Hy.
      now apply orb_false_elim in Hy.
    + constructor; [|exact Hpairs].
      eapply Forall_impl; [exact Hnew|]. cbn. intros y Hy.
      now apply orb_false_elim in Hy.
Qed.

Lemma collect_triples_no_duplicates (self : pv) (triples : list pv) :
  collect_triples self = Ok triples ->
  ForallOrdPairs (fun x y => pv_eqb y x = false) triples.
Proof.
  destruct self as [| | | | | | | |cls fields]; try discriminate.
  cbn [collect_triples].
  destruct (is_SPARQLGrammarBase cls); [|discriminate].
  match goal with |- (match ?c with _ => _ end) = _ -> _ => destruct c as [found|] end;
    [|discriminate].
  unfold py_list_set. destruct (hash_each found); [|discriminate].
  intros [= <-]. apply distinct_from_spec.
Qed.

(** C5 (the code at the failing input).  [PathNegatedPropertySet.render]
    yields the first alternative before the opening parenthesis: with
    further alternatives the text is the first one followed by the
    parenthesized, bar-separated others.  A single alternative renders
    bare. *)
Theorem PathNegatedPropertySet_render_first_outside
    (first_path : pv) (other_paths : list pv) (t : string) (ts : list string) :
  rendered first_path = Ok t ->
  Forall2 (fun p u => rendered p = Ok u) other_paths ts ->
  rendered (PObj Cls.PathNegatedPropertySet [first_path; PNone]) = Ok t
  /\ rendered (PObj Cls.PathNegatedPropertySet [first_path; PList []]) = Ok t
  /\ (other_paths <> [] ->
      rendered (PObj Cls.PathNegatedPropertySet [first_path; PList other_paths])
      = Ok (t +:+ "(" +:+ String.concat "|" ts +:+ ")")).
Proof.
  intros Hfirst Hothers. unfold rendered in *. cbn [render].
  unfold PathNegatedPropertySet_render. repeat split.
  - cbn [py_truthy]. gen_text_solve.
  - cbn [py_truthy length Nat.eqb negb]. gen_text_solve.
  - intros Hne.
    destruct Hothers as [|p u ps us Hp Hrest]; [congruence|].
    cbn [py_truthy length Nat.eqb negb gwhen first_then_rest].
    rewrite concat_sep_cons.
    assert (Hloop : gen_text (gfor (fun path => ystr "|" >> render path) ps)
                    = Ok (String.concat "" (map (fun x => "|" +:+ x) us))).
    { apply gen_text_gfor. clear -Hrest.
      induction Hrest as [|y v ys vs Hy _ IH]; constructor; auto.
      now apply gen_text_seq. }
    gen_text_solve.
Qed.

Definition sample_path_one (ref : string) : pv :=
  PObj Cls.PathOneInPropertySet [sample_iri ref; PBool false].

Lemma PathNegatedPropertySet_render_first_outside_witness :
  rendered (PObj Cls.PathNegatedPropertySet
              [sample_path_one "a"; PList [sample_path_one "b"; sample_path_one "c"]])
  = Ok "<a>(<b>|<c>)".
Proof.
  apply (PathNegatedPropertySet_render_first_outside
           (sample_path_one "a") [sample_path_one "b"; sample_path_one "c"]
           "<a>" ["<b>"; "<c>"]).
  - reflexivity.
  - repeat constructor.
  - discriminate.
Defined.

(** ** In-place merging (C9) *)

Import Store.

(** [lseg h l ls z e]: following [construct_triples] from [l] visits exactly
    the objects [ls], the last of which is [z] and refers to [e]. *)
Inductive lseg (h : heap) : loc -> list loc -> loc -> option loc -> Prop :=
| lseg_one l o e :
    h !! l = Some o -> construct_triples o = e -> lseg h l [l] l e
| lseg_cons l o n ls z e :
    h !! l = Some o -> construct_triples o = Some n ->
    lseg h n ls z e -> lseg h l (l :: ls) z e.

Lemma lseg_last_in h l ls z e : lseg h l ls z e -> z ∈ ls.
Proof. induction 1; [apply list_elem_of_here | now apply list_elem_of_further]. Qed.

Lemma lseg_first_in h l ls z e : lseg h l ls z e -> l ∈ ls.
Proof. destruct 1; apply list_elem_of_here. Qed.

Lemma lseg_frame (h h' : heap) l ls z e :
  (forall x, x ∈ ls -> h' !! x = h !! x) ->
  lseg h l ls z e -> lseg h' l ls z e.
Proof.
  intros Hsame H. induction H as [l o e Hl He | l o n ls z e Hl Hn _ IH].
  - apply lseg_one with o; [|exact He].
    rewrite Hsame; [exact Hl | apply list_elem_of_here].
  - apply lseg_cons with o n; [|exact Hn|].
    + rewrite Hsame; [exact Hl | apply list_elem_of_here].
    + apply IH. intros x Hx. apply Hsame. now apply list_elem_of_further.
Qed.

Lemma lseg_app h a ls1 z1 b ls2 z2 e :
  lseg h a ls1 z1 (Some b) -> lseg h b ls2 z2 e -> lseg h a (ls1 ++ ls2) z2 e.
Proof.
  intros H1 H2. remember (Some b) as e1 eqn:E.
  induction H1 as [l o e1 Hl He | l o n ls z e1 Hl Hn _ IH]; subst e1; cbn.
  - now apply lseg_cons with o b.
  - apply lseg_cons with o n; auto.
Qed.

(** Relinking the last object of a segment. *)
Lemma lseg_set_last h l ls z e e' :
  NoDup ls -> lseg h l ls z e ->
  lseg (set_construct_triples z e' h) l ls z e'.
Proof.
  intros Hnd H. induction H as [l o e Hl He | l o n ls z e Hl Hn Hrest IH].
  - apply lseg_one with (CT (triples o) e'); [|reflexivity].
    unfold set_construct_triples. rewrite lookup_alter_eq, Hl. reflexivity.
  - apply NoDup_cons in Hnd as [Hnotin Hnd].
    apply lseg_cons with o n; [|exact Hn|now apply IH].
    unfold set_construct_triples. rewrite lookup_alter_ne; [exact Hl|].
    intros ->. apply Hnotin. eapply lseg_last_in; eauto.
Qed.

Lemma walk_to_last_lseg fuel h l ls z :
  lseg h l ls z None -> length ls <= fuel -> walk_to_last fuel h l = Some z.
Proof.
  intros H. remember None as e0 eqn:E. revert fuel.
  induction H as [l o e Hl He | l o n ls z e Hl Hn _ IH]; intros fuel Hfuel;
    (destruct fuel as [|fuel]; [cbn in Hfuel; lia|]); cbn [walk_to_last];
    rewrite Hl.
  - now rewrite He, E.
  - rewrite Hn. apply IH; [exact E|]. cbn in Hfuel. lia.
Qed.

Lemma chains_frame (h h' : heap) (cts : list loc) (segs : list (list loc)) :
  (forall x, x ∈ concat segs -> h' !! x = h !! x) ->
  Forall2 (fun c seg => exists z, lseg h c seg z None) cts segs ->
  Forall2 (fun c seg => exists z, lseg h' c seg z None) cts segs.
Proof.
  intros Hsame H. induction H as [|c seg cts segs [z Hc] _ IH]; constructor.
  - exists z. eapply lseg_frame; [|exact Hc].
    intros x Hx. apply Hsame. cbn. apply elem_of_app. now left.
  - apply IH. intros x Hx. apply Hsame. cbn. apply elem_of_app. now right.
Qed.

(** The state of the store after [merge_ct]'s loop, for input chains that
    share no object. *)
Lemma merge_loop_relinks fuel :
  forall (rest : list loc) (segs : list (list loc)) (h : heap)
         (cur : loc) (seg0 : list loc) (z0 : loc),
    lseg h cur seg0 z0 None ->
    Forall2 (fun c seg => exists z, lseg h c seg z None) rest segs ->
    NoDup (seg0 ++ concat segs) ->
    length seg0 <= fuel ->
    Forall (fun seg => length seg <= fuel) segs ->
    exists h',
      merge_loop fuel h cur rest = Some h'
      /\ (forall l, l ∉ seg0 ++ concat segs -> h' !! l = h !! l)
      /\ (forall l, h !! l = None -> h' !! l = None)
      /\ (forall l o, h !! l = Some o ->
            exists o', h' !! l = Some o' /\ triples o' = triples o
                       /\ (construct_triples o' = construct_triples o
                           \/ construct_triples o = None))
      /\ (exists z, lseg h' cur (seg0 ++ concat segs) z None).
Proof.
  induction rest as [|next rest IH]; intros segs h cur seg0 z0 Hcur Hrest Hnd Hf0 Hfs.
  - apply Forall2_nil_inv_l in Hrest as ->. exists h. cbn [merge_loop concat].
    rewrite app_nil_r. repeat split; eauto.
  - apply Forall2_cons_inv_l in Hrest as (seg1 & segs' & (z1 & Hnext) & Hrest & ->).
    cbn [concat] in *. apply Forall_cons in Hfs as [Hf1 Hfs].
    cbn [merge_loop]. rewrite (walk_to_last_lseg _ _ _ _ _ Hcur Hf0).
    set (h1 := set_construct_triples z0 (Some next) h).
    apply NoDup_app in Hnd as (Hnd0 & Hdisj & Hnd1).
    assert (Hz0 : z0 ∈ seg0) by (eapply lseg_last_in; eauto).
    assert (Hsame1 : forall x, x ∈ seg1 ++ concat segs' -> h1 !! x = h !! x).
    { intros x Hx. unfold h1, set_construct_triples. apply lookup_alter_ne.
      intros ->. now apply (Hdisj _ Hz0). }
    destruct (IH segs' h1 next seg1 z1)
      as (h' & Hloop & Hframe & Hnone & Hfields & (z & Hchain)); auto.
    + eapply lseg_frame; [|exact Hnext]. intros x Hx. apply Hsame1.
      apply elem_of_app. now left.
    + eapply chains_frame; [|exact Hrest]. intros x Hx. apply Hsame1.
      apply elem_of_app. now right.
    + exists h'. split; [exact Hloop|]. repeat split.
      * intros l Hl. rewrite Hframe.
        -- unfold h1, set_construct_triples. apply lookup_alter_ne.
           intros ->. apply Hl. apply elem_of_app. now left.
        -- intros Hin. apply Hl. apply elem_of_app. now right.
      * intros l Hl. apply Hnone. unfold h1, set_construct_triples.
        destruct (decide (z0 = l)) as [->|Hne].
        -- now rewrite lookup_alter_eq, Hl.
        -- now rewrite lookup_alter_ne.
      * intros l o Hl.
        destruct (decide (z0 = l)) as [->|Hne].
        -- assert (H1 : h1 !! l = Some (CT (triples o) (Some next))).
           { unfold h1, set_construct_triples. now rewrite lookup_alter_eq, Hl. }
           destruct (Hfields _ _ H1) as (o' & Ho' & Ht & _).
           exists o'. split; [exact Ho'|]. split; [exact Ht|]. right.
           clear -Hcur Hl. remember None as e eqn:E.
           induction Hcur as [l' o' e Hl' He | l' o' n ls z e Hl' Hn Hrest IH].
           ++ rewrite Hl in Hl'. injection Hl' as <-. now rewrite He.
           ++ now apply IH.
        -- assert (H1 : h1 !! l = Some o).
           { unfold h1, set_construct_triples. now rewrite lookup_alter_ne. }
           destruct (Hfields _ _ H1) as (o' & Ho' & Ht & Hc). eauto.
      * exists z. eapply lseg_app; [|exact Hchain].
        eapply lseg_frame with (h := h1).
        -- intros x Hx. apply Hframe. intros Hin. now apply (Hdisj _ Hx).
        -- now apply lseg_set_last with (e := None).
Qed.

(** Reading a chain back with [to_tss_list] lists the [triples] fields of its
    objects in order. *)
Lemma to_tss_list_lseg fuel :
  forall (h : heap) l ls z,
    lseg h l ls z None -> length ls <= fuel ->
    to_tss_list fuel h (Some l) = Some (map (triples_at h) ls).
Proof.
  induction fuel as [|fuel IH]; intros h l ls z Hseg Hlen.
  - inversion Hseg; subst; cbn in Hlen; lia.
  - inversion Hseg as [l0 o e Hl He|l0 o n ls' z' e Hl Hn Hrest]; subst; cbn [to_tss_list].
    + rewrite Hl, He. unfold triples_at. cbn. rewrite Hl.
      destruct fuel; reflexivity.
    + rewrite Hl, Hn. cbn in Hlen.
      rewrite (IH h n ls' z Hrest) by lia.
      unfold triples_at at 2. cbn. rewrite Hl. reflexivity.
Qed.

(** Every object of a chain is in the store. *)
Lemma lseg_allocated (h : heap) l ls z e :
  lseg h l ls z e -> forall x, x ∈ ls -> is_Some (h !! x).
Proof.
  induction 1 as [l o e Hl He|l o n ls z e Hl Hn Hrest IH]; intros x Hx.
  - apply list_elem_of_singleton in Hx as ->. eauto.
  - apply elem_of_cons in Hx as [->|Hx]; eauto.
Qed.

(** C9, as amended.  [ConstructTriples.merge_ct] merges by relinking in
    place.  Applied to the heads of chains that share no object, it returns
    its first argument itself and allocates nothing; it changes no [triples]
    field and no object outside the input chains; the only fields it assigns
    are [construct_triples] fields that were [None]; and afterwards the chain
    of the first argument runs through the objects of all input chains in
    order. *)
Theorem merge_ct_relinks_in_place
    (fuel : nat) (h : heap) (ct_list : list loc) (segs : list (list loc)) :
  Forall2 (fun c seg => exists z, lseg h c seg z None) ct_list segs ->
  NoDup (concat segs) ->
  Forall (fun seg => length seg <= fuel) segs ->
  exists h',
    merge_ct fuel h ct_list = Some (h', head ct_list)
    /\ dom h' = dom h
    /\ (forall l, l ∉ concat segs -> h' !! l = h !! l)
    /\ (forall l o, h !! l = Some o ->
          exists o', h' !! l = Some o' /\ triples o' = triples o
                     /\ (construct_triples o' = construct_triples o
                         \/ construct_triples o = None))
    /\ (forall first_ct, head ct_list = Some first_ct ->
          exists z, lseg h' first_ct (concat segs) z None).
Proof.
  intros Hchains Hnd Hfuel.
  destruct Hchains as [|first_ct seg0 rest segs [z0 Hfirst] Hrest].
  - exists h. cbn. repeat split; eauto. discriminate.
  - cbn [concat] in *. apply Forall_cons in Hfuel as [Hf0 Hfs].
    destruct (merge_loop_relinks fuel rest segs h first_ct seg0 z0)
      as (h' & Hloop & Hframe & Hnone & Hfields & Hchain); auto.
    exists h'. cbn [merge_ct head]. rewrite Hloop. repeat split; auto.
    + apply set_eq. intros l. rewrite !elem_of_dom. split; intros [o Ho].
      * destruct (h !! l) as [o0|] eqn:E; [eauto|].
        rewrite (Hnone _ E) in Ho. discriminate.
      * destruct (Hfields _ _ Ho) as (o' & Ho' & _). eauto.
    + intros c [= <-]. exact Hchain.
Qed.

(** Two freshly constructed single-node [ConstructTriples] objects. *)
Definition sample_heap : heap :=
  <[1%positive := CT (sample_tss "a" "b" "c") None]>
    (<[2%positive := CT (sample_tss "d" "e" "f") None]> ∅).

Lemma merge_ct_relinks_in_place_witness :
  exists h',
    merge_ct 1 sample_heap [1; 2]%positive = Some (h', Some 1%positive)
    /\ dom h' = dom sample_heap
    /\ (forall l, l ∉ [1; 2]%positive -> h' !! l = sample_heap !! l)
    /\ (forall l o, sample_heap !! l = Some o ->
          exists o', h' !! l = Some o' /\ triples o' = triples o
                     /\ (construct_triples o' = construct_triples o
                         \/ construct_triples o = None))
    /\ (forall first_ct, Some 1%positive = Some first_ct ->
          exists z, lseg h' first_ct [1; 2]%positive z None).
Proof.
  apply (merge_ct_relinks_in_place 1 sample_heap [1; 2]%positive
           [[1]; [2]]%positive).
  - repeat constructor.
    + exists 1%positive. now apply lseg_one with (CT (sample_tss "a" "b" "c") None).
    + exists 2%positive. now apply lseg_one with (CT (sample_tss "d" "e" "f") None).
  - cbn. apply NoDup_cons. split; [|apply NoDup_singleton].
    intros H. apply list_elem_of_singleton in H. discriminate.
  - repeat constructor.
Defined.

(** C9, as stated, fails: merging two single-node objects returns the first
    object itself, whose [construct_triples] field now refers to the second,
    so the tree the first input denotes has changed, and the store holds no
    object that was not there before. *)
Lemma merge_ct_mutates_its_first_input :
  exists h',
    merge_ct 1 sample_heap [1; 2]%positive = Some (h', Some 1%positive)
    /\ tree_of 2 sample_heap 1%positive
       = Some (PObj Cls.ConstructTriples [sample_tss "a" "b" "c"; PNone])
    /\ tree_of 2 h' 1%positive
       = Some (PObj Cls.ConstructTriples
                 [sample_tss "a" "b" "c";
                  PObj Cls.ConstructTriples [sample_tss "d" "e" "f"; PNone]])
    /\ tree_of 2 h' 1%positive <> tree_of 2 sample_heap 1%positive
    /\ dom h' = dom sample_heap.
Proof.
  eexists. split; [reflexivity|]. repeat split; try reflexivity.
  discriminate.
Qed.

(** X14.  What the merge is for: after [merge_ct] on chains that share no
    object, [to_tss_list] on the returned object lists the triples of every
    input chain, in the order of the inputs. *)
Lemma merge_ct_to_tss_list
    (fuel fuel' : nat) (h : heap) (ct_list : list loc) (segs : list (list loc)) :
  Forall2 (fun c seg => exists z, lseg h c seg z None) ct_list segs ->
  NoDup (concat segs) ->
  Forall (fun seg => length seg <= fuel) segs ->
  length (concat segs) <= fuel' ->
  exists h',
    merge_ct fuel h ct_list = Some (h', head ct_list)
    /\ to_tss_list fuel' h' (head ct_list)
       = Some (concat (map (map (triples_at h)) segs)).
Proof.
  intros Hchains Hnd Hfuel Hfuel'.
  destruct Hchains as [|first_ct seg0 rest segs [z0 Hfirst] Hrest].
  - exists h. split; [reflexivity|]. destruct fuel'; reflexivity.
  - cbn [concat] in *. apply Forall_cons in Hfuel as [Hf0 Hfs].
    destruct (merge_loop_relinks fuel rest segs h first_ct seg0 z0)
      as (h' & Hloop & Hframe & Hnone & Hfields & [z Hchain]); auto.
    exists h'. cbn [merge_ct head]. rewrite Hloop. split; [reflexivity|].
    rewrite (to_tss_list_lseg fuel' h' first_ct _ z Hchain Hfuel').
    f_equal. change (map (map (triples_at h)) (seg0 :: segs))
      with (map (triples_at h) seg0 :: map (map (triples_at h)) segs).
    cbn [concat]. rewrite <- concat_map, <- map_app.
    apply map_ext_in. intros x Hx. apply list_elem_of_In in Hx.
    unfold triples_at.
    destruct (lseg_allocated h' _ _ _ _ Hchain x Hx) as [o' Ho'].
    destruct (h !! x) as [o|] eqn:E.
    + destruct (Hfields _ _ E) as (o2 & Ho2 & Ht & _).
      rewrite Ho2. cbn. exact Ht.
    + rewrite (Hnone _ E) in Ho'. discriminate.
Qed.

(** * Further properties of the code *)

(** ** Terminals and the [from_string] helpers *)

(** X1.  Constructing a terminal from a string succeeds exactly when the
    whole string matches the lexical pattern of the terminal's class; the
    instance then holds the string unchanged, and otherwise the constructor
    raises pydantic's [ValidationError]. *)
Theorem Terminal_constructs_iff_fullmatch
    (fullmatch : Regex -> string -> bool) (cls : Cls.t) (pattern : Regex) (s : string) :
  get_regex_pattern cls = Some pattern ->
  new fullmatch cls [("value", PStr s)]
  = if fullmatch pattern s then Ok (PObj cls [PStr s])
    else Err (ValidationError "validation error for the model").
Proof.
  destruct cls; try discriminate; intros [= <-]; cbv;
    destruct (fullmatch _ s); reflexivity.
Qed.

Lemma Terminal_constructs_iff_fullmatch_witness :
  new (fun _ s => String.eqb s "x") Cls.VAR1 [("value", PStr "x")]
  = Ok (PObj Cls.VAR1 [PStr "x"])
  /\ new (fun _ s => String.eqb s "x") Cls.VAR1 [("value", PStr "y z")]
     = Err (ValidationError "validation error for the model").
Proof.
  split.
  - exact (Terminal_constructs_iff_fullmatch
             (fun _ s => String.eqb s "x") Cls.VAR1 VARNAME_REGEX "x" eq_refl).
  - exact (Terminal_constructs_iff_fullmatch
             (fun _ s => String.eqb s "x") Cls.VAR1 VARNAME_REGEX "y z" eq_refl).
Defined.

(** X2.  [Var.from_string(s)] succeeds exactly when [s] is a variable name;
    the variable it returns renders as [?s]. *)
Theorem Var_from_string_renders_question_mark
    (fullmatch : Regex -> string -> bool) (s : string) :
  Var_from_string fullmatch (PStr s)
  = (if fullmatch VARNAME_REGEX s then Ok (PObj Cls.Var [PObj Cls.VAR1 [PStr s]])
     else Err (ValidationError "validation error for the model"))
  /\ rendered (PObj Cls.Var [PObj Cls.VAR1 [PStr s]]) = Ok ("?" +:+ s).
Proof.
  split; [cbv; destruct (fullmatch _ s); reflexivity | reflexivity].
Qed.

(** X3.  [RDFLiteral.from_string(s)] succeeds exactly when [s] matches the
    pattern of [STRING_LITERAL2]; the literal it returns has neither language
    tag nor datatype and renders as [s] between double quotes. *)
Theorem RDFLiteral_from_string_renders_quoted
    (fullmatch : Regex -> string -> bool) (s : string) :
  RDFLiteral_from_string fullmatch (PStr s)
  = (if fullmatch STRING_LITERAL2_REGEX s
     then Ok (PObj Cls.RDFLiteral
                [PObj Cls.String [PObj Cls.STRING_LITERAL2 [PStr s]]; PNone; PNone])
     else Err (ValidationError "validation error for the model"))
  /\ rendered (PObj Cls.RDFLiteral
                 [PObj Cls.String [PObj Cls.STRING_LITERAL2 [PStr s]]; PNone; PNone])
     = Ok (DQ +:+ s +:+ DQ).
Proof.
  split; [cbv; destruct (fullmatch _ s); reflexivity|].
  cbv -[String.append]. string_normalize. reflexivity.
Qed.

(** X4.  [iri.from_string(s)] returns an [iri] over an [IRIREF], rendered as
    [<s>], exactly when [s] matches the pattern of [IRIREF]; otherwise it
    raises [ValueError].  The second attempt passes the string itself as the
    value of a [PrefixedName], which takes a [PNAME_LN] or [PNAME_NS]
    instance, so it never succeeds: no string gives a prefixed name. *)
Theorem iri_from_string_is_IRIREF_or_ValueError
    (fullmatch : Regex -> string -> bool) (s : string) :
  (if fullmatch IRIREF_REGEX s
   then iri_from_string fullmatch (PStr s)
        = Ok (PObj Cls.iri [PObj Cls.IRIREF [PStr s]])
   else exists msg, iri_from_string fullmatch (PStr s) = Err (ValueError msg))
  /\ rendered (PObj Cls.iri [PObj Cls.IRIREF [PStr s]]) = Ok ("<" +:+ s +:+ ">").
Proof.
  split.
  - cbv -[String.append]. destruct (fullmatch _ s); [reflexivity|].
    eexists. reflexivity.
  - cbv -[String.append]. string_normalize. reflexivity.
Qed.

(** ** Expression helpers *)

(** A primary expression under the chain from [UnaryExpression] up to
    [NumericExpression]. *)
Definition numeric_tree (primary : pv) : pv :=
  PObj Cls.NumericExpression
    [PObj Cls.AdditiveExpression
       [PObj Cls.MultiplicativeExpression
          [PObj Cls.UnaryExpression [PNone; primary]; PList []];
        PList []]].

(** Wrapping renders nothing of its own. *)
Lemma gen_text_app_nil (g : gen) : gen_text (g >> gskip) = gen_text g.
Proof.
  destruct g as [parts|e]; [|reflexivity]. cbn. now rewrite app_nil_r.
Qed.

Lemma numeric_tree_rendered (primary : pv) :
  rendered (numeric_tree primary) = rendered primary.
Proof.
  unfold rendered, numeric_tree. cbn -[gen_text].
  destruct (render primary) as [parts|e]; [|reflexivity].
  cbn. now rewrite !app_nil_r.
Qed.

Lemma expression_of_primary_rendered (primary : pv) :
  rendered (expression_of_primary primary) = rendered primary.
Proof.
  unfold rendered, expression_of_primary. cbn -[gen_text].
  destruct (render primary) as [parts|e]; [|reflexivity].
  gwhen_decide. cbn. now rewrite !app_nil_r.
Qed.

(** X5.  The chain of single-operand expression classes adds no text: a
    primary expression under [UnaryExpression], [MultiplicativeExpression],
    [AdditiveExpression] and [NumericExpression], and further under
    [RelationalExpression], [ValueLogical], [ConditionalAndExpression],
    [ConditionalOrExpression] and [Expression], renders as the primary
    expression does, and fails as it does. *)
Theorem expression_wrappers_render_as_operand (primary : pv) :
  rendered (numeric_tree primary) = rendered primary
  /\ rendered (expression_of_primary primary) = rendered primary.
Proof.
  split; [apply numeric_tree_rendered | apply expression_of_primary_rendered].
Qed.

(** [for i, x in enumerate(xs)] with a separator after every item but the
    last is [sep.join]. *)
Lemma gen_text_gfor_enum_sep (body : pv -> gen) (sep : string) (n : nat) :
  forall (items : list pv) (texts : list string) (i : nat),
    Forall2 (fun x t => gen_text (body x) = Ok t) items texts ->
    i + length items = n ->
    gen_text
      (gfor_enum_from
         (fun i x => body x >> gwhen (i <? Z.of_nat n - 1)%Z (ystr sep))
         items (Z.of_nat i))
    = Ok (String.concat sep texts).
Proof.
  intros items texts i H. revert i.
  induction H as [|x t items texts Hx Hrest IH]; intros i Hn; [reflexivity|].
  cbn [gfor_enum_from length] in *.
  replace (Z.of_nat i + 1)%Z with (Z.of_nat (S i)) by lia.
  specialize (IH (S i) ltac:(lia)).
  destruct Hrest as [|y u items texts Hy Hrest].
  - cbn [length] in Hn.
    replace (Z.of_nat i <? Z.of_nat n - 1)%Z with false
      by (symmetry; apply Z.ltb_ge; lia).
    cbn [gwhen gfor_enum_from]. rewrite !gen_text_app_nil. exact Hx.
  - cbn [length] in Hn.
    replace (Z.of_nat i <? Z.of_nat n - 1)%Z with true
      by (symmetry; apply Z.ltb_lt; lia).
    cbn [gwhen].
    change (String.concat sep (t :: u :: texts))
      with (t +:+ sep +:+ String.concat sep (u :: texts)).
    rewrite <- (append_assoc t sep).
    apply gen_text_seq; [|exact IH].
    eapply gen_text_seq_eq; [exact Hx | apply gen_text_ystr | reflexivity].
Qed.

Lemma gen_text_for_sep (body : pv -> gen) (sep : string)
      (items : list pv) (texts : list string) :
  Forall2 (fun x t => gen_text (body x) = Ok t) items texts ->
  gen_text (for_sep (PList items) body sep) = Ok (String.concat sep texts).
Proof.
  intros H. cbn [for_sep].
  now apply (gen_text_gfor_enum_sep body sep (length items) items texts 0).
Qed.

(** The expression [left operator (rights)]: a relational expression over
    an expression list, under the single-operand wrappers. *)
Definition in_expression_tree (left operator : pv) (rights : list pv) : pv :=
  PObj Cls.Expression
    [PObj Cls.ConditionalOrExpression
       [PList
          [PObj Cls.ConditionalAndExpression
             [PList
                [PObj Cls.ValueLogical
                   [PObj Cls.RelationalExpression
                      [numeric_tree left; operator;
                       PObj Cls.ExpressionList
                         [PList (map expression_of_primary rights)]]]]]]]].

(** The wrappers from [ValueLogical] up to [Expression] around a single
    relational expression add no text. *)
Lemma single_wrappers_rendered (x : pv) (t : string) :
  rendered x = Ok t ->
  rendered
    (PObj Cls.Expression
       [PObj Cls.ConditionalOrExpression
          [PList [PObj Cls.ConditionalAndExpression
                    [PList [PObj Cls.ValueLogical [x]]]]]])
  = Ok t.
Proof.
  intros Hx. unfold rendered in *.
  cbn -[gseq gen_text String.append for_sep].
  apply (gen_text_for_sep render " || " _ [t]). constructor; [|constructor].
  cbn -[gseq gen_text String.append for_sep].
  apply (gen_text_for_sep render " && " _ [t]). constructor; [|constructor].
  exact Hx.
Qed.

Lemma py_truthy_PStr (s : string) : s <> "" -> py_truthy (PStr s) = true.
Proof.
  intros H. cbn. apply negb_true_iff. now apply String.eqb_neq.
Qed.

Lemma ExpressionList_of_primaries_rendered (rights : list pv) (ts : list string) :
  Forall2 (fun x t => rendered x = Ok t) rights ts ->
  rendered (PObj Cls.ExpressionList [PList (map expression_of_primary rights)])
  = Ok ("(" +:+ String.concat ", " ts +:+ ")").
Proof.
  intros Hts. destruct Hts as [|r t rights ts Hr Hts]; [reflexivity|].
  unfold rendered.
  cbn -[gseq gen_text String.append for_sep map py_truthy String.concat].
  change (py_truthy (PList (map expression_of_primary (r :: rights)))) with true.
  cbn [negb].
  assert (Hlist : gen_text (for_sep (PList (map expression_of_primary (r :: rights)))
                              render ", ")
                  = Ok (String.concat ", " (t :: ts))).
  { apply gen_text_for_sep.
    assert (H : Forall2 (fun x t => rendered x = Ok t) (r :: rights) (t :: ts))
      by now constructor.
    clear -H. induction H as [|x u xs us Hx _ IH]; constructor; [|exact IH].
    rewrite <- rendered_unfold. now rewrite expression_of_primary_rendered. }
  gen_text_solve.
Qed.

Lemma in_expression_tree_rendered
    (left : pv) (operator : string) (rights : list pv)
    (s : string) (ts : list string) :
  rendered left = Ok s ->
  Forall2 (fun x t => rendered x = Ok t) rights ts ->
  operator <> "" ->
  rendered (in_expression_tree left (PStr operator) rights)
  = Ok (s +:+ " " +:+ operator +:+ " (" +:+ String.concat ", " ts +:+ ")").
Proof.
  intros Hs Hts Hop. apply single_wrappers_rendered.
  pose proof (numeric_tree_rendered left) as Hn. rewrite Hs in Hn.
  pose proof (ExpressionList_of_primaries_rendered _ _ Hts) as He.
  unfold rendered in *.
  remember (numeric_tree left) as N. clear HeqN.
  remember (PObj Cls.ExpressionList [PList (map expression_of_primary rights)]) as E.
  assert (HE : py_truthy E = true) by now subst E.
  clear HeqE.
  cbn -[gseq gen_text String.append py_truthy].
  rewrite (py_truthy_PStr _ Hop), HE. cbn [gwhen].
  gen_text_solve.
Qed.

Lemma filter_of_tree_rendered (e : pv) (t : string) :
  rendered e = Ok t ->
  rendered (PObj Cls.Filter [PObj Cls.Constraint [PObj Cls.BrackettedExpression [e]]])
  = Ok ("FILTER (" +:+ t +:+ ")").
Proof.
  intros He. unfold rendered in *. cbn -[gseq gen_text String.append].
  gen_text_solve.
Qed.

(** X6.  A relational expression over an expression list renders as the left
    operand, the operator between single spaces, and the parenthesized right
    operands joined by a comma and a space (an empty list gives [()]); under
    a bracketted expression, a constraint and a filter it renders as
    [FILTER (s IN (a, b, ...))].  The operator is any non-empty string. *)
Theorem in_expression_renders
    (left : pv) (operator : string) (rights : list pv)
    (s : string) (ts : list string) :
  rendered left = Ok s ->
  Forall2 (fun x t => rendered x = Ok t) rights ts ->
  operator <> "" ->
  rendered (in_expression_tree left (PStr operator) rights)
  = Ok (s +:+ " " +:+ operator +:+ " (" +:+ String.concat ", " ts +:+ ")")
  /\ rendered
       (PObj Cls.Filter
          [PObj Cls.Constraint
             [PObj Cls.BrackettedExpression
                [in_expression_tree left (PStr operator) rights]]])
     = Ok ("FILTER (" +:+ s +:+ " " +:+ operator +:+ " ("
           +:+ String.concat ", " ts +:+ "))").
Proof.
  intros Hs Hts Hop.
  pose proof (in_expression_tree_rendered _ _ _ _ _ Hs Hts Hop) as He.
  split; [exact He|].
  rewrite (filter_of_tree_rendered _ _ He).
  f_equal. string_normalize. reflexivity.
Qed.

Lemma in_expression_renders_witness :
  rendered (in_expression_tree (sample_primary "s") (PStr "NOT IN")
              [sample_primary "a"; sample_primary "b"; sample_primary "c"])
  = Ok "?s NOT IN (?a, ?b, ?c)"
  /\ rendered
       (PObj Cls.Filter
          [PObj Cls.Constraint
             [PObj Cls.BrackettedExpression
                [in_expression_tree (sample_primary "s") (PStr "NOT IN")
                   [sample_primary "a"; sample_primary "b"; sample_primary "c"]]]])
     = Ok "FILTER (?s NOT IN (?a, ?b, ?c))".
Proof.
  apply (in_expression_renders (sample_primary "s") "NOT IN"
           [sample_primary "a"; sample_primary "b"; sample_primary "c"]
           "?s" ["?a"; "?b"; "?c"]);
    [reflexivity | repeat constructor | discriminate].
Defined.

(** The filter [FILTER (focus operator comparator)]: a relational expression
    over two numeric expressions, under the single-operand wrappers, a
    bracketted expression and a constraint. *)
Definition comparison_filter_tree (focus operator comparator : pv) : pv :=
  PObj Cls.Filter
    [PObj Cls.Constraint
       [PObj Cls.BrackettedExpression
          [PObj Cls.Expression
             [PObj Cls.ConditionalOrExpression
                [PList
                   [PObj Cls.ConditionalAndExpression
                      [PList
                         [PObj Cls.ValueLogical
                            [PObj Cls.RelationalExpression
                               [numeric_tree focus; operator;
                                numeric_tree comparator]]]]]]]]]].

(** X8.  A filter over a relational expression with two operands renders as
    [FILTER (s op c)], whatever the operator is: [RelationalExpression.render]
    does not check it against the relational operators.  With the empty
    string as operator the right operand is dropped and the filter renders
    as [FILTER (s)]. *)
Theorem comparison_filter_renders
    (focus comparator : pv) (operator s c : string) :
  rendered focus = Ok s ->
  rendered comparator = Ok c ->
  rendered (comparison_filter_tree focus (PStr operator) comparator)
  = Ok (if String.eqb operator "" then "FILTER (" +:+ s +:+ ")"
        else "FILTER (" +:+ s +:+ " " +:+ operator +:+ " " +:+ c +:+ ")").
Proof.
  intros Hs Hcs. unfold comparison_filter_tree.
  pose proof (numeric_tree_rendered focus) as Hn. rewrite Hs in Hn.
  pose proof (numeric_tree_rendered comparator) as Hm. rewrite Hcs in Hm.
  remember (numeric_tree focus) as N.
  remember (numeric_tree comparator) as M.
  assert (HM : py_truthy M = true) by now subst M.
  clear HeqN HeqM.
  assert (Hrel : rendered (PObj Cls.RelationalExpression [N; PStr operator; M])
                 = Ok (if String.eqb operator "" then s
                       else s +:+ " " +:+ operator +:+ " " +:+ c)).
  { unfold rendered in *. cbn -[gseq gen_text String.append py_truthy].
    rewrite HM. cbn [py_truthy].
    destruct (String.eqb operator ""); cbn [negb gwhen].
    - now rewrite gen_text_app_nil.
    - gen_text_solve. }
  rewrite (filter_of_tree_rendered _ _ (single_wrappers_rendered _ _ Hrel)).
  destruct (String.eqb operator ""); [reflexivity|].
  f_equal. string_normalize. reflexivity.
Qed.

Lemma comparison_filter_renders_witness :
  rendered (comparison_filter_tree (sample_primary "x") (PStr "<=")
              (sample_primary "y"))
  = Ok "FILTER (?x <= ?y)".
Proof.
  exact (comparison_filter_renders (sample_primary "x") (sample_primary "y")
           "<=" "?x" "?y" eq_refl eq_refl).
Defined.

(** ** Helpers that cannot succeed *)

(** X10.  The helpers that build expressions return for no argument.
    [Expression.from_primary_expression] and
    [Expression.create_in_expression] call [UnaryExpression] first, and
    [BuiltInCall.create_with_n_expr] and [BuiltInCall.create_with_one_expr]
    call [Expression.from_primary_expression] or, for an empty list,
    [BuiltInCall]: the schema of each of these classes reaches the malformed
    annotation of [AdditiveExpression], so the first constructor call raises
    [TypeError]. *)
Theorem expression_helpers_raise_TypeError
    (fullmatch : Regex -> string -> bool)
    (primary operator rights function_name : pv) (expressions : list pv) :
  from_primary_expression fullmatch primary
  = Err (TypeError "Too many arguments for typing.List; actual 2, expected 1")
  /\ create_in_expression fullmatch primary operator rights
     = Err (TypeError "Too many arguments for typing.List; actual 2, expected 1")
  /\ create_with_n_expr fullmatch function_name (PList expressions)
     = Err (TypeError "Too many arguments for typing.List; actual 2, expected 1")
  /\ create_with_one_expr fullmatch function_name primary
     = Err (TypeError "Too many arguments for typing.List; actual 2, expected 1").
Proof.
  repeat split; try reflexivity.
  destruct expressions; reflexivity.
Qed.

(** X11.  [TriplesSameSubject.from_spo] never returns a tree.  An unsupported
    subject or predicate raises the [ValueError] that names it; with a
    supported subject and predicate the call [Verb(varoriri=...)] misses the
    model's required field [varoriri_or_a] and raises pydantic's
    [ValidationError], before the object is looked at. *)
Theorem TriplesSameSubject_from_spo_never_returns
    (fullmatch : Regex -> string -> bool) (subject predicate object : pv) :
  TriplesSameSubject_from_spo fullmatch subject predicate object
  = if supported_term subject then
      if supported_predicate predicate
      then Err (ValidationError "validation error for the model")
      else Err (ValueError "p must be a Var or iri")
    else Err (ValueError "s must be a Var, iri or BlankNode").
Proof.
  unfold TriplesSameSubject_from_spo.
  destruct (supported_term subject) eqn:Hs.
  - destruct (supported_term_inv _ Hs) as [fs [-> | [-> | ->]]];
      (destruct (supported_predicate predicate) eqn:Hp;
       [ destruct (supported_predicate_inv _ Hp) as [fp [-> | ->]]; reflexivity
       | unfold supported_predicate in Hp; cbn -[is_Var is_iri orb];
         rewrite Hp; reflexivity ]).
  - unfold supported_term in Hs.
    apply orb_false_iff in Hs as [[Hv Hi]%orb_false_iff Hb].
    unfold var_or_term_of, is_iri_or_BlankNode.
    destruct subject as [| | | | | | | |c fields]; try reflexivity.
    destruct c; try reflexivity; discriminate.
Qed.

(** X12.  [TriplesSameSubjectPath.from_spo] checks its operands in the order
    subject, predicate, object and raises the [ValueError] that names the
    first unsupported one. *)
Theorem from_spo_unsupported_operand
    (fullmatch : Regex -> string -> bool) (subject predicate object : pv) :
  supported_term subject && supported_predicate predicate && supported_term object
  = false ->
  from_spo fullmatch subject predicate object
  = Err (ValueError
           (if negb (supported_term subject) then "s must be a Var, iri or BlankNode"
            else if negb (supported_predicate predicate) then "p must be a Var or iri"
            else "o must be a Var, iri or BlankNode")).
Proof.
  assert (Hbad : forall x msg,
             supported_term x = false ->
             var_or_term_of fullmatch x msg = Err (ValueError msg)).
  { intros x msg Hx. unfold supported_term in Hx.
    apply orb_false_iff in Hx as [[Hv Hi]%orb_false_iff Hb].
    unfold var_or_term_of, is_iri_or_BlankNode.
    destruct x as [| | | | | | | |c fields]; try reflexivity.
    destruct c; try reflexivity; discriminate. }
  intros H. unfold from_spo.
  destruct (supported_term subject) eqn:Hs; cbn [negb].
  - destruct (supported_term_inv _ Hs) as [fs Hsubj].
    destruct (supported_predicate predicate) eqn:Hp; cbn [negb].
    + cbn [andb] in H. rewrite (Hbad _ _ H).
      destruct (supported_predicate_inv _ Hp) as [fp [-> | ->]];
        destruct Hsubj as [-> | [-> | ->]]; reflexivity.
    + unfold supported_predicate in Hp.
      apply orb_false_iff in Hp as [Hv Hi]. rewrite Hv, Hi.
      destruct Hsubj as [-> | [-> | ->]]; reflexivity.
  - now rewrite (Hbad _ _ Hs).
Qed.

Lemma from_spo_unsupported_operand_witness :
  from_spo (fun _ _ => true) (sample_var "s") (PStr "p") (PInt 3)
  = Err (ValueError "p must be a Var or iri").
Proof.
  exact (from_spo_unsupported_operand (fun _ _ => true)
           (sample_var "s") (PStr "p") (PInt 3) eq_refl).
Defined.

(** ** Building and reading [ConstructTriples] chains *)

Import Store StoreBuild.

(** Reading a chain does not depend on objects added to the store. *)
Lemma to_tss_list_extend (fuel : nat) :
  forall (h h' : heap) (ct : option loc) (tss_list : list pv),
    h ⊆ h' ->
    to_tss_list fuel h ct = Some tss_list ->
    to_tss_list fuel h' ct = Some tss_list.
Proof.
  induction fuel as [|fuel IH]; intros h h' ct tss_list Hsub;
    destruct ct as [l|]; cbn [to_tss_list]; try easy.
  destruct (h !! l) as [o|] eqn:Hl; [|discriminate].
  rewrite (lookup_weaken _ _ _ _ Hl Hsub).
  destruct (to_tss_list fuel h (construct_triples o)) as [rest|] eqn:Hrest;
    [|discriminate].
  now rewrite (IH _ _ _ _ Hsub Hrest).
Qed.

Lemma alloc_extends (o : ConstructTriples) (h : heap) :
  h ⊆ fst (alloc o h) /\ fst (alloc o h) !! snd (alloc o h) = Some o
  /\ h !! snd (alloc o h) = None.
Proof.
  unfold alloc. cbn [fst snd].
  assert (Hfresh : h !! fresh (dom h) = None)
    by (apply not_elem_of_dom, is_fresh).
  split; [now apply insert_subseteq|]. split; [apply lookup_insert_eq | exact Hfresh].
Qed.

Lemma from_tss_loop_spec (tss_iter : list pv) :
  forall (h : heap) (ct : loc) (acc : list pv),
    forallb (conforms (TCls Cls.TriplesSameSubject)) tss_iter = true ->
    to_tss_list (length acc) h (Some ct) = Some acc ->
    exists h' ct',
      from_tss_loop tss_iter ct h = Ok (h', ct')
      /\ h ⊆ h'
      /\ to_tss_list (length tss_iter + length acc) h' (Some ct')
         = Some (rev tss_iter ++ acc).
Proof.
  induction tss_iter as [|tss rest IH]; intros h ct acc Hc Hacc.
  - exists h, ct. repeat split; [reflexivity | exact Hacc].
  - cbn [forallb] in Hc. apply andb_true_iff in Hc as [Htss Hrest].
    cbn [from_tss_loop]. unfold new_ConstructTriples. rewrite Htss.
    destruct (alloc_extends (CT tss (Some ct)) h) as (Hsub & Hnew & _).
    destruct (IH (fst (alloc (CT tss (Some ct)) h))
                 (snd (alloc (CT tss (Some ct)) h)) (tss :: acc) Hrest)
      as (h' & ct' & Hloop & Hsub' & Hread).
    { cbn [length to_tss_list]. rewrite Hnew. cbn [construct_triples triples].
      now rewrite (to_tss_list_extend _ _ _ _ _ Hsub Hacc). }
    exists h', ct'. split; [exact Hloop|]. split; [now transitivity (fst (alloc (CT tss (Some ct)) h))|].
    cbn [length rev]. rewrite <- app_assoc. cbn [app].
    replace (S (length rest) + length acc) with (length rest + length (tss :: acc))
      by (cbn [length]; lia).
    exact Hread.
Qed.

(** X13.  [ConstructTriples.from_tss_list] followed by [to_tss_list] gives
    the list back in reverse order: every element is wrapped around the chain
    built so far, so the last element of the list ends up first.  The objects
    are new ones; no object that was in the store is changed.  On the empty
    list the method raises [StopIteration]. *)
Theorem from_tss_list_to_tss_list_reverses (tss_list : list pv) (h : heap) :
  forallb (conforms (TCls Cls.TriplesSameSubject)) tss_list = true ->
  tss_list <> [] ->
  exists h' ct,
    from_tss_list tss_list h = Returns (h', ct)
    /\ to_tss_list (length tss_list) h' (Some ct) = Some (rev tss_list)
    /\ h ⊆ h'
    /\ from_tss_list [] h = RaisesStopIteration.
Proof.
  intros Hc Hne. destruct tss_list as [|first_tss tss_iter]; [congruence|].
  cbn [forallb] in Hc. apply andb_true_iff in Hc as [Hfirst Hrest].
  cbn [from_tss_list]. unfold new_ConstructTriples. rewrite Hfirst.
  destruct (alloc_extends (CT first_tss None) h) as (Hsub & Hnew & _).
  destruct (from_tss_loop_spec tss_iter
              (fst (alloc (CT first_tss None) h))
              (snd (alloc (CT first_tss None) h)) [first_tss] Hrest)
    as (h' & ct' & Hloop & Hsub' & Hread).
  { cbn [length to_tss_list]. now rewrite Hnew. }
  exists h', ct'. rewrite Hloop. split; [reflexivity|].
  split; [|split; [now transitivity (fst (alloc (CT first_tss None) h)) | reflexivity]].
  cbn [length rev]. replace (S (length tss_iter)) with (length tss_iter + length [first_tss])
    by (cbn [length]; lia).
  exact Hread.
Qed.

Lemma from_tss_list_to_tss_list_reverses_witness :
  exists h' ct,
    from_tss_list [sample_tss "a" "b" "c"; sample_tss "d" "e" "f"] ∅
    = Returns (h', ct)
    /\ to_tss_list 2 h' (Some ct)
       = Some [sample_tss "d" "e" "f"; sample_tss "a" "b" "c"]
    /\ (∅ : heap) ⊆ h'
    /\ from_tss_list [] (∅ : heap) = RaisesStopIteration.
Proof.
  apply (from_tss_list_to_tss_list_reverses
           [sample_tss "a" "b" "c"; sample_tss "d" "e" "f"] ∅);
    [reflexivity | discriminate].
Defined.

Lemma merge_ct_to_tss_list_witness :
  exists h',
    merge_ct 1 sample_heap [1; 2]%positive = Some (h', Some 1%positive)
    /\ to_tss_list 2 h' (Some 1%positive)
       = Some [sample_tss "a" "b" "c"; sample_tss "d" "e" "f"].
Proof.
  apply (merge_ct_to_tss_list 1 2 sample_heap [1; 2]%positive [[1]; [2]]%positive).
  - repeat constructor.
    + exists 1%positive. now apply lseg_one with (CT (sample_tss "a" "b" "c") None).
    + exists 2%positive. now apply lseg_one with (CT (sample_tss "d" "e" "f") None).
  - cbn. apply NoDup_cons. split; [|apply NoDup_singleton].
    intros H. apply list_elem_of_singleton in H. discriminate.
  - repeat constructor.
  - cbn. lia.
Defined.

(** After the last object of a chain is linked back to the first, every
    object of the chain has a successor in the chain. *)
Lemma relinked_chain_has_no_end (h : heap) (l z : loc) (ls : list loc) :
  l ∈ ls ->
  forall a ls',
    lseg h a ls' z None ->
    (forall x, x ∈ ls' -> x ∈ ls) ->
    forall x, x ∈ ls' ->
      exists o n, set_construct_triples z (Some l) h !! x = Some o
                  /\ construct_triples o = Some n /\ n ∈ ls.
Proof.
  intros Hl a ls' Hseg. remember None as e eqn:He.
  induction Hseg as [a o e Ha Hnext|a o n ls' z e Ha Hnext Hrest IH];
    intros Hsub x Hx; subst e.
  - apply list_elem_of_singleton in Hx as ->.
    exists (CT (triples o) (Some l)), l. unfold set_construct_triples.
    rewrite lookup_alter_eq, Ha. auto.
  - apply elem_of_cons in Hx as [->|Hx].
    + exists o, n. unfold set_construct_triples.
      assert (a <> z).
      { intros ->. pose proof (lseg_last_in _ _ _ _ _ Hrest) as Hz.
        clear -Ha Hnext Hrest. 
        assert (Hend : exists oz, h !! z = Some oz /\ construct_triples oz = None).
        { clear Ha Hnext. remember None as e eqn:He.
          induction Hrest; subst; eauto. }
        destruct Hend as (oz & Hoz & Hnone). congruence. }
      rewrite lookup_alter_ne by congruence.
      split; [exact Ha|]. split; [exact Hnext|].
      apply Hsub. apply elem_of_cons. right. eapply lseg_first_in, Hrest.
    + apply IH; auto. intros y Hy. apply Hsub. apply elem_of_cons. now right.
Qed.

(** X15.  Merging an object with itself makes a cycle.  [merge_ct([ct, ct])]
    links the last object of [ct]'s chain back to [ct] and returns [ct];
    afterwards the loop of [to_tss_list] on the result never reaches a [None]
    tail: it gives no list for any number of steps. *)
Theorem merge_ct_with_itself_makes_a_cycle
    (fuel : nat) (h : heap) (l z : loc) (ls : list loc) :
  lseg h l ls z None ->
  length ls <= fuel ->
  exists h',
    merge_ct fuel h [l; l] = Some (h', Some l)
    /\ (exists o, h' !! z = Some o /\ construct_triples o = Some l)
    /\ (forall steps, to_tss_list steps h' (Some l) = None).
Proof.
  intros Hseg Hfuel.
  exists (set_construct_triples z (Some l) h).
  cbn [merge_ct merge_loop]. rewrite (walk_to_last_lseg _ _ _ _ _ Hseg Hfuel).
  split; [reflexivity|]. split.
  - assert (Hend : exists oz, h !! z = Some oz).
    { clear Hfuel. induction Hseg; eauto. }
    destruct Hend as [oz Hoz]. exists (CT (triples oz) (Some l)).
    unfold set_construct_triples. rewrite lookup_alter_eq, Hoz. auto.
  - pose proof (lseg_first_in _ _ _ _ _ Hseg) as Hl.
    assert (Hall : forall steps x, x ∈ ls ->
               to_tss_list steps (set_construct_triples z (Some l) h) (Some x) = None).
    { induction steps as [|steps IH]; intros x Hx; [reflexivity|].
      destruct (relinked_chain_has_no_end h l z ls Hl l ls Hseg (fun _ H => H) x Hx)
        as (o & n & Ho & Hn & Hin).
      cbn [to_tss_list]. rewrite Ho, Hn. now rewrite (IH n Hin). }
    intros steps. now apply Hall.
Qed.

Lemma merge_ct_with_itself_makes_a_cycle_witness :
  exists h',
    merge_ct 1 sample_heap [1; 1]%positive = Some (h', Some 1%positive)
    /\ (exists o, h' !! 1%positive = Some o /\ construct_triples o = Some 1%positive)
    /\ (forall steps, to_tss_list steps h' (Some 1%positive) = None).
Proof.
  apply (merge_ct_with_itself_makes_a_cycle 1 sample_heap 1 1 [1]%positive).
  - now apply lseg_one with (CT (sample_tss "a" "b" "c") None).
  - cbn. lia.
Defined.

(** ** Structural equality and the triple collector *)

(** Induction over values, with the induction hypothesis for every item of a
    list, of a tuple and of an object's fields. *)
Lemma pv_nested_ind (P : pv -> Prop) :
  P PNone ->
  (forall b, P (PBool b)) ->
  (forall z, P (PInt z)) ->
  (forall s, P (PStr s)) ->
  (forall e name value, P (PEnum e name value)) ->
  (forall items, Forall P items -> P (PList items)) ->
  (forall items, Forall P items -> P (PTuple items)) ->
  (forall id, P (PAnon id)) ->
  (forall cls fields, Forall P fields -> P (PObj cls fields)) ->
  forall v, P v.
Proof.
  intros HNone HBool HInt HStr HEnum HList HTuple HAnon HObj.
  fix IH 1. intros v.
  destruct v as [| | | | |items|items| |cls items];
    [exact HNone | apply HBool | apply HInt | apply HStr | apply HEnum
    | apply HList | apply HTuple | apply HAnon | apply HObj];
    (revert items; fix IHl 1; intros [|x items]; constructor;
     [apply IH | apply IHl]).
Qed.

Lemma Cls_eqb_eq (a b : Cls.t) : Cls.eqb a b = true -> a = b.
Proof.
  unfold Cls.eqb. intros H. apply Pos.eqb_eq in H.
  destruct a; cbn in H; destruct b; try reflexivity; discriminate H.
Qed.

Lemma EnumCls_eqb_eq (a b : EnumCls) : EnumCls_eqb a b = true -> a = b.
Proof. destruct a, b; try reflexivity; discriminate. Qed.

(** [pv_eqb] on the items of two sequences. *)
Definition pv_list_eqb : list pv -> list pv -> bool :=
  fix list_eqb (l l' : list pv) {struct l} : bool :=
    match l, l' with
    | [], [] => true
    | x :: r, y :: r' => pv_eqb x y && list_eqb r r'
    | _, _ => false
    end.

Lemma pv_list_eqb_eq (items : list pv) :
  Forall (fun a => forall b, pv_eqb a b = true -> a = b) items ->
  forall items', pv_list_eqb items items' = true -> items = items'.
Proof.
  induction 1 as [|x items Hx _ IH]; intros [|y items'] H; try discriminate;
    [reflexivity|].
  cbn [pv_list_eqb] in H. apply andb_true_iff in H as [Hxy Hrest].
  f_equal; [now apply Hx | now apply IH].
Qed.

(** Structural equality is equality of the embedded values. *)
Lemma pv_eqb_eq (a : pv) : forall b, pv_eqb a b = true -> a = b.
Proof.
  induction a as [|x|x|x|e n v|items IH|items IH|i|c items IH] using pv_nested_ind;
    intros b H; destruct b; try discriminate H; cbn [pv_eqb] in H.
  - reflexivity.
  - apply Bool.eqb_prop in H. now subst.
  - apply Z.eqb_eq in H. now subst.
  - apply String.eqb_eq in H. now subst.
  - apply andb_true_iff in H as [[He Hn]%andb_true_iff Hv].
    apply EnumCls_eqb_eq in He. apply String.eqb_eq in Hn, Hv. now subst.
  - f_equal. now apply (pv_list_eqb_eq items IH).
  - f_equal. now apply (pv_list_eqb_eq items IH).
  - apply Nat.eqb_eq in H. now subst.
  - apply andb_true_iff in H as [Hc Hf]. apply Cls_eqb_eq in Hc.
    f_equal; [exact Hc | now apply (pv_list_eqb_eq items IH)].
Qed.

Lemma pv_list_eqb_refl (items : list pv) :
  Forall (fun a => pv_eqb a a = true) items -> pv_list_eqb items items = true.
Proof.
  induction 1 as [|x items Hx _ IH]; [reflexivity|].
  cbn [pv_list_eqb]. now rewrite Hx, IH.
Qed.

Lemma pv_eqb_refl (a : pv) : pv_eqb a a = true.
Proof.
  induction a as [|x|x|x|e n v|items IH|items IH|i|c items IH] using pv_nested_ind;
    cbn [pv_eqb].
  - reflexivity.
  - now destruct x.
  - apply Z.eqb_refl.
  - apply String.eqb_refl.
  - unfold EnumCls_eqb. now rewrite !String.eqb_refl.
  - now apply pv_list_eqb_refl.
  - now apply pv_list_eqb_refl.
  - apply Nat.eqb_refl.
  - unfold Cls.eqb. rewrite Pos.eqb_refl. now apply pv_list_eqb_refl.
Qed.

Lemma pv_eqb_spec (a b : pv) : pv_eqb a b = true <-> a = b.
Proof. split; [apply pv_eqb_eq | intros ->; apply pv_eqb_refl]. Qed.

(** X16.  The list [collect_triples] returns holds no value twice: the
    deduplication through [set] compares the collected triples structurally,
    with all their content. *)
Theorem collect_triples_result_has_no_duplicates (self : pv) (triples : list pv) :
  collect_triples self = Ok triples -> NoDup triples.
Proof.
  intros H. apply collect_triples_no_duplicates in H.
  induction H as [|x triples Hx _ IH]; constructor; [|exact IH].
  intros Hin. rewrite Forall_forall in Hx.
  specialize (Hx _ Hin).
  now rewrite pv_eqb_refl in Hx.
Qed.

Lemma collect_triples_result_has_no_duplicates_witness :
  NoDup [sample_tssp "s" "p" "o"; sample_tssp "x" "y" "z"].
Proof.
  exact (collect_triples_result_has_no_duplicates
           (PObj Cls.TriplesBlock
              [sample_tssp "s" "p" "o";
               PObj Cls.TriplesBlock
                 [sample_tssp "x" "y" "z";
                  PObj Cls.TriplesBlock [sample_tssp "s" "p" "o"; PNone]]])
           [sample_tssp "s" "p" "o"; sample_tssp "x" "y" "z"] eq_refl).
Defined.

(** [occurs_in x v]: the value [x] is [v] itself, a field of it, an item of
    one of its lists, or occurs in one of those. *)
Inductive occurs_in (x : pv) : pv -> Prop :=
| occurs_here : occurs_in x x
| occurs_in_field cls fields f :
    f ∈ fields -> occurs_in x f -> occurs_in x (PObj cls fields)
| occurs_in_item items i :
    i ∈ items -> occurs_in x i -> occurs_in x (PList items).

Lemma distinct_from_elem (items : list pv) :
  forall seen x,
    x ∈ distinct_from seen items <-> x ∈ items /\ existsb (pv_eqb x) seen = false.
Proof.
  induction items as [|y items IH]; intros seen x; cbn [distinct_from].
  - split; [intros H; inversion H | intros [H _]; inversion H].
  - destruct (existsb (pv_eqb y) seen) eqn:Hy.
    + rewrite IH, elem_of_cons. split; [intros [H1 H2]; auto|].
      intros [[-> | H1] H2]; [congruence | auto].
    + rewrite !elem_of_cons, IH. cbn [existsb]. split.
      * intros [-> | [H1 H2]]; [auto|].
        apply orb_false_iff in H2 as [_ H2]. auto.
      * intros [[-> | H1] H2]; [auto|].
        destruct (pv_eqb x y) eqn:Hxy.
        -- left. now apply pv_eqb_eq.
        -- right. split; [exact H1 | exact H2].
Qed.

Lemma collect_each_Forall (f : pv -> result (list pv)) (R : pv -> pv -> Prop)
      (items : list pv) :
  Forall (fun x => forall l, f x = Ok l -> Forall (R x) l) items ->
  forall found,
    collect_each f items = Ok found ->
    Forall (fun t => exists x, x ∈ items /\ R x t) found.
Proof.
  induction 1 as [|x items Hx _ IH]; intros found H; cbn [collect_each] in H.
  - injection H as <-. constructor.
  - destruct (f x) as [a|] eqn:Ha; [|discriminate].
    destruct (collect_each f items) as [b|] eqn:Hb; [|discriminate].
    injection H as <-. apply Forall_app. split.
    + eapply Forall_impl; [exact (Hx _ eq_refl)|].
      intros t Ht. exists x. split; [apply elem_of_cons; now left | exact Ht].
    + eapply Forall_impl; [exact (IH _ eq_refl)|].
      intros t (y & Hy & Ht). exists y. split; [apply elem_of_cons; now right | exact Ht].
Qed.

(** X17.  [collect_triples] returns nothing but [TriplesSameSubjectPath]
    instances, and each of them occurs in the object it was called on. *)
Theorem collect_triples_returns_triples_of_the_tree (self : pv) (triples : list pv) :
  collect_triples self = Ok triples ->
  Forall (fun t => is_TriplesSameSubjectPath t = true /\ occurs_in t self) triples.
Proof.
  set (P0 := fun v => forall triples,
               collect_triples v = Ok triples ->
               Forall (fun t => is_TriplesSameSubjectPath t = true /\ occurs_in t v)
                      triples).
  enough (H : P0 self /\ (forall items, self = PList items -> Forall P0 items))
    by (apply H).
  induction self as [|x|x|x|e n v|items IH|items IH|i|c fields IH]
    using pv_nested_ind;
    (split; [intros found Hf; try discriminate Hf | intros items' Heq; try discriminate Heq]).
  - injection Heq as <-. eapply Forall_impl; [exact IH|]. now intros v [Hv _].
  - cbn [collect_triples] in Hf.
    destruct (is_SPARQLGrammarBase c); [|discriminate].
    match type of Hf with
    | (match ?c with _ => _ end) = _ => destruct c as [collected|] eqn:Hc
    end; [|discriminate].
    unfold py_list_set in Hf. destruct (hash_each collected); [|discriminate].
    injection Hf as <-.
    eapply (collect_each_Forall _
              (fun f t => is_TriplesSameSubjectPath t = true /\ occurs_in t f)) in Hc.
    + apply Forall_forall. intros t Ht.
      apply distinct_from_elem in Ht as [Ht _].
      rewrite Forall_forall in Hc. destruct (Hc _ Ht) as (f & Hfin & Htssp & Hocc).
      split; [exact Htssp|]. now apply occurs_in_field with f.
    + eapply Forall_impl; [exact IH|]. intros f [Hf0 Hfl] l.
      destruct (is_TriplesSameSubjectPath f) eqn:Hft.
      * intros [= <-]. constructor; [|constructor]. split; [exact Hft | constructor].
      * destruct f as [| | | | |items| | |c' fs]; try (intros [= <-]; constructor).
        -- intros Hitems.
           eapply (collect_each_Forall _
                     (fun i t => is_TriplesSameSubjectPath t = true /\ occurs_in t i))
             in Hitems.
           ++ eapply Forall_impl; [exact Hitems|].
              intros t (i & Hi & Htssp & Hocc). split; [exact Htssp|].
              now apply occurs_in_item with i.
           ++ eapply Forall_impl; [exact (Hfl _ eq_refl)|]. intros i Hi l'.
              destruct (is_TriplesSameSubjectPath i) eqn:Hit.
              ** intros [= <-]. constructor; [|constructor].
                 split; [exact Hit | constructor].
              ** destruct (isinstance_SPARQLGrammarBase i); [apply Hi|].
                 intros [= <-]. constructor.
        -- cbn [isinstance_SPARQLGrammarBase].
           destruct (is_SPARQLGrammarBase c'); [apply Hf0|].
           intros [= <-]. constructor.
Qed.

(** ** [TriplesBlock.from_tssp_list] *)

(** The block [from_tssp_list] builds: every further element of the list is
    put in front of the block built so far. *)
Definition block_chain (first_tssp : pv) (rest : list pv) : pv :=
  fold_left (fun tb tssp => PObj Cls.TriplesBlock [tssp; tb]) rest
            (PObj Cls.TriplesBlock [first_tssp; PNone]).

Lemma is_TriplesSameSubjectPath_conforms (v : pv) :
  conforms (TCls Cls.TriplesSameSubjectPath) v = is_TriplesSameSubjectPath v.
Proof.
  destruct v as [| | | | | | | |c fields]; try reflexivity. now destruct c.
Qed.

Lemma from_tssp_loop_tree (fullmatch : Regex -> string -> bool) (rest : list pv) :
  forall fields,
    forallb is_TriplesSameSubjectPath rest = true ->
    from_tssp_loop fullmatch rest (PObj Cls.TriplesBlock fields)
    = Ok (fold_left (fun tb tssp => PObj Cls.TriplesBlock [tssp; tb]) rest
            (PObj Cls.TriplesBlock fields)).
Proof.
  induction rest as [|tssp rest IH]; intros fields H; [reflexivity|].
  cbn [forallb] in H. apply andb_true_iff in H as [Ht Hrest].
  cbn [from_tssp_loop fold_left].
  assert (Hnew : construct fullmatch Cls.TriplesBlock
                   [("triples", Ok tssp);
                    ("triples_block", Ok (PObj Cls.TriplesBlock fields))]
                 = Ok (PObj Cls.TriplesBlock [tssp; PObj Cls.TriplesBlock fields])).
  { destruct tssp as [| | | | | | | |c fs]; try discriminate.
    destruct c; try discriminate. reflexivity. }
  rewrite Hnew. now apply IH.
Qed.

Lemma from_tssp_list_tree
    (fullmatch : Regex -> string -> bool) (first_tssp : pv) (rest : list pv) :
  forallb is_TriplesSameSubjectPath (first_tssp :: rest) = true ->
  from_tssp_list fullmatch (PList (first_tssp :: rest))
  = Ok (block_chain first_tssp rest).
Proof.
  cbn [forallb]. intros [Hf Hrest]%andb_true_iff.
  unfold from_tssp_list. cbn [py_truthy length Nat.eqb negb py_iter].
  assert (Hnew : construct fullmatch Cls.TriplesBlock [("triples", Ok first_tssp)]
                 = Ok (PObj Cls.TriplesBlock [first_tssp; PNone])).
  { destruct first_tssp as [| | | | | | | |c fs]; try discriminate.
    destruct c; try discriminate. reflexivity. }
  rewrite Hnew. now apply from_tssp_loop_tree.
Qed.

(** [n] line breaks. *)
Definition newlines (n : nat) : string := String.concat "" (repeat NL n).

Lemma newlines_S (n : nat) : newlines (S n) = NL +:+ newlines n.
Proof. destruct n; reflexivity. Qed.

Lemma concat_sep_snoc (sep : string) (ts : list string) (t : string) :
  String.concat sep (ts ++ [t])
  = String.concat "" (map (fun u => u +:+ sep) ts) +:+ t.
Proof.
  induction ts as [|u ts IH]; [reflexivity|].
  cbn [app map].
  change (String.concat "" ((u +:+ sep) :: map (fun u => u +:+ sep) ts))
    with (String.concat "" ([u +:+ sep] ++ map (fun u => u +:+ sep) ts)).
  rewrite concat_empty_app. cbn [String.concat].
  rewrite !append_assoc, <- IH.
  destruct ts; reflexivity.
Qed.

Lemma TriplesBlock_rendered_step (tssp tb : pv) (t r : string) :
  is_TriplesSameSubjectPath tssp = true ->
  py_truthy tb = true ->
  rendered tssp = Ok t ->
  rendered tb = Ok r ->
  rendered (PObj Cls.TriplesBlock [tssp; tb])
  = Ok (t +:+ " ." +:+ NL +:+ r +:+ NL).
Proof.
  intros Hc Htb Ht Hr. unfold rendered in *.
  assert (Hl : is_list tssp = false) by (destruct tssp; try discriminate; reflexivity).
  cbn -[gseq gen_text String.append py_truthy is_list].
  rewrite Hl, Htb. cbn [gwhen].
  gen_text_solve.
Qed.

Lemma block_chain_rendered_aux (rest : list pv) :
  forall (us : list string) (tb : pv) (r : string),
    forallb is_TriplesSameSubjectPath rest = true ->
    Forall2 (fun x u => rendered x = Ok u) rest us ->
    py_truthy tb = true ->
    rendered tb = Ok r ->
    rendered (fold_left (fun tb tssp => PObj Cls.TriplesBlock [tssp; tb]) rest tb)
    = Ok (String.concat "" (map (fun u => u +:+ " ." +:+ NL) (rev us))
          +:+ r +:+ newlines (length rest)).
Proof.
  induction rest as [|x rest IH]; intros us tb r Hc Hts Htb Hr.
  - inversion Hts; subst. cbn. now rewrite append_empty_r.
  - inversion Hts as [|x' u rest' us' Hx Hrest]; subst.
    cbn [forallb] in Hc. apply andb_true_iff in Hc as [Hcx Hcrest].
    cbn [fold_left length].
    rewrite (IH us' (PObj Cls.TriplesBlock [x; tb])
               (u +:+ " ." +:+ NL +:+ r +:+ NL) Hcrest Hrest eq_refl
               (TriplesBlock_rendered_step _ _ _ _ Hcx Htb Hx Hr)).
    f_equal. cbn [rev]. rewrite map_app, concat_empty_app. cbn [map String.concat].
    rewrite newlines_S. string_normalize. reflexivity.
Qed.

Lemma TriplesBlock_rendered_last (tssp : pv) (t : string) :
  is_TriplesSameSubjectPath tssp = true ->
  rendered tssp = Ok t ->
  rendered (PObj Cls.TriplesBlock [tssp; PNone]) = Ok t.
Proof.
  intros Hc Ht. unfold rendered in *.
  assert (Hl : is_list tssp = false) by (destruct tssp; try discriminate; reflexivity).
  cbn -[gseq gen_text String.append is_list].
  rewrite Hl. now rewrite gen_text_app_nil.
Qed.

(** X18.  [TriplesBlock.from_tssp_list] returns [None] for [None] and for the
    empty list.  For a non-empty list of triples it returns a block that
    renders the triples in the reverse order of the list, joined by [" .\n"],
    followed by one line break for every triple but one. *)
Theorem from_tssp_list_renders_reversed
    (fullmatch : Regex -> string -> bool) (tssp_list : list pv) (ts : list string) :
  forallb is_TriplesSameSubjectPath tssp_list = true ->
  Forall2 (fun x t => rendered x = Ok t) tssp_list ts ->
  tssp_list <> [] ->
  from_tssp_list fullmatch PNone = Ok PNone
  /\ from_tssp_list fullmatch (PList []) = Ok PNone
  /\ exists tb,
       from_tssp_list fullmatch (PList tssp_list) = Ok tb
       /\ rendered tb
          = Ok (String.concat (" ." +:+ NL) (rev ts)
                +:+ newlines (length tssp_list - 1)).
Proof.
  intros Hc Hts Hne. split; [reflexivity|]. split; [reflexivity|].
  destruct Hts as [|first_tssp t rest us Hfirst Hrest]; [congruence|].
  exists (block_chain first_tssp rest). split; [now apply from_tssp_list_tree|].
  cbn [forallb] in Hc. apply andb_true_iff in Hc as [Hcf Hcr].
  unfold block_chain.
  rewrite (block_chain_rendered_aux rest us
             (PObj Cls.TriplesBlock [first_tssp; PNone]) t Hcr Hrest eq_refl
             (TriplesBlock_rendered_last _ _ Hcf Hfirst)).
  f_equal. cbn [rev length]. rewrite concat_sep_snoc.
  replace (S (length rest) - 1) with (length rest) by lia.
  now rewrite append_assoc.
Qed.

Lemma from_tssp_list_renders_reversed_witness :
  from_tssp_list (fun _ _ => true) PNone = Ok PNone
  /\ from_tssp_list (fun _ _ => true) (PList []) = Ok PNone
  /\ exists tb,
       from_tssp_list (fun _ _ => true)
         (PList [sample_tssp "a" "b" "c"; sample_tssp "d" "e" "f";
                 sample_tssp "g" "h" "i"]) = Ok tb
       /\ rendered tb
          = Ok ("?g ?h ?i ." +:+ NL +:+ "?d ?e ?f ." +:+ NL +:+ "?a ?b ?c"
                +:+ NL +:+ NL).
Proof.
  apply (from_tssp_list_renders_reversed (fun _ _ => true)
           [sample_tssp "a" "b" "c"; sample_tssp "d" "e" "f"; sample_tssp "g" "h" "i"]
           ["?a ?b ?c"; "?d ?e ?f"; "?g ?h ?i"]);
    [reflexivity | repeat constructor | discriminate].
Defined.

Lemma hash_each_Forall (items : list pv) :
  hash_each items = Ok tt <-> Forall (fun x => py_hash x = Ok tt) items.
Proof.
  induction items as [|x items IH]; cbn [hash_each].
  - split; [constructor | reflexivity].
  - destruct (py_hash x) as [[]|e] eqn:Hx.
    + rewrite IH. split; [now constructor | now inversion 1].
    + split; [discriminate | inversion 1; congruence].
Qed.

Lemma distinct_from_NoDup (seen items : list pv) :
  NoDup (distinct_from seen items).
Proof.
  destruct (distinct_from_spec items seen) as [_ H].
  induction H as [|x l Hx _ IH]; constructor; [|exact IH].
  intros Hin. rewrite Forall_forall in Hx. specialize (Hx _ Hin).
  now rewrite pv_eqb_refl in Hx.
Qed.

Lemma collect_triples_TriplesBlock_step (tssp tb : pv) (found : list pv) :
  is_TriplesSameSubjectPath tssp = true ->
  isinstance_SPARQLGrammarBase tb = true ->
  is_TriplesSameSubjectPath tb = false ->
  is_list tb = false ->
  collect_triples tb = Ok found ->
  collect_triples (PObj Cls.TriplesBlock [tssp; tb]) = py_list_set (tssp :: found).
Proof.
  intros Ht Hsgb Hnt Hnl Hfound.
  cbn [collect_triples]. change (is_SPARQLGrammarBase Cls.TriplesBlock) with true.
  cbn [collect_each]. rewrite Ht, Hnt.
  destruct tb as [| | | | | | | |c fs]; try discriminate.
  rewrite Hsgb, Hfound. cbn [app]. now rewrite app_nil_r.
Qed.

Lemma block_chain_collected_aux (rest : list pv) :
  forall (tb : pv) (found done : list pv),
    forallb is_TriplesSameSubjectPath rest = true ->
    Forall (fun x => py_hash x = Ok tt) (rest ++ done) ->
    (exists fields, tb = PObj Cls.TriplesBlock fields) ->
    collect_triples tb = Ok found ->
    NoDup found ->
    (forall x, x ∈ found <-> x ∈ done) ->
    exists triples,
      collect_triples
        (fold_left (fun tb tssp => PObj Cls.TriplesBlock [tssp; tb]) rest tb)
      = Ok triples
      /\ NoDup triples
      /\ (forall x, x ∈ triples <-> x ∈ rest ++ done).
Proof.
  induction rest as [|y rest IH]; intros tb found done Hc Hh Htb Hf Hnd Hel.
  - exists found. auto.
  - cbn [forallb] in Hc. apply andb_true_iff in Hc as [Hy Hrest].
    cbn [fold_left]. destruct Htb as [fields ->].
    pose proof (collect_triples_TriplesBlock_step y (PObj Cls.TriplesBlock fields)
                  found Hy eq_refl eq_refl eq_refl Hf)
      as Hstep.
    assert (Hhash : hash_each (y :: found) = Ok tt).
    { apply hash_each_Forall. rewrite Forall_forall in Hh.
      apply Forall_forall. intros x [-> | Hx]%elem_of_cons.
      - apply Hh. apply elem_of_cons. now left.
      - apply Hh. cbn [app]. apply elem_of_cons. right.
        apply elem_of_app. right. now apply Hel. }
    unfold py_list_set in Hstep. rewrite Hhash in Hstep.
    destruct (IH (PObj Cls.TriplesBlock [y; PObj Cls.TriplesBlock fields])
                 (distinct_from [] (y :: found)) (y :: done) Hrest)
      as (triples & Ht & Hnd' & Hel').
    + rewrite Forall_forall in Hh. apply Forall_forall. intros x Hx.
      apply Hh. cbn [app]. apply elem_of_app in Hx as [Hx | [-> | Hx]%elem_of_cons].
      * apply elem_of_cons. right. apply elem_of_app. now left.
      * apply elem_of_cons. now left.
      * apply elem_of_cons. right. apply elem_of_app. now right.
    + eauto.
    + exact Hstep.
    + apply distinct_from_NoDup.
    + intros x. rewrite distinct_from_elem. cbn [existsb]. rewrite !elem_of_cons, Hel.
      split; [now intros [H _] | now intros H].
    + exists triples. split; [exact Ht|]. split; [exact Hnd'|].
      intros x. rewrite Hel'. cbn [app]. rewrite !elem_of_app, !elem_of_cons.
      rewrite elem_of_app. tauto.
Qed.

(** X19.  Collecting from the block that [TriplesBlock.from_tssp_list] builds
    gives back the triples of the list, each of them once, when every triple
    is hashable. *)
Theorem collect_triples_of_from_tssp_list
    (fullmatch : Regex -> string -> bool) (tssp_list : list pv) :
  forallb is_TriplesSameSubjectPath tssp_list = true ->
  hash_each tssp_list = Ok tt ->
  tssp_list <> [] ->
  exists tb triples,
    from_tssp_list fullmatch (PList tssp_list) = Ok tb
    /\ collect_triples tb = Ok triples
    /\ NoDup triples
    /\ (forall x, x ∈ triples <-> x ∈ tssp_list).
Proof.
  intros Hc Hh Hne. destruct tssp_list as [|first_tssp rest]; [congruence|].
  exists (block_chain first_tssp rest).
  pose proof (from_tssp_list_tree fullmatch _ _ Hc) as Htree.
  cbn [forallb] in Hc. apply andb_true_iff in Hc as [Hcf Hcr].
  apply hash_each_Forall in Hh.
  assert (Hfirst : collect_triples (PObj Cls.TriplesBlock [first_tssp; PNone])
                   = Ok [first_tssp]).
  { cbn [collect_triples]. change (is_SPARQLGrammarBase Cls.TriplesBlock) with true.
    cbn [collect_each]. rewrite Hcf. cbn [is_TriplesSameSubjectPath
      isinstance_SPARQLGrammarBase app]. unfold py_list_set. cbn [hash_each].
    inversion Hh as [|? ? Hhf _]; subst. now rewrite Hhf. }
  destruct (block_chain_collected_aux rest (PObj Cls.TriplesBlock [first_tssp; PNone])
              [first_tssp] [first_tssp] Hcr)
    as (triples & Ht & Hnd & Hel).
  - rewrite Forall_forall in Hh. apply Forall_forall. intros x Hx. apply Hh.
    apply elem_of_app in Hx as [Hx | Hx%list_elem_of_singleton].
    + apply elem_of_cons. now right.
    + subst. apply elem_of_cons. now left.
  - eauto.
  - exact Hfirst.
  - apply NoDup_singleton.
  - reflexivity.
  - exists triples. split; [exact Htree|]. split; [exact Ht|]. split; [exact Hnd|].
    intros x. rewrite Hel, elem_of_app, !elem_of_cons, elem_of_nil. tauto.
Qed.

Lemma collect_triples_of_from_tssp_list_witness :
  exists tb triples,
    from_tssp_list (fun _ _ => true)
      (PList [sample_tssp "a" "b" "c"; sample_tssp "d" "e" "f";
              sample_tssp "a" "b" "c"]) = Ok tb
    /\ collect_triples tb = Ok triples
    /\ NoDup triples
    /\ (forall x, x ∈ triples
                  <-> x ∈ [sample_tssp "a" "b" "c"; sample_tssp "d" "e" "f";
                           sample_tssp "a" "b" "c"]).
Proof.
  apply (collect_triples_of_from_tssp_list (fun _ _ => true)
           [sample_tssp "a" "b" "c"; sample_tssp "d" "e" "f"; sample_tssp "a" "b" "c"]);
    [reflexivity | reflexivity | discriminate].
Defined.

Lemma collect_triples_returns_triples_of_the_tree_witness :
  Forall (fun t => is_TriplesSameSubjectPath t = true
                   /\ occurs_in t (PObj Cls.TriplesBlock
                                     [sample_tssp "s" "p" "o";
                                      PObj Cls.TriplesBlock
                                        [sample_tssp "x" "y" "z"; PNone]]))
         [sample_tssp "s" "p" "o"; sample_tssp "x" "y" "z"].
Proof.
  exact (collect_triples_returns_triples_of_the_tree
           (PObj Cls.TriplesBlock
              [sample_tssp "s" "p" "o";
               PObj Cls.TriplesBlock [sample_tssp "x" "y" "z"; PNone]])
           [sample_tssp "s" "p" "o"; sample_tssp "x" "y" "z"] eq_refl).
Defined.

(** ** Texts of further renderers *)

(** A clause of a solution modifier: absent, with no text, or an object with
    its rendering. *)
Definition clause_text (clause : pv) (t : string) : Prop :=
  (clause = PNone /\ t = "") \/ (py_truthy clause = true /\ rendered clause = Ok t).

(** X20.  [SolutionModifier.render] emits the ORDER BY clause, then the
    LIMIT/OFFSET clauses (after a line break when both are present), then the
    GROUP BY clause; absent clauses give no text, and the HAVING clause is
    never rendered, whatever it holds. *)
Theorem SolutionModifier_render_skips_having
    (group_by having order_by limit_offset : pv) (tg to tl : string) :
  clause_text group_by tg ->
  clause_text order_by to ->
  clause_text limit_offset tl ->
  rendered (PObj Cls.SolutionModifier [group_by; having; order_by; limit_offset])
  = Ok (to +:+ (if py_truthy order_by && py_truthy limit_offset then NL else "")
        +:+ tl +:+ tg).
Proof.
  unfold clause_text, rendered.
  intros [[-> ->] | [Hg Rg]] [[-> ->] | [Ho Ro]] [[-> ->] | [Hl Rl]];
    cbn -[gseq gen_text String.append py_truthy];
    rewrite ?Hg, ?Ho, ?Hl; cbn [py_truthy gwhen andb];
    gen_text_pieces; string_normalize; reflexivity.
Qed.

Definition sample_having : pv :=
  PObj Cls.HavingClause
    [PList [PObj Cls.HavingCondition
              [PObj Cls.Constraint
                 [PObj Cls.BrackettedExpression
                    [expression_of_primary (sample_primary "x")]]]]].

Lemma SolutionModifier_render_skips_having_witness :
  rendered sample_having = Ok (NL +:+ "HAVING (?x)")
  /\ rendered
       (PObj Cls.SolutionModifier
          [PObj Cls.GroupClause [PList [PObj Cls.GroupCondition [sample_var "g"]]];
           sample_having;
           PNone;
           PObj Cls.LimitOffsetClauses [PObj Cls.LimitClause [PInt 10]; PNone]])
     = Ok ("LIMIT 10" +:+ NL +:+ "GROUP BY ?g").
Proof.
  split; [reflexivity|].
  apply (SolutionModifier_render_skips_having
           (PObj Cls.GroupClause [PList [PObj Cls.GroupCondition [sample_var "g"]]])
           sample_having PNone
           (PObj Cls.LimitOffsetClauses [PObj Cls.LimitClause [PInt 10]; PNone])
           (NL +:+ "GROUP BY ?g") "" "LIMIT 10").
  - right. split; reflexivity.
  - left. split; reflexivity.
  - right. split; reflexivity.
Defined.

(** The text of the optional [DISTINCT] or [REDUCED] of a select clause. *)
Definition modifier_text (distinct_or_reduced : pv) : string :=
  match distinct_or_reduced with
  | PEnum _ _ value => value
  | _ => ""
  end.

(** X21.  [SelectClause.render] writes the keyword, the value of the
    modifier directly after it, with no space between, and then every
    variable with a space before it; the wildcard follows without a space.
    With [DISTINCT] the text starts with [SELECTDISTINCT]. *)
Theorem SelectClause_render_has_no_space_before_modifier
    (distinct_or_reduced : pv) (variables : list pv) (ts : list string) :
  distinct_or_reduced = PNone
  \/ (exists name value, distinct_or_reduced = PEnum DistinctReduced name value) ->
  Forall2 (fun x t => is_Var x = true /\ rendered x = Ok t) variables ts ->
  rendered (PObj Cls.SelectClause [distinct_or_reduced; PList variables])
  = Ok ("SELECT" +:+ modifier_text distinct_or_reduced
        +:+ String.concat "" (map (fun t => " " +:+ t) ts))
  /\ rendered (PObj Cls.SelectClause
                 [distinct_or_reduced; PEnum Wildcard "WILDCARD" "*"])
     = Ok ("SELECT" +:+ modifier_text distinct_or_reduced +:+ "*").
Proof.
  intros Hm Hvars.
  assert (Hloop : gen_text
                    (gfor (fun item =>
                             if is_Var item then ystr " " >> render item
                             else if is_tuple item then
                               unpack2 item (fun expression as_var =>
                                 ystr " (" >> render expression >> ystr " AS "
                                 >> render as_var >> ystr ")")
                             else gskip) variables)
                  = Ok (String.concat "" (map (fun t => " " +:+ t) ts))).
  { apply gen_text_gfor. clear -Hvars.
    induction Hvars as [|x t xs us [Hv Hx] _ IH]; constructor; [|exact IH].
    rewrite Hv. unfold rendered in Hx. gen_text_solve. }
  unfold rendered.
  destruct Hm as [-> | (name & value & ->)];
    (split;
     [ cbn -[gseq gen_text String.append gfor]; gen_text_solve
     | cbn -[gseq gen_text String.append]; gen_text_solve ]).
Qed.

Lemma SelectClause_render_has_no_space_before_modifier_witness :
  rendered (PObj Cls.SelectClause
              [PEnum DistinctReduced "DISTINCT" "DISTINCT";
               PList [sample_var "a"; sample_var "b"]])
  = Ok "SELECTDISTINCT ?a ?b"
  /\ rendered (PObj Cls.SelectClause
                 [PEnum DistinctReduced "DISTINCT" "DISTINCT";
                  PEnum Wildcard "WILDCARD" "*"])
     = Ok "SELECTDISTINCT*".
Proof.
  apply (SelectClause_render_has_no_space_before_modifier
           (PEnum DistinctReduced "DISTINCT" "DISTINCT")
           [sample_var "a"; sample_var "b"] ["?a"; "?b"]).
  - right. now exists "DISTINCT", "DISTINCT".
  - repeat constructor.
Defined.

(** An order condition over the variable [?name], with or without a
    direction, and the fragments its [render] yields. *)
Definition order_condition (c : string * option string) : pv :=
  PObj Cls.OrderCondition
    [PObj Cls.Var [PObj Cls.VAR1 [PStr (fst c)]];
     match snd c with Some direction => PStr direction | None => PNone end].

Definition order_fragments (c : string * option string) : list string :=
  match snd c with
  | Some direction => [direction +:+ "("; "?"; fst c; ")"]
  | None => ["?"; fst c]
  end.

Lemma strs_map_PStr (ss : list string) : strs (map PStr ss) = Ok ss.
Proof. induction ss as [|s ss IH]; [reflexivity|]. cbn [map strs]. now rewrite IH. Qed.

Lemma order_condition_render (c : string * option string) :
  match snd c with Some direction => direction <> "" | None => True end ->
  render (order_condition c) = Ok (map PStr (order_fragments c)).
Proof.
  destruct c as [name [direction|]]; intros H; unfold order_condition, order_fragments;
    cbn [fst snd]; [|reflexivity].
  cbn -[gseq String.append py_truthy]. rewrite (py_truthy_PStr _ H). reflexivity.
Qed.

(** X22.  [OrderClause.render] joins the fragments that the conditions
    yield, not their texts, with single spaces.  A variable is yielded as the
    two fragments [?] and its name and a direction as a fragment of its own,
    so the clause reads [ORDER BY ? x DESC( ? y )]: a space separates the
    question mark from the name and the parentheses from the variable. *)
Theorem OrderClause_render_spaces_between_fragments
    (conditions : list (string * option string)) :
  Forall (fun c => match snd c with Some direction => direction <> "" | None => True end)
         conditions ->
  rendered (PObj Cls.OrderClause [PList (map order_condition conditions)])
  = Ok (NL +:+ "ORDER BY "
        +:+ String.concat " " (flat_map order_fragments conditions)).
Proof.
  intros H.
  assert (Hparts : gfor render (map order_condition conditions)
                   = Ok (map PStr (flat_map order_fragments conditions))).
  { induction H as [|c conditions Hc _ IH]; [reflexivity|].
    cbn [map gfor flat_map]. rewrite (order_condition_render _ Hc), IH.
    cbn [gseq]. now rewrite map_app. }
  unfold rendered. cbn -[gseq gen_text String.append gfor py_join].
  rewrite Hparts. unfold py_join. rewrite strs_map_PStr.
  cbn [gseq ystr app gen_text py_join strs String.concat].
  string_normalize. reflexivity.
Qed.

Lemma OrderClause_render_spaces_between_fragments_witness :
  rendered (PObj Cls.OrderClause
              [PList [order_condition ("x", None); order_condition ("y", Some "DESC")]])
  = Ok (NL +:+ "ORDER BY ? x DESC( ? y )").
Proof.
  apply (OrderClause_render_spaces_between_fragments [("x", None); ("y", Some "DESC")]).
  repeat constructor. discriminate.
Defined.

(** X23.  [Aggregate.render] renders the function through the f-string over
    the enum member: the text starts with the member's qualified name,
    [AggregateOptions.COUNT(] for [COUNT], not with its value.  An expression
    is rendered between the parentheses, after [DISTINCT ] when the flag is
    set; the wildcard is rendered by its value. *)
Theorem Aggregate_render_qualifies_function_name
    (name value : string) (distinct : bool) (expression : pv) (t : string)
    (wildcard_name wildcard_value : string) :
  conforms TExpr expression = true ->
  rendered expression = Ok t ->
  rendered (PObj Cls.Aggregate
              [PEnum AggregateOptions name value; PBool distinct; expression; PNone])
  = Ok ("AggregateOptions." +:+ name +:+ "("
        +:+ (if distinct then "DISTINCT " else "") +:+ t +:+ ")")
  /\ rendered (PObj Cls.Aggregate
                 [PEnum AggregateOptions name value; PBool distinct;
                  PEnum Wildcard wildcard_name wildcard_value; PNone])
     = Ok ("AggregateOptions." +:+ name +:+ "("
           +:+ (if distinct then "DISTINCT " else "") +:+ wildcard_value +:+ ")").
Proof.
  intros Hc Ht. split.
  - destruct expression as [| | | | | | | |c fields]; try discriminate.
    destruct c; try discriminate.
    remember (PObj Cls.Expression fields) as e.
    assert (He : isinstance_enum e Wildcard = false) by now subst e.
    clear Heqe.
    unfold rendered in *. cbn -[gseq gen_text String.append isinstance_enum].
    rewrite He. destruct distinct; cbn [gwhen]; gen_text_solve.
  - unfold rendered. cbn -[gseq gen_text String.append].
    destruct distinct; cbn [gwhen]; gen_text_solve.
Qed.

Lemma Aggregate_render_qualifies_function_name_witness :
  rendered (PObj Cls.Aggregate
              [PEnum AggregateOptions "COUNT" "COUNT"; PBool true;
               expression_of_primary (sample_primary "x"); PNone])
  = Ok "AggregateOptions.COUNT(DISTINCT ?x)"
  /\ rendered (PObj Cls.Aggregate
                 [PEnum AggregateOptions "COUNT" "COUNT"; PBool true;
                  PEnum Wildcard "WILDCARD" "*"; PNone])
     = Ok "AggregateOptions.COUNT(DISTINCT *)".
Proof.
  apply (Aggregate_render_qualifies_function_name
           "COUNT" "COUNT" true (expression_of_primary (sample_primary "x")) "?x"
           "WILDCARD" "*");
    reflexivity.
Defined.

(** X24.  [BuiltInCall.render] loops over its arguments.  Without arguments
    it renders the bare function name, with no parentheses.  A single model
    as argument (an [Expression], an [ExpressionList], a [Var], a [NIL])
    iterates as (name, value) tuples, and the call of [render] on the first
    of them raises [AttributeError].  Two expressions in a tuple render each
    between parentheses of its own, with the separator inside the first
    pair: [f(a, )(b)]. *)
Theorem BuiltInCall_render_arguments
    (name value : string) (cls : Cls.t) (field : pv) (fields : list pv)
    (a b : pv) (ta tb : string) :
  is_tuple_or_Expression a = true ->
  is_tuple_or_Expression b = true ->
  rendered a = Ok ta ->
  rendered b = Ok tb ->
  rendered (PObj Cls.BuiltInCall [PEnum BuiltInCallOptions name value; PNone])
  = Ok value
  /\ rendered (PObj Cls.BuiltInCall
                 [PEnum BuiltInCallOptions name value; PObj cls (field :: fields)])
     = Err (AttributeError "'tuple' object has no attribute 'render'")
  /\ rendered (PObj Cls.BuiltInCall
                 [PEnum BuiltInCallOptions name value; PTuple [a; b]])
     = Ok (value +:+ "(" +:+ ta +:+ ", )(" +:+ tb +:+ ")").
Proof.
  intros Ha Hb Ra Rb. unfold rendered in *.
  split; [reflexivity | split; [reflexivity|]].
  cbn -[gseq gen_text String.append is_tuple_or_Expression].
  rewrite Ha, Hb. gen_text_solve.
Qed.

Lemma BuiltInCall_render_arguments_witness :
  rendered (PObj Cls.BuiltInCall [PEnum BuiltInCallOptions "NOW" "NOW"; PNone])
  = Ok "NOW"
  /\ rendered (PObj Cls.BuiltInCall
                 [PEnum BuiltInCallOptions "NOW" "NOW";
                  PObj Cls.Expression
                    [PObj Cls.ConditionalOrExpression [PList []]]])
     = Err (AttributeError "'tuple' object has no attribute 'render'")
  /\ rendered (PObj Cls.BuiltInCall
                 [PEnum BuiltInCallOptions "NOW" "NOW";
                  PTuple [expression_of_primary (sample_primary "x");
                          expression_of_primary (sample_primary "y")]])
     = Ok "NOW(?x, )(?y)".
Proof.
  apply (BuiltInCall_render_arguments "NOW" "NOW" Cls.Expression
           (PObj Cls.ConditionalOrExpression [PList []]) []
           (expression_of_primary (sample_primary "x"))
           (expression_of_primary (sample_primary "y")) "?x" "?y");
    reflexivity.
Defined.

(** What validity says about a [Quads]: its first field is a list that starts
    with a [TriplesTemplate] of two fields. *)
Lemma valid_Quads_inv (fullmatch : Regex -> string -> bool) (fields : list pv) :
  valid fullmatch (PObj Cls.Quads fields) = true ->
  exists a b templates quads_not_triples,
    fields = [PList (PObj Cls.TriplesTemplate [a; b] :: templates); quads_not_triples].
Proof.
  intros H. cbn [valid] in H.
  apply andb_true_iff in H as [[Hfields Hvalid]%andb_true_iff Hpair].
  destruct fields as [|f1 [|f2 [|f3 fields]]]; cbn in Hfields;
    rewrite ?andb_false_r in Hfields; try discriminate Hfields.
  apply andb_true_iff in Hfields as [H1 _].
  destruct f1 as [| | | | |items| | |]; try discriminate H1.
  destruct items as [|x items].
  { cbn in Hpair. destruct (py_len f2); discriminate Hpair. }
  cbn in H1. apply andb_true_iff in H1 as [Hx _].
  destruct x as [| | | | | | | |c fs]; try discriminate Hx.
  destruct c; try discriminate Hx.
  cbn [forallb valid] in Hvalid.
  apply andb_true_iff in Hvalid as [Hv _].
  apply andb_true_iff in Hv as [Hv _].
  apply andb_true_iff in Hv as [[Hfs _]%andb_true_iff _].
  destruct fs as [|a [|b [|c fs]]]; cbn in Hfs;
    rewrite ?andb_false_r in Hfs; try discriminate Hfs.
  now exists a, b, items, f2.
Qed.

(** X25.  No validly constructed [Quads] renders: a [Quads] holds at least
    one [TriplesTemplate], and [TriplesTemplate.render] reads the attribute
    [triples_same_subject_path], which the model does not have.  The
    [AttributeError] escapes from every renderer above it: quad patterns and
    quad data, INSERT DATA, DELETE DATA, DELETE WHERE, and the DELETE and
    INSERT clauses of a modify operation. *)
Theorem valid_Quads_never_render
    (fullmatch : Regex -> string -> bool) (fields : list pv)
    (using_clauses group_graph_pattern : pv) :
  valid fullmatch (PObj Cls.Quads fields) = true ->
  let quads := PObj Cls.Quads fields in
  let raised : result string :=
    Err (AttributeError
           "'TriplesTemplate' object has no attribute 'triples_same_subject_path'") in
  rendered quads = raised
  /\ rendered (PObj Cls.QuadPattern [quads]) = raised
  /\ rendered (PObj Cls.QuadData [quads]) = raised
  /\ rendered (PObj Cls.InsertData [PObj Cls.QuadData [quads]]) = raised
  /\ rendered (PObj Cls.DeleteData [PObj Cls.QuadData [quads]]) = raised
  /\ rendered (PObj Cls.DeleteWhere [PObj Cls.QuadPattern [quads]]) = raised
  /\ rendered (PObj Cls.Modify
                 [PNone; PObj Cls.DeleteClause [PObj Cls.QuadPattern [quads]];
                  using_clauses; group_graph_pattern]) = raised
  /\ rendered (PObj Cls.Modify
                 [PNone; PObj Cls.InsertClause [PObj Cls.QuadPattern [quads]];
                  using_clauses; group_graph_pattern]) = raised.
Proof.
  intros H. destruct (valid_Quads_inv _ _ H) as (a & b & templates & qnt & ->).
  cbv zeta. repeat split.
Qed.

Lemma valid_Quads_never_render_witness :
  valid (fun _ _ => true)
    (PObj Cls.Quads
       [PList [PObj Cls.TriplesTemplate [sample_tss "s" "p" "o"; PNone]]; PList []])
  = true
  /\ rendered
       (PObj Cls.InsertData
          [PObj Cls.QuadData
             [PObj Cls.Quads
                [PList [PObj Cls.TriplesTemplate [sample_tss "s" "p" "o"; PNone]];
                 PList []]]])
     = Err (AttributeError
              "'TriplesTemplate' object has no attribute 'triples_same_subject_path'").
Proof.
  split; [reflexivity|].
  exact (proj1 (proj2 (proj2 (proj2
           (valid_Quads_never_render (fun _ _ => true)
              [PList [PObj Cls.TriplesTemplate [sample_tss "s" "p" "o"; PNone]];
               PList []]
              PNone PNone eq_refl))))).
Defined.

(** ** Construction establishes validity *)

(** A field validator that accepts a value returns it unchanged. *)
Lemma field_validator_returns_its_argument
    (fullmatch : Regex -> string -> bool) (cls : Cls.t) (name : string)
    (validator : pv -> result pv) (v v' : pv) :
  field_validator fullmatch cls name = Some validator ->
  validator v = Ok v' -> v' = v.
Proof.
  unfold field_validator. destruct (is_Terminal cls).
  - destruct (String.eqb name "value"); [|discriminate]. intros [= <-].
    unfold check_value. destruct (get_regex_pattern cls); [|discriminate].
    destruct v; try discriminate. destruct (fullmatch _ _); [|discriminate].
    now intros [= <-].
  - destruct cls; try discriminate.
    + destruct (String.eqb name "sequence_paths"); [|discriminate]. intros [= <-].
      unfold must_contain_at_least_one_item.
      destruct (py_len v) as [n|]; [|discriminate].
      destruct (n =? 0)%Z; [discriminate|]. now intros [= <-].
    + destruct (String.eqb name "list_path_elt_or_inverse"); [|discriminate].
      intros [= <-]. unfold must_contain_at_least_one_item.
      destruct (py_len v) as [n|]; [|discriminate].
      destruct (n =? 0)%Z; [discriminate|]. now intros [= <-].
    + destruct (String.eqb name "pathmod"); [|discriminate]. intros [= <-].
      unfold validate_function_name. destruct (existsb _ _); [|discriminate].
      now intros [= <-].
    + destruct (String.eqb name "expression").
      * intros [= <-]. unfold validate_expression.
        destruct (isinstance_enum v Wildcard); [discriminate|]. now intros [= <-].
      * destruct (String.eqb name "separator"); [|discriminate]. intros [= <-].
        discriminate.
Qed.

(** The defaults of all models are plain values. *)
Lemma defaults_are_valid (fullmatch : Regex -> string -> bool) (cls : Cls.t) :
  forallb (fun f => match fdefault f with
                    | Some d => valid fullmatch d
                    | None => true
                    end) (model_fields cls) = true.
Proof. destruct cls; reflexivity. Qed.

Lemma lookup_kwarg_In (name : string) (kwargs : list (string * pv)) (v : pv) :
  lookup_kwarg name kwargs = Some v -> exists k, In (k, v) kwargs.
Proof.
  induction kwargs as [|[k w] kwargs IH]; [discriminate|].
  cbn [lookup_kwarg]. destruct (String.eqb k name).
  - intros [= <-]. exists k. now left.
  - intros H. destruct (IH H) as [k' Hk]. exists k'. now right.
Qed.

Lemma validate_field_gives_valid
    (fullmatch : Regex -> string -> bool) (cls : Cls.t) (f : field)
    (kwargs : list (string * pv)) (v : pv) :
  Forall (fun kv => valid fullmatch (snd kv) = true) kwargs ->
  match fdefault f with Some d => valid fullmatch d | None => true end = true ->
  validate_field fullmatch cls f kwargs = Ok (Some v) ->
  field_ok fullmatch cls f v = true /\ valid fullmatch v = true.
Proof.
  intros Hkw Hd. unfold validate_field, field_ok.
  destruct (lookup_kwarg (fname f) kwargs) as [w|] eqn:Hw.
  - destruct (conforms (ftype f) w) eqn:Hc; [|discriminate].
    destruct (lookup_kwarg_In _ _ _ Hw) as [k Hk].
    rewrite Forall_forall in Hkw. apply list_elem_of_In in Hk.
    specialize (Hkw _ Hk). cbn [snd] in Hkw.
    destruct (field_validator fullmatch cls (fname f)) as [validator|] eqn:Hv.
    + destruct (validator w) as [w'|e] eqn:Hvw.
      * intros [= <-].
        pose proof (field_validator_returns_its_argument _ _ _ _ _ _ Hv Hvw) as ->.
        rewrite Hc, Hvw, pv_eqb_refl. cbn [andb]. rewrite orb_true_r. auto.
      * destruct (is_validation_failure e); discriminate.
    + intros [= <-]. rewrite Hc. cbn [andb]. rewrite orb_true_r. auto.
  - destruct (fdefault f) as [d|]; [|discriminate].
    intros [= <-]. rewrite pv_eqb_refl. auto.
Qed.

Lemma validate_fields_gives_valid
    (fullmatch : Regex -> string -> bool) (cls : Cls.t) (fs : list field)
    (kwargs : list (string * pv)) :
  Forall (fun kv => valid fullmatch (snd kv) = true) kwargs ->
  forallb (fun f => match fdefault f with
                    | Some d => valid fullmatch d
                    | None => true
                    end) fs = true ->
  forall vs,
    validate_fields fullmatch cls fs kwargs = Ok (Some vs) ->
    fields_ok fullmatch cls fs vs = true /\ forallb (valid fullmatch) vs = true.
Proof.
  intros Hkw. induction fs as [|f fs IH]; intros Hd vs H.
  - injection H as <-. auto.
  - cbn [forallb] in Hd. apply andb_true_iff in Hd as [Hdf Hdfs].
    cbn [validate_fields] in H.
    destruct (validate_field fullmatch cls f kwargs) as [[v|]|] eqn:Hf;
      try discriminate;
      destruct (validate_fields fullmatch cls fs kwargs) as [[ws|]|] eqn:Hfs;
      try discriminate.
    injection H as <-.
    destruct (validate_field_gives_valid _ _ _ _ _ Hkw Hdf Hf) as [Hok Hv].
    destruct (IH Hdfs _ eq_refl) as [Hoks Hvs].
    cbn [fields_ok forallb]. now rewrite Hok, Hv, Hoks, Hvs.
Qed.

(** Whatever a constructor returns is valid, when its arguments are: the
    schema of the class was built, every field holds its default or an
    argument that passed the annotation and the field validator, the model
    validator accepted the instance, and the same holds for every object
    below it. *)
Lemma new_returns_valid_objects
    (fullmatch : Regex -> string -> bool) (cls : Cls.t)
    (kwargs : list (string * pv)) (v : pv) :
  Forall (fun kv => valid fullmatch (snd kv) = true) kwargs ->
  new fullmatch cls kwargs = Ok v ->
  valid fullmatch v = true.
Proof.
  intros Hkw. unfold new.
  destruct (schema_raises cls) eqn:Hschema; [discriminate|].
  destruct (validate_fields fullmatch cls (model_fields cls) kwargs)
    as [[fields|]|] eqn:Hf; try discriminate.
  destruct (validate_fields_gives_valid _ _ _ _ Hkw (defaults_are_valid _ cls) _ Hf)
    as [Hok Hv].
  destruct (model_validator cls) as [validator|] eqn:Hm.
  - destruct (validator fields) as [u|e] eqn:Hval.
    + intros [= <-]. cbn [valid]. now rewrite Hschema, Hok, Hv, Hm, Hval.
    + destruct (is_validation_failure e); discriminate.
  - intros [= <-]. cbn [valid]. now rewrite Hschema, Hok, Hv, Hm.
Qed.

(** ** Classes whose schema cannot be built *)













(** ** Path primaries *)

Definition sample_path (p : string) : pv :=
  PObj Cls.SG_Path
    [PObj Cls.PathAlternative
       [PList
          [PObj Cls.PathSequence
             [PList
                [PObj Cls.PathEltOrInverse
                   [PObj Cls.PathElt [PObj Cls.PathPrimary [sample_iri p]; PNone];
                    PBool false]]]]]].

(** X30.  [PathPrimary.render] by alternative: an [iri] renders as itself, a
    negated property set after an exclamation mark, a path between
    parentheses.  For the keyword [a] the method yields the enum member
    instead of its value, so joining the fragments fails with [TypeError]: a
    path primary [a] never renders, while [PathOneInPropertySet] renders the
    same member as [a]. *)
Theorem PathPrimary_render_alternatives
    (an_iri negated_set path : pv) (ti tn tp name value : string) :
  is_iri an_iri = true ->
  is_PathNegatedPropertySet negated_set = true ->
  is_SG_Path path = true ->
  rendered an_iri = Ok ti ->
  rendered negated_set = Ok tn ->
  rendered path = Ok tp ->
  rendered (PObj Cls.PathPrimary [an_iri]) = Ok ti
  /\ rendered (PObj Cls.PathPrimary [negated_set]) = Ok ("!" +:+ tn)
  /\ rendered (PObj Cls.PathPrimary [path]) = Ok ("(" +:+ tp +:+ ")")
  /\ rendered (PObj Cls.PathPrimary [PEnum VerbRDFType name value])
     = Err (TypeError "sequence item: expected str instance")
  /\ rendered (PObj Cls.PathOneInPropertySet [PEnum VerbRDFType name value; PBool false])
     = Ok value.
Proof.
  intros Hi Hn Hp Ri Rn Rp. unfold rendered in *.
  assert (Ei : isinstance_enum an_iri VerbRDFType = false)
    by (destruct an_iri; try discriminate; reflexivity).
  assert (En : isinstance_enum negated_set VerbRDFType = false)
    by (destruct negated_set; try discriminate; reflexivity).
  assert (Ep : isinstance_enum path VerbRDFType = false)
    by (destruct path; try discriminate; reflexivity).
  assert (In_ : is_iri negated_set = false).
  { destruct negated_set as [| | | | | | | |c fs]; try discriminate.
    now destruct c. }
  assert (Ip : is_iri path = false).
  { destruct path as [| | | | | | | |c fs]; try discriminate. now destruct c. }
  assert (Np : is_PathNegatedPropertySet path = false).
  { destruct path as [| | | | | | | |c fs]; try discriminate. now destruct c. }
  split; [|split; [|split; [|split; reflexivity]]];
    cbn -[gseq gen_text String.append isinstance_enum is_iri
          is_PathNegatedPropertySet is_SG_Path].
  - now rewrite Ei, Hi.
  - rewrite En, In_, Hn. gen_text_solve.
  - rewrite Ep, Ip, Np, Hp. gen_text_solve.
Qed.

Lemma PathPrimary_render_alternatives_witness :
  rendered (PObj Cls.PathPrimary [sample_iri "http://ex/p"]) = Ok "<http://ex/p>"
  /\ rendered (PObj Cls.PathPrimary
                 [PObj Cls.PathNegatedPropertySet [sample_path_one "http://ex/q"; PNone]])
     = Ok "!<http://ex/q>"
  /\ rendered (PObj Cls.PathPrimary [sample_path "http://ex/r"])
     = Ok "(<http://ex/r>)"
  /\ rendered (PObj Cls.PathPrimary [PEnum VerbRDFType "A" "a"])
     = Err (TypeError "sequence item: expected str instance")
  /\ rendered (PObj Cls.PathOneInPropertySet [PEnum VerbRDFType "A" "a"; PBool false])
     = Ok "a".
Proof.
  apply (PathPrimary_render_alternatives
           (sample_iri "http://ex/p")
           (PObj Cls.PathNegatedPropertySet [sample_path_one "http://ex/q"; PNone])
           (sample_path "http://ex/r")
           "<http://ex/p>" "<http://ex/q>" "<http://ex/r>" "A" "a");
    reflexivity.
Defined.

(** ** The pairing rule and [from_spo] at concrete inputs *)

Lemma Quads_pairing_with_lists_witness :
  new (fun _ _ => true) Cls.Quads
    [("triples_templates",
       PList [PObj Cls.TriplesTemplate [sample_tss "a" "b" "c"; PNone];
              PObj Cls.TriplesTemplate [sample_tss "d" "e" "f"; PNone]]);
     ("quads_not_triples", PList [])]
  = Err (ValidationError "validation error for the model").
Proof.
  exact (Quads_pairing_with_lists (fun _ _ => true)
           [PObj Cls.TriplesTemplate [sample_tss "a" "b" "c"; PNone];
            PObj Cls.TriplesTemplate [sample_tss "d" "e" "f"; PNone]] []
           eq_refl eq_refl).
Defined.

Lemma from_spo_rendered_witness :
  exists t,
    from_spo (fun _ _ => true)
      (sample_var "s") (sample_iri "http://ex/p") (sample_var "o") = Ok t
    /\ rendered t = Ok "?s <http://ex/p> ?o".
Proof.
  apply (from_spo_rendered (fun _ _ => true)
           (sample_var "s") (sample_iri "http://ex/p") (sample_var "o")
           "?s" "<http://ex/p>" "?o");
    reflexivity.
Defined.
